(** * pyTMST: amplitude- and f0-modulation spectra and scalograms

    A shallow embedding of [pyTMST/pyTMST.py].  The five analysis entry
    points are written in a small exception-and-log monad: a run either
    returns a value or raises a Python exception, and it records, in
    program order, every collaborator it invokes and every item store
    it attempts on a scalogram grid.  Floating-point values are IEEE
    binary64, computed with the Standard Library's [SpecFloat]. *)

From stdpp Require Import base option list strings.
From Stdlib Require Import ZArith Lia.
From Stdlib Require Import Floats.SpecFloat.

Local Open Scope string_scope.
Local Open Scope list_scope.
Local Open Scope Z_scope.

(** ** Binary64 arithmetic *)

Definition float : Set := spec_float.

Module F64.
Definition prec : Z := 53.
Definition emax : Z := 1024.

Definition add : float -> float -> float := SFadd prec emax.
Definition mul : float -> float -> float := SFmul prec emax.
Definition div : float -> float -> float := SFdiv prec emax.
Definition sqrt : float -> float := SFsqrt prec emax.
Definition eqb : float -> float -> bool := SFeqb.
Definition ltb : float -> float -> bool := SFltb.
Definition leb : float -> float -> bool := SFleb.

(** Conversion of a Python [int] (round to nearest, ties to even). *)
Definition of_Z (n : Z) : float := binary_normalize prec emax n 0 false.

Definition zero : float := S754_zero false.
Definition one : float := Eval vm_compute in of_Z 1.
Definition two : float := Eval vm_compute in of_Z 2.
Definition nan : float := S754_nan.

Definition isnan (x : float) : bool :=
  match x with S754_nan => true | _ => false end.

(** The literals of the source, at their binary64 values. *)
Definition lit_0_1 : float := S754_finite false 7205759403792794 (-56).
Definition lit_0_01 : float := S754_finite false 5764607523034235 (-59).
Definition lit_0_4 : float := S754_finite false 7205759403792794 (-54).
Definition lit_2_5 : float := S754_finite false 5629499534213120 (-51).
Definition lit_1500 : float := Eval vm_compute in of_Z 1500.
Definition lit_440 : float := Eval vm_compute in of_Z 440.
End F64.

(** ** Python exceptions and dynamically typed arguments *)

Inductive exn : Type :=
  | ValueError (msg : string)
  | TypeError (msg : string)
  | IndexError (msg : string)
  | ZeroDivisionError
  | OverflowError
  | UnboundLocalError (name : string)
  | CollaboratorFailure (msg : string).

Inductive result (A : Type) : Type :=
  | Ok (a : A)
  | Raise (e : exn).
Arguments Ok {A} a.
Arguments Raise {A} e.

(** The sample rate [fs] ranges over Python scalars. *)
Inductive pyscalar : Type :=
  | PyNone
  | PyStr (s : string)
  | PyBool (b : bool)
  | PyInt (n : Z)
  | PyFloat (x : float).

(** The signal [sig] is a scalar, a list, or a one-dimensional
    [np.ndarray] of floats. *)
Inductive pyobj : Type :=
  | Scalar (v : pyscalar)
  | PyList (l : list float)
  | NdArray (a : list float).

(** [isinstance(sig, np.ndarray)] *)
Definition is_ndarray (sig : pyobj) : bool :=
  match sig with NdArray _ => true | _ => false end.

(** [isinstance(fs, (int, float))]; [bool] is a subclass of [int]. *)
Definition is_int_or_float (fs : pyscalar) : bool :=
  match fs with PyBool _ | PyInt _ | PyFloat _ => true | _ => false end.

(** [fs <= 0] on a value that passed [is_int_or_float]. *)
Definition le_zero (fs : pyscalar) : bool :=
  match fs with
  | PyBool b => negb b
  | PyInt n => n <=? 0
  | PyFloat x => F64.leb x F64.zero
  | _ => false
  end.

(** The binary64 value numpy and Python arithmetic use for a number. *)
Definition to_float (v : pyscalar) : result float :=
  match v with
  | PyBool b => Ok (if b then F64.one else F64.zero)
  | PyInt n =>
      match F64.of_Z n with
      | S754_infinity _ => Raise OverflowError
      | x => Ok x
      end
  | PyFloat x => Ok x
  | PyNone | PyStr _ => Raise (TypeError "unsupported operand type(s)")
  end.

(** [len(sig)] *)
Definition py_len (sig : pyobj) : result nat :=
  match sig with
  | NdArray a => Ok (length a)
  | PyList l => Ok (length l)
  | Scalar (PyStr s) => Ok (String.length s)
  | Scalar _ => Raise (TypeError "object has no len()")
  end.

(** [round(x)] on a float: to the nearest integer, ties to even. *)
Definition py_round (x : float) : result Z :=
  match x with
  | S754_nan => Raise (ValueError "cannot convert float NaN to integer")
  | S754_infinity _ => Raise OverflowError
  | S754_zero _ => Ok 0
  | S754_finite s m e =>
      let mag :=
        if 0 <=? e then Z.pos m * 2 ^ e
        else
          let d := 2 ^ (- e) in
          let q := Z.pos m / d in
          match (2 * (Z.pos m mod d) ?= d) with
          | Lt => q
          | Gt => q + 1
          | Eq => if Z.even q then q else q + 1
          end in
      Ok (if s then - mag else mag)
  end.

(** ** Arrays *)

(** One-dimensional arrays are lists.  A two-dimensional array is its
    shape and its items; items outside the shape are never read. *)
Record array2 : Type := mkArray2 {
  shape0 : nat;
  shape1 : nat;
  item : nat -> nat -> float
}.

Record array3 : Type := mkArray3 {
  dim0 : nat;
  dim1 : nat;
  dim2 : nat;
  item3 : nat -> nat -> nat -> float
}.

(** [a[i, :]] for [0 <= i]. *)
Definition row (a : array2) (i : nat) : list float :=
  map (item a i) (seq 0 (shape1 a)).

(** [a[:, j]] *)
Definition column (a : array2) (j : nat) : list float :=
  map (fun i => item a i j) (seq 0 (shape0 a)).

(** [a.T] *)
Definition transpose (a : array2) : array2 :=
  mkArray2 (shape1 a) (shape0 a) (fun i j => item a j i).

(** [np.zeros((r, c))]; a negative dimension is refused. *)
Definition np_zeros (r c : Z) : result array2 :=
  if (r <? 0) || (c <? 0)
  then Raise (ValueError "negative dimensions are not allowed")
  else Ok (mkArray2 (Z.to_nat r) (Z.to_nat c) (fun _ _ => F64.zero)).

(** The row a Python index designates on an axis of length [n]:
    negative indices count from the end. *)
Definition normalize_index (n : nat) (i : Z) : option nat :=
  if (0 <=? i) && (i <? Z.of_nat n) then Some (Z.to_nat i)
  else if (- Z.of_nat n <=? i) && (i <? 0) then Some (Z.to_nat (i + Z.of_nat n))
  else None.

(** The array after [a[r, c] = v]. *)
Definition set_item (a : array2) (r c : nat) (v : float) : array2 :=
  mkArray2 (shape0 a) (shape1 a)
    (fun i j => if (i =? r)%nat && (j =? c)%nat then v else item a i j).

(** [a += b] for two arrays of one shape. *)
Definition iadd (a b : array2) : array2 :=
  mkArray2 (shape0 a) (shape1 a) (fun i j => F64.add (item a i j) (item b i j)).

(** [a[a == 0] = np.nan] *)
Definition zeros_to_nan (a : array2) : array2 :=
  mkArray2 (shape0 a) (shape1 a)
    (fun i j => if F64.eqb (item a i j) F64.zero then F64.nan else item a i j).

(** [np.arange(1, n + 1)] as floats. *)
Definition arange1 (n : nat) : list float :=
  map (fun k => F64.of_Z (Z.of_nat k)) (seq 1 n).

(** [l[i]] for [0 <= i]. *)
Definition get {A : Type} (l : list A) (i : nat) : result A :=
  match l !! i with
  | Some x => Ok x
  | None => Raise (IndexError "index out of bounds")
  end.

(** [a[i, :]] with the bounds check. *)
Definition get_row (a : array2) (i : nat) : result (list float) :=
  if (i <? shape0 a)%nat then Ok (row a i)
  else Raise (IndexError "index out of bounds for axis 0").

(** The array after [a[:, j] = v]: [v] has one item per row, or a single
    item that numpy broadcasts down the column. *)
Definition set_column (a : array2) (j : nat) (v : list float) : result array2 :=
  if (length v =? shape0 a)%nat then
    Ok (mkArray2 (shape0 a) (shape1 a)
          (fun i k => if (k =? j)%nat then nth i v F64.nan else item a i k))
  else if (length v =? 1)%nat then
    Ok (mkArray2 (shape0 a) (shape1 a)
          (fun i k => if (k =? j)%nat then nth 0 v F64.nan else item a i k))
  else Raise (ValueError "could not broadcast input array").

(** [x / fs] for an array [x] and a Python number [fs]. *)
Definition div_by_scalar (x : list float) (fs : pyscalar) : result (list float) :=
  match to_float fs with
  | Ok f => Ok (map (fun v => F64.div v f) x)
  | Raise e => Raise e
  end.

(** [max(dims)] *)
Definition py_max (dims : list Z) : result Z :=
  match dims with
  | [] => Raise (ValueError "max() arg is an empty sequence")
  | d :: ds => Ok (foldl Z.max d ds)
  end.

(** [x[::step]] *)
Definition slice_step (x : list float) (step : Z) : result (list float) :=
  let n := length x in
  if step =? 0 then Raise (ValueError "slice step cannot be zero")
  else
    let k := Z.abs_nat step in
    let count := ((n + k - 1) / k)%nat in
    Ok (map (fun j => nth (if 0 <? step then (j * k)%nat
                           else (n - 1 - j * k)%nat) x F64.nan)
          (seq 0 count)).

(** The items of [x] where [mask] holds. *)
Fixpoint select (x : list float) (mask : list bool) : list float :=
  match x, mask with
  | v :: x', b :: mask' => if b then v :: select x' mask' else select x' mask'
  | _, _ => []
  end.

(** [x[mask]] for a boolean array [mask]. *)
Definition mask_select (x : list float) (mask : list bool) : result (list float) :=
  if (length mask =? length x)%nat then Ok (select x mask)
  else Raise (IndexError "boolean index did not match indexed array").

(** The array after [x[mask] = np.nan]. *)
Definition mask_assign_nan (x : list float) (mask : list bool) : result (list float) :=
  if (length mask =? length x)%nat
  then Ok (zip_with (fun v (b : bool) => if b then F64.nan else v) x mask)
  else Raise (IndexError "boolean index did not match indexed array").

(** [~np.isnan(x)] *)
Definition not_nan (x : list float) : list bool :=
  map (fun v => negb (F64.isnan v)) x.

(** [fs // d]: the quotient is never read by the callers, so only the
    exceptions of the floor division are kept. *)
Definition floordiv_check (fs : pyscalar) (d : float) : result unit :=
  match fs with
  | PyNone | PyStr _ => Raise (TypeError "unsupported operand type(s) for //")
  | _ => if F64.eqb d F64.zero then Raise ZeroDivisionError else Ok tt
  end.

(** [fs / d] for two Python numbers, [d] an [int]. *)
Definition py_truediv (fs : pyscalar) (d : Z) : result float :=
  match to_float fs with
  | Raise e => Raise e
  | Ok f => if d =? 0 then Raise ZeroDivisionError
            else Ok (F64.div f (F64.of_Z d))
  end.

(** The length numpy gives an axis when it broadcasts [m] against [n]. *)
Definition broadcast_dim (m n : nat) : option nat :=
  if (m =? n)%nat then Some m
  else if (m =? 1)%nat then Some n
  else if (n =? 1)%nat then Some m
  else None.

(** [a / b] for two-dimensional arrays, with broadcasting. *)
Definition broadcast_div (a b : array2) : result array2 :=
  match broadcast_dim (shape0 a) (shape0 b), broadcast_dim (shape1 a) (shape1 b) with
  | Some r, Some c =>
      Ok (mkArray2 r c
            (fun i j =>
               F64.div
                 (item a (if (shape0 a =? 1)%nat then 0%nat else i)
                         (if (shape1 a =? 1)%nat then 0%nat else j))
                 (item b (if (shape0 b =? 1)%nat then 0%nat else i)
                         (if (shape1 b =? 1)%nat then 0%nat else j))))
  | _, _ => Raise (ValueError "operands could not be broadcast together")
  end.

(** ** Runs: outcome and log *)

Inductive collaborator : Type :=
  | c_auditory_filterbank
  | c_hilbert
  | c_aud_filt_bw
  | c_define_modulation_axis
  | c_segment_into_windows
  | c_periodogram
  | c_lombscargle
  | c_king2019_modfilterbank_updated
  | c_mock_yin
  | c_remove_artifacts
  | c_interpmean.

(** [Store g r c v] is the attempt [grid[r, c] = v] on the grid that
    channel [g] fills; [r] is the Python index as computed. *)
Inductive event : Type :=
  | Invoke (c : collaborator)
  | Store (g : nat) (r : Z) (c : nat) (v : float).

Record M (A : Type) : Type := mkM {
  outcome : result A;
  events : list event
}.
Arguments mkM {A} outcome events.
Arguments outcome {A} m.
Arguments events {A} m.

#[global] Instance M_ret : MRet M := fun A a => mkM (Ok a) [].

#[global] Instance M_bind : MBind M := fun A B f m =>
  match outcome m with
  | Ok a => let r := f a in mkM (outcome r) (events m ++ events r)
  | Raise e => mkM (Raise e) (events m)
  end.

Definition raise {A : Type} (e : exn) : M A := mkM (Raise e) [].

(** A step that calls nothing outside this module. *)
Definition lift {A : Type} (r : result A) : M A := mkM r [].

(** A call of collaborator [c] that answered [r]. *)
Definition invoke {A : Type} (c : collaborator) (r : result A) : M A :=
  mkM r [Invoke c].

(** [grid[r, c] = v] on the grid of channel [g]. *)
Definition store (g : nat) (grid : array2) (r : Z) (c : nat) (v : float) : M array2 :=
  mkM (match normalize_index (shape0 grid) r with
       | Some i => Ok (set_item grid i c v)
       | None => Raise (IndexError "index out of bounds for axis 0")
       end)
      [Store g r c v].

(** A [for] loop over [l] that threads the variables [s] it assigns. *)
Fixpoint foldM {A S : Type} (body : S -> A -> M S) (s : S) (l : list A) : M S :=
  match l with
  | [] => mret s
  | a :: l' => s' ← body s a; foldM body s' l'
  end.

(** [range(n)] *)
Definition range (n : nat) : list nat := seq 0 n.

(** ** Diagnostics bundles and returned tuples *)

Record AMa_spec_params : Type := mk_AMa_spec_params {
  AMa_spec_t : list float;
  AMa_spec_f_bw : list float;
  AMa_spec_gamma_responses : array2;
  AMa_spec_E : array2;
  AMa_spec_mf : list float;
  AMa_spec_mfb : list float
}.

Record AMa_scalogram_params : Type := mk_AMa_scalogram_params {
  AMa_scal_t : list float;
  AMa_scal_f_bw : list float;
  AMa_scal_gamma_responses : array2;
  AMa_scal_E : array2;
  AMa_scal_scale : list float;
  AMa_scal_fc : list float
}.

Record AMi_spec_params : Type := mk_AMi_spec_params {
  AMi_spec_t : list float;
  AMi_spec_f_bw : list float;
  AMi_spec_gamma_responses : array2;
  AMi_spec_E : array2;
  AMi_spec_mf : list float;
  AMi_spec_AMrms : array2;
  AMi_spec_DC : list float
}.

Record f0M_spec_params : Type := mk_f0M_spec_params {
  f0M_spec_t : list float;
  f0M_spec_f0 : list float;
  f0M_spec_mf : list float;
  f0M_spec_mfb : list float
}.

Inductive params : Type :=
  | P_AMa_spec (p : AMa_spec_params)
  | P_AMa_scalogram (p : AMa_scalogram_params)
  | P_AMi_spec (p : AMi_spec_params)
  | P_f0M_spec (p : f0M_spec_params).

(** The objects an entry point returns, in a Python tuple. *)
Inductive retval : Type :=
  | Matrix (a : array2)
  | Vector (v : list float)
  | Bundle (p : params).

Definition is_bundle (r : retval) : bool :=
  match r with Bundle _ => true | _ => false end.

(** ** Collaborators

    The functions imported from [utils], [pyLTFAT], [pyAMT] and [pyYIN],
    scipy's Hilbert envelope, and two numpy primitives whose rounding is
    the C library's ([np.power(2, x)]) or depends on the summation order
    ([np.mean]).  They are deterministic; each may raise. *)
Class Collaborators : Type := {
  auditory_filterbank :
    pyobj -> pyscalar -> float -> float -> result (array2 * list float);
  (** [np.abs(hilbert(x, axis=1))] *)
  abs_hilbert : array2 -> result array2;
  aud_filt_bw : list float -> result (list float);
  define_modulation_axis :
    float -> float -> Z -> result (list float * list float);
  segment_into_windows :
    list float -> pyscalar -> float -> float -> bool -> result array2;
  periodogram : list float -> pyscalar -> list float -> result (list float);
  lombscargle :
    list float -> list float -> list float -> result (list float * list float);
  (** The third output is discarded by the caller. *)
  king2019_modfilterbank_updated :
    array2 -> pyscalar -> float -> float -> Z -> float ->
    result (array3 * list float);
  mock_yin :
    pyobj -> pyscalar -> float -> float -> float -> Z ->
    result (list float * list float);
  remove_artifacts :
    list float -> float -> float -> float -> float * float -> float * float ->
    float -> result (list float);
  interpmean : list float -> list float -> list float -> result (list float);
  np_power2 : float -> float;
  np_mean : list float -> float
}.

(** ** The entry points *)

(** [shift = 0.1] *)
Definition shift : float := F64.lit_0_1.

(** [window_NT * (1 / f_spectra[ifreq])] *)
Definition window_length_of (window_NT f : float) : float :=
  F64.mul window_NT (F64.div F64.one f).

(** [round(window_length / 2 / shift)] *)
Definition half_window (window_length : float) : result Z :=
  py_round (F64.div (F64.div window_length F64.two) shift).

(** The variable [n_windows] is unbound until a loop body assigns it. *)
Definition read_n_windows (n_windows : option nat) : result nat :=
  match n_windows with
  | Some n => Ok n
  | None => Raise (UnboundLocalError "n_windows")
  end.

Section EntryPoints.
Context `{C : Collaborators}.

(** *** AMa_spectrum *)

(** Body of the channel loop, lines 49-50. *)
Definition AMa_spectrum_channel (E : array2) (fs : pyscalar)
    (f_spectra : list float) (AMspec : array2) (ichan : nat) : M array2 :=
  x ← lift (get_row E ichan);
  Pxx ← invoke c_periodogram (periodogram x fs f_spectra);
  lift (set_column AMspec ichan (map (F64.mul F64.two) Pxx)).

Definition AMa_spectrum (sig : pyobj) (fs : pyscalar) (mfmin mfmax : float)
    (modbank_Nmod : Z) (fmin fmax : float) : M (list retval) :=
  if negb (is_ndarray sig) || negb (is_int_or_float fs)
  then raise (ValueError "Invalid input types.")
  else if le_zero fs
  then raise (ValueError "fs must be a positive scalar.")
  else
    n ← lift (py_len sig);
    t ← lift (div_by_scalar (arange1 n) fs);
    '(gamma_responses, fc) ←
      invoke c_auditory_filterbank (auditory_filterbank sig fs fmin fmax);
    E ← invoke c_hilbert (abs_hilbert gamma_responses);
    '(f_spectra, f_spectra_intervals) ←
      invoke c_define_modulation_axis
        (define_modulation_axis mfmin mfmax modbank_Nmod);
    let Nchan := length fc in
    AMspec ← lift (np_zeros (Z.of_nat (length f_spectra)) (Z.of_nat Nchan));
    AMspec ← foldM (AMa_spectrum_channel E fs f_spectra) AMspec (range Nchan);
    f_bw ← invoke c_aud_filt_bw (aud_filt_bw fc);
    let step := mk_AMa_spec_params t f_bw gamma_responses E
                  f_spectra f_spectra_intervals in
    mret [Matrix AMspec; Vector fc; Vector f_spectra; Bundle (P_AMa_spec step)].

(** *** AMa_scalogram *)

(** Sizing pass, lines 77-78: the windows of one frequency. *)
Definition sizing_window (window_length : float) (dims : list Z)
    (iwin : nat) : M (list Z) :=
  r ← lift (half_window window_length);
  mret (dims ++ [Z.of_nat iwin + r + 1]).

(** Sizing pass, lines 73-78: one frequency of one channel. *)
Definition AMa_sizing_freq (E : array2) (fs : pyscalar) (window_NT : float)
    (f_spectra : list float) (ichan : nat) (dims : list Z)
    (ifreq : nat) : M (list Z) :=
  f ← lift (get f_spectra ifreq);
  let window_length := window_length_of window_NT f in
  x ← lift (get_row E ichan);
  windows ← invoke c_segment_into_windows
              (segment_into_windows x fs window_length shift true);
  foldM (sizing_window window_length) dims (range (shape0 windows)).

(** Sizing pass, lines 70-78. *)
Definition AMa_sizing_pass (E : array2) (fs : pyscalar) (window_NT : float)
    (modbank_Nmod : Z) (f_spectra : list float) (Nchan : nat) : M (list Z) :=
  foldM (fun dims ichan =>
           foldM (AMa_sizing_freq E fs window_NT f_spectra ichan) dims
             (range (Z.to_nat modbank_Nmod)))
    [] (range Nchan).

(** Fill pass, lines 91-95: one window. *)
Definition AMa_fill_window (fs : pyscalar) (f window_length : float)
    (windows : array2) (ichan ifreq : nat) (AMspec : array2)
    (iwin : nat) : M array2 :=
  let temp := row windows iwin in
  Efft ← invoke c_periodogram (periodogram temp fs [F64.lit_0_01; f]);
  p ← lift (get Efft 1);
  let Efft := F64.mul F64.two p in
  r ← lift (half_window window_length);
  let index := Z.of_nat iwin + r in
  store ichan AMspec index ifreq Efft.

(** Fill pass, lines 85-95: one frequency of one channel.  The state
    is [AMspec] and the loop variable [n_windows]. *)
Definition AMa_fill_freq (E : array2) (fs : pyscalar) (window_NT : float)
    (f_spectra : list float) (ichan : nat) (st : array2 * option nat)
    (ifreq : nat) : M (array2 * option nat) :=
  f ← lift (get f_spectra ifreq);
  let window_length := window_length_of window_NT f in
  x ← lift (get_row E ichan);
  windows ← invoke c_segment_into_windows
              (segment_into_windows x fs window_length shift true);
  let n_windows := shape0 windows in
  AMspec ← foldM (AMa_fill_window fs f window_length windows ichan ifreq)
             st.1 (range n_windows);
  mret (AMspec, Some n_windows).

(** Fill pass, lines 83-98: one channel.  The state is [AMsgram] and
    [n_windows]. *)
Definition AMa_fill_channel (E : array2) (fs : pyscalar) (window_NT : float)
    (modbank_Nmod : Z) (f_spectra : list float) (dim : Z)
    (st : array2 * option nat) (ichan : nat) : M (array2 * option nat) :=
  AMspec ← lift (np_zeros dim modbank_Nmod);
  '(AMspec, n_windows) ←
    foldM (AMa_fill_freq E fs window_NT f_spectra ichan) (AMspec, st.2)
      (range (Z.to_nat modbank_Nmod));
  let AMsgram := iadd st.1 AMspec in
  let AMsgram := zeros_to_nan AMsgram in
  mret (AMsgram, n_windows).

(** Fill pass, lines 81-98. *)
Definition AMa_fill_pass (E : array2) (fs : pyscalar) (window_NT : float)
    (modbank_Nmod : Z) (f_spectra : list float) (Nchan : nat)
    (dim : Z) : M (array2 * option nat) :=
  AMsgram ← lift (np_zeros dim modbank_Nmod);
  foldM (AMa_fill_channel E fs window_NT modbank_Nmod f_spectra dim)
    (AMsgram, None) (range Nchan).

Definition AMa_scalogram (sig : pyobj) (fs : pyscalar) (window_NT : float)
    (mfmin mfmax : float) (modbank_Nmod : Z) (fmin fmax : float)
    : M (list retval) :=
  if negb (is_ndarray sig) || negb (is_int_or_float fs)
  then raise (ValueError "Invalid input types.")
  else if le_zero fs
  then raise (ValueError "fs must be a positive scalar.")
  else
    n ← lift (py_len sig);
    t ← lift (div_by_scalar (arange1 n) fs);
    '(gamma_responses, fc) ←
      invoke c_auditory_filterbank (auditory_filterbank sig fs fmin fmax);
    E ← invoke c_hilbert (abs_hilbert gamma_responses);
    '(f_spectra, f_spectra_intervals) ←
      invoke c_define_modulation_axis
        (define_modulation_axis mfmin mfmax modbank_Nmod);
    let Nchan := length fc in
    dims ← AMa_sizing_pass E fs window_NT modbank_Nmod f_spectra Nchan;
    dim ← lift (py_max dims);
    '(AMsgram, n_windows) ←
      AMa_fill_pass E fs window_NT modbank_Nmod f_spectra Nchan dim;
    n_windows ← lift (read_n_windows n_windows);
    let t := map (fun k => F64.mul k shift) (arange1 n_windows) in
    f_bw ← invoke c_aud_filt_bw (aud_filt_bw fc);
    let step := mk_AMa_scalogram_params t f_bw gamma_responses E
                  f_spectra fc in
    mret [Matrix AMsgram; Vector fc; Vector f_spectra;
          Bundle (P_AMa_scalogram step)].

(** *** AMi_spectrum *)

(** [np.sqrt(np.mean(AMfilt ** 2, axis=2)) * np.sqrt(2)] *)
Definition AMrms_of (AMfilt : array3) : array2 :=
  mkArray2 (dim0 AMfilt) (dim1 AMfilt)
    (fun a b =>
       F64.mul
         (F64.sqrt (np_mean (map (fun k => let x := item3 AMfilt a b k in
                                           F64.mul x x)
                               (seq 0 (dim2 AMfilt)))))
         (F64.sqrt F64.two)).

(** [np.mean(x, axis=0)] *)
Definition mean_axis0 (x : array2) : list float :=
  map (fun j => np_mean (column x j)) (seq 0 (shape1 x)).

(** [DC[:, np.newaxis] * np.ones(n)] *)
Definition DC_matrix (DC : list float) (n : nat) : array2 :=
  mkArray2 (length DC) n (fun j _ => F64.mul (nth j DC F64.nan) F64.one).

Definition AMi_spectrum (sig : pyobj) (fs : pyscalar) (mfmin mfmax : float)
    (modbank_Nmod : Z) (modbank_Qfactor : float) (fmin fmax : float)
    : M (list retval) :=
  if negb (is_ndarray sig) || negb (is_int_or_float fs)
  then raise (ValueError "Invalid input types.")
  else if le_zero fs
  then raise (ValueError "fs must be a positive scalar.")
  else
    n ← lift (py_len sig);
    t ← lift (div_by_scalar (arange1 n) fs);
    '(gamma_responses, fc) ←
      invoke c_auditory_filterbank (auditory_filterbank sig fs fmin fmax);
    E ← invoke c_hilbert (abs_hilbert gamma_responses);
    '(AMfilt, mf) ←
      invoke c_king2019_modfilterbank_updated
        (king2019_modfilterbank_updated (transpose E) fs mfmin mfmax
           modbank_Nmod modbank_Qfactor);
    let AMrms := AMrms_of AMfilt in
    let DC := mean_axis0 (transpose E) in
    AMIspec ← lift (broadcast_div (transpose AMrms) (DC_matrix DC (length mf)));
    f_bw ← invoke c_aud_filt_bw (aud_filt_bw fc);
    let step := mk_AMi_spec_params t f_bw gamma_responses E mf AMrms DC in
    mret [Matrix AMIspec; Vector fc; Vector mf; Bundle (P_AMi_spec step)].

(** *** f0M_spectrum *)

(** Lines 130-132: conversion to Hz, aperiodicity gate, artifact
    removal. *)
Definition f0_track (fs : pyscalar) (undersample : Z) (fmin fmax : float)
    (ap0_thresh max_jump min_duration : float) (f0 ap0 : list float)
    : M (list float) :=
  let f0 := map (fun x => F64.mul F64.lit_440 (np_power2 x)) f0 in
  f0 ← lift (mask_assign_nan f0 (map (fun a => F64.ltb ap0_thresh a) ap0));
  fs_track ← lift (py_truediv fs undersample);
  invoke c_remove_artifacts
    (remove_artifacts f0 fs_track max_jump min_duration (fmin, fmax)
       (F64.lit_0_4, F64.lit_2_5) F64.lit_1500).

(** Lines 133-138: the samples that are not missing, and their time
    stamps. *)
Definition drop_missing (sig : pyobj) (fs : pyscalar) (undersample : Z)
    (f0 : list float) : result (list float * list float) :=
  let f0_wo_nan := select f0 (not_nan f0) in
  match py_len sig with
  | Raise e => Raise e
  | Ok n =>
    match div_by_scalar (arange1 n) fs with
    | Raise e => Raise e
    | Ok t =>
      match slice_step t undersample with
      | Raise e => Raise e
      | Ok t_wo_nan =>
        let t_wo_nan := take (length f0) t_wo_nan in
        match mask_select t_wo_nan (not_nan f0) with
        | Raise e => Raise e
        | Ok t_wo_nan => Ok (f0_wo_nan, t_wo_nan)
        end
      end
    end
  end.

Definition f0M_spectrum (sig : pyobj) (fs : pyscalar) (mfmin mfmax : float)
    (modbank_Nmod : Z) (undersample : Z) (fmin fmax : float)
    (yin_thresh ap0_thresh max_jump min_duration : float)
    : M (list retval) :=
  _ ← lift (floordiv_check fs (SFopp fmin));
  '(f0, ap0) ← invoke c_mock_yin
                 (mock_yin sig fs fmin fmax yin_thresh undersample);
  f0 ← f0_track fs undersample fmin fmax ap0_thresh max_jump min_duration
         f0 ap0;
  '(f0_wo_nan, t_wo_nan) ← lift (drop_missing sig fs undersample f0);
  '(f_spectra, f_spectra_intervals) ←
    invoke c_define_modulation_axis
      (define_modulation_axis mfmin mfmax modbank_Nmod);
  '(_, f0Mfft) ← invoke c_lombscargle
                   (lombscargle t_wo_nan f0_wo_nan f_spectra);
  let f0Mfft := map (fun p => F64.mul p F64.two) f0Mfft in
  f0M_spectrum ← invoke c_interpmean
                   (interpmean f_spectra f0Mfft f_spectra_intervals);
  fs_track ← lift (py_truediv fs undersample);
  let t_f0 := map (fun k => F64.div k fs_track) (arange1 (length f0)) in
  let step := mk_f0M_spec_params t_f0 f0 f_spectra f_spectra_intervals in
  mret [Vector f0M_spectrum; Vector f_spectra; Bundle (P_f0M_spec step)].

(** *** f0M_scalogram *)

(** Sizing pass, lines 168-174: one frequency. *)
Definition f0M_sizing_freq (f0 : list float) (fs_yin : float)
    (window_NT : float) (f_spectra : list float) (dims : list Z)
    (ifreq : nat) : M (list Z) :=
  f ← lift (get f_spectra ifreq);
  let window_length := window_length_of window_NT f in
  windows ← invoke c_segment_into_windows
              (segment_into_windows f0 (PyFloat fs_yin) window_length
                 shift false);
  foldM (sizing_window window_length) dims (range (shape0 windows)).

(** Fill pass, lines 186-193: one window. *)
Definition f0M_fill_window (f window_length : float)
    (windows t_windows : array2) (ifreq : nat) (f0Msgram : array2)
    (iwin : nat) : M array2 :=
  let f0_temp := row windows iwin in
  t_temp ← lift (get_row t_windows iwin);
  '(_, f0Mfft) ← invoke c_lombscargle
                   (lombscargle t_temp f0_temp [F64.lit_0_01; f]);
  p ← lift (get f0Mfft 1);
  let f0Mfft := F64.mul F64.two p in
  r ← lift (half_window window_length);
  let index := Z.of_nat iwin + r in
  store 0 f0Msgram index ifreq f0Mfft.

(** Fill pass, lines 179-193: one frequency. *)
Definition f0M_fill_freq (f0 t_yin : list float) (fs_yin : float)
    (window_NT : float) (f_spectra : list float) (f0Msgram : array2)
    (ifreq : nat) : M array2 :=
  f ← lift (get f_spectra ifreq);
  let window_length := window_length_of window_NT f in
  windows ← invoke c_segment_into_windows
              (segment_into_windows f0 (PyFloat fs_yin) window_length
                 shift false);
  t_windows ← invoke c_segment_into_windows
                (segment_into_windows t_yin (PyFloat fs_yin) window_length
                   shift false);
  let n_windows := shape0 windows in
  foldM (f0M_fill_window f window_length windows t_windows ifreq)
    f0Msgram (range n_windows).

(** Sizing pass, lines 166-174. *)
Definition f0M_sizing_pass (f0 : list float) (fs_yin : float)
    (window_NT : float) (modbank_Nmod : Z) (f_spectra : list float)
    : M (list Z) :=
  foldM (f0M_sizing_freq f0 fs_yin window_NT f_spectra) []
    (range (Z.to_nat modbank_Nmod)).

(** Fill pass, lines 177-193. *)
Definition f0M_fill_pass (f0 t_yin : list float) (fs_yin : float)
    (window_NT : float) (modbank_Nmod : Z) (f_spectra : list float)
    (dim : Z) : M array2 :=
  f0Msgram ← lift (np_zeros dim modbank_Nmod);
  foldM (f0M_fill_freq f0 t_yin fs_yin window_NT f_spectra) f0Msgram
    (range (Z.to_nat modbank_Nmod)).

Definition f0M_scalogram (sig : pyobj) (fs : pyscalar) (window_NT : float)
    (mfmin mfmax : float) (modbank_Nmod : Z) (undersample : Z)
    (fmin fmax : float)
    (yin_thresh ap0_thresh max_jump min_duration : float)
    : M (list retval) :=
  _ ← lift (floordiv_check fs (SFopp fmin));
  '(f0, ap0) ← invoke c_mock_yin
                 (mock_yin sig fs fmin fmax yin_thresh undersample);
  f0 ← f0_track fs undersample fmin fmax ap0_thresh max_jump min_duration
         f0 ap0;
  '(f_spectra, f_spectra_intervals) ←
    invoke c_define_modulation_axis
      (define_modulation_axis mfmin mfmax modbank_Nmod);
  fs_yin ← lift (py_truediv fs undersample);
  let t_yin := map (fun k => F64.div k fs_yin) (arange1 (length f0)) in
  dims ← f0M_sizing_pass f0 fs_yin window_NT modbank_Nmod f_spectra;
  dim ← lift (py_max dims);
  f0Msgram ← f0M_fill_pass f0 t_yin fs_yin window_NT modbank_Nmod f_spectra
               dim;
  let f0Msgram := zeros_to_nan f0Msgram in
  mret [Matrix f0Msgram; Vector f_spectra].

End EntryPoints.

(** ** Vocabulary of the statements *)

(** The value the stores of channel [g] leave at cell [(i, c)] of a
    grid with [n] rows that held [acc] there: the last one stored, a
    negative row index counting from the end. *)
Definition stored_from (n g i c : nat) (acc : float) (evs : list event) : float :=
  foldl (fun acc ev =>
           match ev with
           | Store g' r c' v =>
               if (g' =? g)%nat && (c' =? c)%nat
                  && bool_decide (normalize_index n r = Some i)
               then v else acc
           | Invoke _ => acc
           end) acc evs.

(** The estimate of channel [g] at a cell, [0.0] where it stored none. *)
Definition stored (n g i c : nat) (evs : list event) : float :=
  stored_from n g i c F64.zero evs.

(** The sum of the channels' values, in channel order. *)
Definition channel_sum (vals : list float) : float :=
  foldl F64.add F64.zero vals.

(** [x] with a zero replaced by the missing marker. *)
Definition zero_to_nan (x : float) : float :=
  if F64.eqb x F64.zero then F64.nan else x.

(** The accumulation of lines 97-98 at one cell. *)
Definition accumulate (vals : list float) : float :=
  foldl (fun acc v => zero_to_nan (F64.add acc v)) F64.zero vals.

(** The sign bit of [x] is clear, or [x] is not a number. *)
Definition sign_clear (x : float) : Prop :=
  match x with
  | S754_nan => True
  | S754_zero s | S754_infinity s | S754_finite s _ _ => s = false
  end.

(** The offset as the specification words it:
    [round((window_NT / f) / 2 / 0.1)]. *)
Definition half_window_as_claimed (window_NT f : float) : result Z :=
  py_round (F64.div (F64.div (F64.div window_NT f) F64.two) shift).

(** The band-filtered signal at positions [a], [b] of the modulation
    filterbank's output. *)
Definition band (AMfilt : array3) (a b : nat) : list float :=
  map (item3 AMfilt a b) (seq 0 (dim2 AMfilt)).

(** [sqrt(2)] times the RMS of a band-filtered signal. *)
Definition rms_sqrt2 `{C : Collaborators} (x : list float) : float :=
  F64.mul (F64.sqrt (np_mean (map (fun v => F64.mul v v) x)))
    (F64.sqrt F64.two).

Section Vocabulary.
Context `{C : Collaborators}.

(** What the sizing pass of [AMa_scalogram] records for the windows of
    channel [ichan] at frequency [ifreq]. *)
Definition AMa_sized (E : array2) (fs : pyscalar) (window_NT : float)
    (f_spectra : list float) (ichan ifreq : nat) (dims : list Z) : Prop :=
  forall f windows iwin r,
    f_spectra !! ifreq = Some f ->
    segment_into_windows (row E ichan) fs (window_length_of window_NT f)
      shift true = Ok windows ->
    (iwin < shape0 windows)%nat ->
    half_window (window_length_of window_NT f) = Ok r ->
    Z.of_nat iwin + r + 1 ∈ dims.

(** [Store g r c v] is the store of a window of channel [g] at
    frequency [c] in the fill pass of [AMa_scalogram]. *)
Definition AMa_store (E : array2) (fs : pyscalar) (window_NT : float)
    (f_spectra : list float) (Nchan Nmod : nat)
    (g : nat) (r : Z) (c : nat) (v : float) : Prop :=
  exists f windows iwin r0 P p,
    (g < Nchan)%nat /\ (c < Nmod)%nat /\
    f_spectra !! c = Some f /\
    segment_into_windows (row E g) fs (window_length_of window_NT f)
      shift true = Ok windows /\
    (iwin < shape0 windows)%nat /\
    half_window (window_length_of window_NT f) = Ok r0 /\
    r = Z.of_nat iwin + r0 /\
    periodogram (row windows iwin) fs [F64.lit_0_01; f] = Ok P /\
    P !! 1%nat = Some p /\
    v = F64.mul F64.two p.

(** The same for the single grid of [f0M_scalogram]. *)
Definition f0M_store (f0 t_yin : list float) (fs_yin : float)
    (window_NT : float) (f_spectra : list float) (Nmod : nat)
    (g : nat) (r : Z) (c : nat) (v : float) : Prop :=
  exists f windows t_windows iwin r0 freqs P p,
    g = 0%nat /\ (c < Nmod)%nat /\
    f_spectra !! c = Some f /\
    segment_into_windows f0 (PyFloat fs_yin) (window_length_of window_NT f)
      shift false = Ok windows /\
    segment_into_windows t_yin (PyFloat fs_yin) (window_length_of window_NT f)
      shift false = Ok t_windows /\
    (iwin < shape0 windows)%nat /\
    half_window (window_length_of window_NT f) = Ok r0 /\
    r = Z.of_nat iwin + r0 /\
    lombscargle (row t_windows iwin) (row windows iwin) [F64.lit_0_01; f]
      = Ok (freqs, P) /\
    P !! 1%nat = Some p /\
    v = F64.mul F64.two p.

(** What the sizing pass of [f0M_scalogram] records at frequency
    [ifreq]. *)
Definition f0M_sized (f0 : list float) (fs_yin : float) (window_NT : float)
    (f_spectra : list float) (ifreq : nat) (dims : list Z) : Prop :=
  forall f windows iwin r,
    f_spectra !! ifreq = Some f ->
    segment_into_windows f0 (PyFloat fs_yin) (window_length_of window_NT f)
      shift false = Ok windows ->
    (iwin < shape0 windows)%nat ->
    half_window (window_length_of window_NT f) = Ok r ->
    Z.of_nat iwin + r + 1 ∈ dims.

(** Every window of channel [ichan] at frequency [ifreq] has its store
    in the log [evs]. *)
Definition AMa_placed (E : array2) (fs : pyscalar) (window_NT : float)
    (f_spectra : list float) (ichan ifreq : nat) (evs : list event) : Prop :=
  forall f windows iwin,
    f_spectra !! ifreq = Some f ->
    segment_into_windows (row E ichan) fs (window_length_of window_NT f)
      shift true = Ok windows ->
    (iwin < shape0 windows)%nat ->
    exists P p r,
      periodogram (row windows iwin) fs [F64.lit_0_01; f] = Ok P /\
      P !! 1%nat = Some p /\
      half_window (window_length_of window_NT f) = Ok r /\
      Store ichan (Z.of_nat iwin + r) ifreq (F64.mul F64.two p) ∈ evs.

(** Every window of the track at frequency [ifreq] has its store in
    the log [evs]. *)
Definition f0M_placed (f0 t_yin : list float) (fs_yin : float)
    (window_NT : float) (f_spectra : list float) (ifreq : nat)
    (evs : list event) : Prop :=
  forall f windows t_windows iwin,
    f_spectra !! ifreq = Some f ->
    segment_into_windows f0 (PyFloat fs_yin) (window_length_of window_NT f)
      shift false = Ok windows ->
    segment_into_windows t_yin (PyFloat fs_yin) (window_length_of window_NT f)
      shift false = Ok t_windows ->
    (iwin < shape0 windows)%nat ->
    exists freqs P p r,
      lombscargle (row t_windows iwin) (row windows iwin) [F64.lit_0_01; f]
        = Ok (freqs, P) /\
      P !! 1%nat = Some p /\
      half_window (window_length_of window_NT f) = Ok r /\
      Store 0 (Z.of_nat iwin + r) ifreq (F64.mul F64.two p) ∈ evs.

End Vocabulary.

(** A run that turned grid [A0] of channel [g] into [A1], logging [evs]. *)
Definition fills (g : nat) (A0 A1 : array2) (evs : list event) : Prop :=
  shape0 A1 = shape0 A0 /\ shape1 A1 = shape1 A0 /\
  (forall i c, item A1 i c = stored_from (shape0 A0) g i c (item A0 i c) evs) /\
  (forall g' r c v, Store g' r c v ∈ evs -> g' = g).

(** The calls of collaborator [c] in a log, and its stores. *)
Definition is_call (c : collaborator) (ev : event) : bool :=
  match ev, c with
  | Invoke c_auditory_filterbank, c_auditory_filterbank
  | Invoke c_hilbert, c_hilbert
  | Invoke c_aud_filt_bw, c_aud_filt_bw
  | Invoke c_define_modulation_axis, c_define_modulation_axis
  | Invoke c_segment_into_windows, c_segment_into_windows
  | Invoke c_periodogram, c_periodogram
  | Invoke c_lombscargle, c_lombscargle
  | Invoke c_king2019_modfilterbank_updated, c_king2019_modfilterbank_updated
  | Invoke c_mock_yin, c_mock_yin
  | Invoke c_remove_artifacts, c_remove_artifacts
  | Invoke c_interpmean, c_interpmean => true
  | _, _ => false
  end.

Definition is_store (ev : event) : bool :=
  match ev with Store _ _ _ _ => true | Invoke _ => false end.

(** The number of events of a log that satisfy [p]. *)
Definition count (p : event -> bool) (evs : list event) : nat :=
  length (List.filter p evs).

(** ** Test doubles

    Small deterministic collaborators on which the entry points can be
    evaluated.  The filterbank yields two channels, the signal scaled
    by [fmin] and by [fmax] (so [fmin = 0] gives a silent first
    channel); every window holds one sample; the spectral estimators
    report the energy of their input at each query frequency.
    [mod_major] chooses the index order of the modulation filterbank's
    output: [modulation frequency, channel, time] when set, [channel,
    modulation frequency, time] otherwise. *)
Module Toy.

Definition samples (sig : pyobj) : list float :=
  match sig with NdArray a | PyList a => a | Scalar _ => [] end.

Definition energy (x : list float) : float :=
  foldl (fun acc v => F64.add acc (F64.mul v v)) F64.zero x.

Definition filterbank (sig : pyobj) (fs : pyscalar) (fmin fmax : float)
    : result (array2 * list float) :=
  let a := samples sig in
  Ok (mkArray2 2 (length a)
        (fun ch k => F64.mul (if (ch =? 0)%nat then fmin else fmax)
                       (nth k a F64.nan)),
      [fmin; fmax]).

Definition envelope (x : array2) : result array2 :=
  Ok (mkArray2 (shape0 x) (shape1 x) (fun i j => SFabs (item x i j))).

Definition axis (mfmin mfmax : float) (n : Z) : result (list float * list float) :=
  Ok (map (fun k => F64.add mfmin (F64.of_Z (Z.of_nat k))) (seq 0 (Z.to_nat n)),
      map (fun k => F64.add mfmin (F64.of_Z (Z.of_nat k))) (seq 0 (S (Z.to_nat n)))).

Definition windows (x : list float) (fs : pyscalar) (window_length shift : float)
    (pad : bool) : result array2 :=
  Ok (mkArray2 (length x) 1 (fun i _ => nth i x F64.nan)).

Definition power (x : list float) (fs : pyscalar) (q : list float)
    : result (list float) :=
  Ok (map (fun _ => energy x) q).

Definition lomb (t x q : list float) : result (list float * list float) :=
  Ok (q, map (fun _ => energy x) q).

Definition modfilterbank (mod_major : bool) (x : array2) (fs : pyscalar)
    (mfmin mfmax : float) (n : Z) (Q : float) : result (array3 * list float) :=
  let mf := map (fun k => F64.add mfmin (F64.of_Z (Z.of_nat k)))
              (seq 0 (Z.to_nat n)) in
  let nmod := Z.to_nat n in
  let nchan := shape1 x in
  let band (imod ichan k : nat) :=
    F64.mul (F64.of_Z (Z.of_nat (S imod))) (item x k ichan) in
  Ok (if mod_major
      then mkArray3 nmod nchan (shape0 x) (fun i j k => band i j k)
      else mkArray3 nchan nmod (shape0 x) (fun j i k => band i j k),
      mf).

Definition yin (sig : pyobj) (fs : pyscalar) (fmin fmax thresh : float)
    (undersample : Z) : result (list float * list float) :=
  let a := samples sig in
  Ok (a, map (fun _ => F64.zero) a).

Definition clean (f0 : list float) (fs : float) (max_jump min_duration : float)
    (bounds ratios : float * float) (gap : float) : result (list float) :=
  Ok f0.

Definition binned (x y edges : list float) : result (list float) := Ok y.

(** [2 ** x] for an integral [x], missing otherwise. *)
Definition power2 (x : float) : float :=
  match py_round x with
  | Ok n => if F64.eqb (F64.of_Z n) x
            then SFldexp F64.prec F64.emax F64.one n else F64.nan
  | Raise _ => F64.nan
  end.

Definition mean (x : list float) : float :=
  F64.div (foldl F64.add F64.zero x) (F64.of_Z (Z.of_nat (length x))).

Definition collab (mod_major : bool) : Collaborators := {|
  auditory_filterbank := filterbank;
  abs_hilbert := envelope;
  aud_filt_bw := fun fc => Ok fc;
  define_modulation_axis := axis;
  segment_into_windows := windows;
  periodogram := power;
  lombscargle := lomb;
  king2019_modfilterbank_updated := modfilterbank mod_major;
  mock_yin := yin;
  remove_artifacts := clean;
  interpmean := binned;
  np_power2 := power2;
  np_mean := mean
|}.

Definition f (n : Z) : float := F64.of_Z n.

(** A two-sample signal and the runs of the entry points on it. *)
Definition sig : pyobj := NdArray [f 2; f 3].

Definition AMa_spectrum_run (fs : pyscalar) : M (list retval) :=
  AMa_spectrum (C := collab true) sig fs (f 10) (f 10) 1 (f 1) (f 1).

Definition AMa_scalogram_run (fmin : float) : M (list retval) :=
  AMa_scalogram (C := collab true) sig (PyInt 1) (f 7) (f 10) (f 10) 1
    fmin (f 1).

(** The same run on two silent channels: every estimate is [0.0]. *)
Definition AMa_scalogram_silent_run : M (list retval) :=
  AMa_scalogram (C := collab true) sig (PyInt 1) (f 7) (f 10) (f 10) 1
    (f 0) (f 0).

(** The scalograms with a negative number of cycles per window. *)
Definition AMa_scalogram_negative_run : M (list retval) :=
  AMa_scalogram (C := collab true) sig (PyInt 1) (f (-4)) (f 10) (f 10) 1
    (f 1) (f 2).

Definition f0M_scalogram_negative_run : M (list retval) :=
  f0M_scalogram (C := collab true) sig (PyInt 1) (f (-4)) (f 10) (f 10) 1 1
    (f 60) (f 550) F64.lit_0_4 F64.lit_0_4 (f 10) F64.lit_0_4.

Definition AMi_spectrum_run (mod_major : bool) (Nmod : Z) : M (list retval) :=
  AMi_spectrum (C := collab mod_major) sig (PyInt 1) (f 10) (f 10) Nmod (f 1)
    (f 1) (f 2).

(** The envelope and the modulation filterbank's output in
    [AMi_spectrum_run]. *)
Definition E : array2 :=
  mkArray2 2 2
    (fun ch k => SFabs (F64.mul (if (ch =? 0)%nat then f 1 else f 2)
                          (nth k [f 2; f 3] F64.nan))).

Definition AMfilt (mod_major : bool) (Nmod : Z) : array3 :=
  match modfilterbank mod_major (transpose E) (PyInt 1) (f 10) (f 10) Nmod (f 1) with
  | Ok (x, _) => x
  | Raise _ => mkArray3 0 0 0 (fun _ _ _ => F64.nan)
  end.

Definition f0M_spectrum_run (fs : pyscalar) : M (list retval) :=
  f0M_spectrum (C := collab true) sig fs (f 10) (f 10) 1 1 (f 60) (f 550)
    F64.lit_0_4 F64.lit_0_4 (f 10) F64.lit_0_4.

Definition f0M_scalogram_run (fs : pyscalar) : M (list retval) :=
  f0M_scalogram (C := collab true) sig fs (f 7) (f 10) (f 10) 1 1 (f 60)
    (f 550) F64.lit_0_4 F64.lit_0_4 (f 10) F64.lit_0_4.

(** The tuple a run returned, and its first object when that is a
    matrix. *)
Definition tuple (run : M (list retval)) : list retval :=
  match outcome run with Ok tup => tup | Raise _ => [] end.

Definition matrix (run : M (list retval)) : array2 :=
  match tuple run with
  | Matrix a :: _ => a
  | _ => mkArray2 0 0 (fun _ _ => F64.nan)
  end.

Definition rows (a : array2) : list (list float) :=
  map (row a) (seq 0 (shape0 a)).

(** The run returned. *)
Definition returned (run : M (list retval)) : bool :=
  match outcome run with Ok _ => true | Raise _ => false end.

(** Object [k] of a returned tuple, when it is a vector. *)
Definition vector_at (k : nat) (tup : list retval) : list float :=
  match tup !! k with
  | Some (Vector v) => v
  | _ => []
  end.

(** The envelope in the bundle of an [AMa_scalogram] tuple. *)
Definition envelope_of (tup : list retval) : array2 :=
  match tup !! 3%nat with
  | Some (Bundle (P_AMa_scalogram step)) => AMa_scal_E step
  | _ => mkArray2 0 0 (fun _ _ => F64.nan)
  end.

(** The test doubles with a pitch tracker whose aperiodicity has a
    single sample, whatever the length of the track. *)
Definition collab_short_ap0 : Collaborators := {|
  auditory_filterbank := filterbank;
  abs_hilbert := envelope;
  aud_filt_bw := fun fc => Ok fc;
  define_modulation_axis := axis;
  segment_into_windows := windows;
  periodogram := power;
  lombscargle := lomb;
  king2019_modfilterbank_updated := modfilterbank true;
  mock_yin := fun sig fs fmin fmax thresh undersample =>
                Ok (samples sig, [F64.zero]);
  remove_artifacts := clean;
  interpmean := binned;
  np_power2 := power2;
  np_mean := mean
|}.

(** The test doubles with a periodogram that answers with a single
    power, whatever the query. *)
Definition collab_single_power : Collaborators := {|
  auditory_filterbank := filterbank;
  abs_hilbert := envelope;
  aud_filt_bw := fun fc => Ok fc;
  define_modulation_axis := axis;
  segment_into_windows := windows;
  periodogram := fun x fs q => Ok [energy x];
  lombscargle := lomb;
  king2019_modfilterbank_updated := modfilterbank true;
  mock_yin := yin;
  remove_artifacts := clean;
  interpmean := binned;
  np_power2 := power2;
  np_mean := mean
|}.

End Toy.

(** * Properties *)

(** ** Runs *)

Lemma bind_outcome_ok {A B : Type} (m : M A) (k : A -> M B) (b : B) :
  outcome (m ≫= k) = Ok b ->
  exists a, outcome m = Ok a /\ outcome (k a) = Ok b.
Proof.
  unfold mbind, M_bind. destruct (outcome m) as [a|e]; simpl; [|discriminate].
  intros Hb. exists a. split; [reflexivity | exact Hb].
Qed.

Lemma bind_ok {A B : Type} (m : M A) (k : A -> M B) (a : A) :
  outcome m = Ok a ->
  outcome (m ≫= k) = outcome (k a) /\
  events (m ≫= k) = events m ++ events (k a).
Proof.
  unfold mbind, M_bind. intros ->. simpl. split; reflexivity.
Qed.

Lemma bind_raise {A B : Type} (m : M A) (k : A -> M B) (e : exn) :
  outcome m = Raise e ->
  outcome (m ≫= k) = Raise e /\ events (m ≫= k) = events m.
Proof.
  unfold mbind, M_bind. intros ->. simpl. split; reflexivity.
Qed.

Lemma bind_event_in {A B : Type} (m : M A) (k : A -> M B) (ev : event) :
  ev ∈ events (m ≫= k) ->
  ev ∈ events m \/ exists a, outcome m = Ok a /\ ev ∈ events (k a).
Proof.
  destruct (outcome m) as [a|e] eqn:Hm.
  - destruct (bind_ok m k a Hm) as [_ ->]. rewrite elem_of_app.
    intros [H|H]; [left; exact H | right; exists a; split; [reflexivity | exact H]].
  - destruct (bind_raise m k e Hm) as [_ ->]. intros H. left. exact H.
Qed.

Section Validation.
Context `{C : Collaborators}.

(** C8.  [AMa_spectrum] raises before it computes anything or invokes a
    collaborator: a [ValueError] "Invalid input types." whenever [fs] is
    neither an [int] nor a [float] (a string, [None]), whatever the
    signal; and a [ValueError] whenever [fs] is a number with [fs <= 0],
    whose message is "fs must be a positive scalar." once the signal
    is an array (the type check of the signal comes first). *)
Theorem AMa_spectrum_validates_fs (sig : pyobj) (fs : pyscalar)
    (mfmin mfmax : float) (modbank_Nmod : Z) (fmin fmax : float) :
  (is_int_or_float fs = false ->
     AMa_spectrum sig fs mfmin mfmax modbank_Nmod fmin fmax =
     mkM (Raise (ValueError "Invalid input types.")) []) /\
  (is_int_or_float fs = true -> le_zero fs = true ->
     events (AMa_spectrum sig fs mfmin mfmax modbank_Nmod fmin fmax) = [] /\
     exists msg,
       outcome (AMa_spectrum sig fs mfmin mfmax modbank_Nmod fmin fmax) =
       Raise (ValueError msg) /\
       (is_ndarray sig = true -> msg = "fs must be a positive scalar.")).
Proof.
  unfold AMa_spectrum. split.
  - intros ->. rewrite orb_true_r. reflexivity.
  - intros -> ->. destruct (is_ndarray sig); simpl.
    + split; [reflexivity|]. eexists. split; [reflexivity|]. reflexivity.
    + split; [reflexivity|]. eexists. split; [reflexivity|]. discriminate.
Qed.
End Validation.

Lemma invoke_bind_events {A B : Type} (c : collaborator) (r : result A)
    (k : A -> M B) :
  events (invoke c r ≫= k) =
  Invoke c :: match r with Ok a => events (k a) | Raise _ => [] end.
Proof. unfold mbind, M_bind. destruct r; reflexivity. Qed.

Lemma lift_bind_ok {A B : Type} (r : result A) (k : A -> M B) (a : A) :
  r = Ok a -> lift r ≫= k = k a.
Proof. intros ->. unfold mbind, M_bind. simpl. destruct (k a); reflexivity. Qed.

Lemma mret_outcome {A : Type} (a b : A) :
  outcome (mret a : M A) = Ok b -> a = b.
Proof. intros H. injection H. auto. Qed.

(** Inversion of a run that returned. *)
Ltac leaf_inv H :=
  lazymatch type of H with
  | outcome (lift ?r) = Ok ?a => change (r = Ok a) in H
  | outcome (invoke _ ?r) = Ok ?a => change (r = Ok a) in H
  | _ => idtac
  end.

Ltac run_inv H :=
  repeat first
    [ match type of H with
      | outcome (mret _) = Ok _ => apply mret_outcome in H
      | outcome (raise _) = Ok _ => discriminate H
      | outcome (if ?c then _ else _) = Ok _ =>
          let E := fresh "Hif" in destruct c eqn:E
      | outcome (mbind _ _) = Ok _ =>
          let a := fresh "a" in
          let Ha := fresh "Hrun" in
          apply bind_outcome_ok in H; destruct H as (a & Ha & H);
          leaf_inv Ha
      | outcome (let '(_, _) := ?x in _) = Ok _ => destruct x
      | outcome (match ?x with (_, _) => _ end) = Ok _ => destruct x
      end
    | progress (cbv beta zeta in H) ].

Section Tuples.
Context `{C : Collaborators}.

(** C4, as amended.  [AMa_spectrum], [AMa_scalogram] and [AMi_spectrum]
    return a matrix, the channel centre frequencies, the frequency axis
    and a diagnostics bundle; [f0M_spectrum] returns its spectrum, the
    axis and a bundle; [f0M_scalogram] returns the scalogram and the
    axis only, with no bundle. *)
Theorem only_f0M_scalogram_returns_no_bundle :
  (forall sig fs mfmin mfmax Nmod fmin fmax tup,
     outcome (AMa_spectrum sig fs mfmin mfmax Nmod fmin fmax) = Ok tup ->
     exists A fc f step,
       tup = [Matrix A; Vector fc; Vector f; Bundle (P_AMa_spec step)]) /\
  (forall sig fs window_NT mfmin mfmax Nmod fmin fmax tup,
     outcome (AMa_scalogram sig fs window_NT mfmin mfmax Nmod fmin fmax) = Ok tup ->
     exists A fc f step,
       tup = [Matrix A; Vector fc; Vector f; Bundle (P_AMa_scalogram step)]) /\
  (forall sig fs mfmin mfmax Nmod Q fmin fmax tup,
     outcome (AMi_spectrum sig fs mfmin mfmax Nmod Q fmin fmax) = Ok tup ->
     exists A fc f step,
       tup = [Matrix A; Vector fc; Vector f; Bundle (P_AMi_spec step)]) /\
  (forall sig fs mfmin mfmax Nmod undersample fmin fmax yin_thresh ap0_thresh
          max_jump min_duration tup,
     outcome (f0M_spectrum sig fs mfmin mfmax Nmod undersample fmin fmax
                yin_thresh ap0_thresh max_jump min_duration) = Ok tup ->
     exists s f step, tup = [Vector s; Vector f; Bundle (P_f0M_spec step)]) /\
  (forall sig fs window_NT mfmin mfmax Nmod undersample fmin fmax yin_thresh
          ap0_thresh max_jump min_duration tup,
     outcome (f0M_scalogram sig fs window_NT mfmin mfmax Nmod undersample
                fmin fmax yin_thresh ap0_thresh max_jump min_duration) = Ok tup ->
     exists A f, tup = [Matrix A; Vector f] /\ existsb is_bundle tup = false).
Proof.
  repeat split; intros.
  - unfold AMa_spectrum in H. run_inv H. subst tup. eauto.
  - unfold AMa_scalogram in H. run_inv H. subst tup. eauto.
  - unfold AMi_spectrum in H. run_inv H. subst tup. eauto.
  - unfold f0M_spectrum in H. run_inv H. subst tup. eauto.
  - unfold f0M_scalogram in H. run_inv H. subst tup. eauto.
Qed.
End Tuples.

Section MissingValidation.
Context `{C : Collaborators}.

Lemma AM_entry_points_validate (sig : pyobj) (fs : pyscalar) :
  is_ndarray sig = false \/ is_int_or_float fs = false \/ le_zero fs = true ->
  exists msg,
    (forall mfmin mfmax Nmod fmin fmax,
       AMa_spectrum sig fs mfmin mfmax Nmod fmin fmax =
       mkM (Raise (ValueError msg)) []) /\
    (forall window_NT mfmin mfmax Nmod fmin fmax,
       AMa_scalogram sig fs window_NT mfmin mfmax Nmod fmin fmax =
       mkM (Raise (ValueError msg)) []) /\
    (forall mfmin mfmax Nmod Q fmin fmax,
       AMi_spectrum sig fs mfmin mfmax Nmod Q fmin fmax =
       mkM (Raise (ValueError msg)) []).
Proof.
  unfold AMa_spectrum, AMa_scalogram, AMi_spectrum.
  intros H.
  destruct (negb (is_ndarray sig) || negb (is_int_or_float fs)) eqn:Hty.
  - eexists. repeat split; reflexivity.
  - destruct (le_zero fs) eqn:Hle.
    + eexists. repeat split; reflexivity.
    + apply orb_false_elim in Hty as [H1 H2].
      apply negb_false_iff in H1, H2.
      destruct H as [H|[H|H]]; congruence.
Qed.

(** C2, at the failing inputs.  For every signal, array or not, and every
    numeric sample rate, positive or not, [f0M_spectrum] and
    [f0M_scalogram] raise nothing before they invoke the pitch tracker:
    the first event of their log is the call of [mock_yin] (the floor
    division of line 127 raises only for a non-numeric [fs] or for
    [fmin = 0]). *)
Theorem f0M_entry_points_skip_validation (sig : pyobj) (fs : pyscalar)
    (window_NT mfmin mfmax : float) (modbank_Nmod undersample : Z)
    (fmin fmax yin_thresh ap0_thresh max_jump min_duration : float) :
  is_int_or_float fs = true ->
  F64.eqb (SFopp fmin) F64.zero = false ->
  (exists evs,
     events (f0M_spectrum sig fs mfmin mfmax modbank_Nmod undersample fmin
               fmax yin_thresh ap0_thresh max_jump min_duration)
     = Invoke c_mock_yin :: evs) /\
  (exists evs,
     events (f0M_scalogram sig fs window_NT mfmin mfmax modbank_Nmod
               undersample fmin fmax yin_thresh ap0_thresh max_jump
               min_duration)
     = Invoke c_mock_yin :: evs).
Proof.
  intros Hnum Hfmin.
  assert (Hw : floordiv_check fs (SFopp fmin) = Ok tt).
  { unfold floordiv_check. rewrite Hfmin. destruct fs; try discriminate Hnum; reflexivity. }
  unfold f0M_spectrum, f0M_scalogram.
  rewrite !(lift_bind_ok _ _ tt Hw), !invoke_bind_events.
  split; eexists; reflexivity.
Qed.
End MissingValidation.

(** ** The pitch pipeline *)

Lemma select_length (x y : list float) (mask : list bool) :
  length x = length y -> length (select x mask) = length (select y mask).
Proof.
  revert y mask. induction x as [|v x IH]; intros [|w y] [|b mask] Hlen;
    simpl in *; try reflexivity; try discriminate Hlen.
  injection Hlen as Hlen. destruct b; simpl; rewrite (IH y mask Hlen); reflexivity.
Qed.

Lemma select_zip (f0 ts : list float) :
  length ts = length f0 ->
  zip (select f0 (not_nan f0)) (select ts (not_nan f0)) =
  filter (fun p => F64.isnan p.1 = false) (zip f0 ts).
Proof.
  revert ts. induction f0 as [|v f0 IH]; intros [|s ts] Hlen;
    simpl in *; try reflexivity; try discriminate Hlen.
  injection Hlen as Hlen. rewrite filter_cons. cbn [fst].
  destruct (decide (F64.isnan v = false)) as [Hv|Hv].
  - rewrite Hv. simpl. f_equal. apply IH, Hlen.
  - apply not_false_is_true in Hv. rewrite Hv. simpl. apply IH, Hlen.
Qed.

Lemma zip_take_r (x y : list float) :
  zip x (take (length x) y) = zip x y.
Proof.
  revert y. induction x as [|v x IH]; intros [|w y]; simpl; try reflexivity.
  f_equal. apply IH.
Qed.

Lemma slice_step_pos (x : list float) (step : Z) :
  0 < step ->
  let k := Z.to_nat step in
  exists sub,
    slice_step x step = Ok sub /\
    length sub = ((length x + k - 1) / k)%nat /\
    forall j, (j < length sub)%nat -> sub !! j = x !! (j * k)%nat.
Proof.
  intros Hpos k. unfold slice_step.
  destruct (step =? 0) eqn:H0; [lia|].
  destruct (0 <? step) eqn:Hp; [|lia].
  replace (Z.abs_nat step) with k by (unfold k; lia).
  eexists. split; [reflexivity|].
  rewrite length_map, length_seq. split; [reflexivity|].
  intros j Hj. rewrite list_lookup_fmap, lookup_seq_lt by exact Hj. simpl.
  assert (Hk : (0 < k)%nat) by (unfold k; lia).
  assert (Hin : (j * k < length x)%nat).
  { assert (H1 : (S j <= (length x + k - 1) / k)%nat) by lia.
    assert (H2 : (k * S j <= k * ((length x + k - 1) / k))%nat) by (apply Nat.mul_le_mono_l; exact H1).
    pose proof (Nat.Div0.mul_div_le (length x + k - 1) k) as H3. nia. }
  destruct (lookup_lt_is_Some_2 x (j * k)%nat Hin) as [v Hv].
  rewrite Hv. f_equal. apply nth_lookup_Some with (d := F64.nan) in Hv. exact Hv.
Qed.

Section PitchPipeline.
Context `{C : Collaborators}.

(** C10.  When the signal has [n] samples, the step [undersample] is
    positive and the track [f0] is no longer than the undersampled time
    axis, whose length is [ceil(n / undersample)] and whose item [k] is
    [t[k * undersample]], lines 133-138 succeed, [f0_wo_nan] and
    [t_wo_nan] have the same length, and zipping them gives exactly
    the pairs (sample, time stamp) of the track whose sample is not
    NaN, in order. *)
Theorem drop_missing_pairs (sig : pyobj) (fs : pyscalar) (undersample : Z)
    (f0 : list float) (n : nat) (t : list float) :
  py_len sig = Ok n ->
  div_by_scalar (arange1 n) fs = Ok t ->
  0 < undersample ->
  (length f0 <= (n + Z.to_nat undersample - 1) / Z.to_nat undersample)%nat ->
  exists sub f0_wo_nan t_wo_nan,
    slice_step t undersample = Ok sub /\
    length sub = ((n + Z.to_nat undersample - 1) / Z.to_nat undersample)%nat /\
    (forall k, (k < length sub)%nat -> sub !! k = t !! (k * Z.to_nat undersample)%nat) /\
    drop_missing sig fs undersample f0 = Ok (f0_wo_nan, t_wo_nan) /\
    length f0_wo_nan = length t_wo_nan /\
    zip f0_wo_nan t_wo_nan =
      filter (fun p => F64.isnan p.1 = false) (zip f0 sub).
Proof.
  intros Hn Ht Hpos Hlen.
  assert (Hlt : length t = n).
  { unfold div_by_scalar in Ht. destruct (to_float fs); [|discriminate Ht].
    injection Ht as <-. unfold arange1. rewrite !length_map, length_seq. reflexivity. }
  destruct (slice_step_pos t undersample Hpos) as (sub & Hsub & Hsl & Hsi).
  rewrite Hlt in Hsl.
  assert (Htk : length (take (length f0) sub) = length f0).
  { rewrite length_take. lia. }
  exists sub, (select f0 (not_nan f0)),
    (select (take (length f0) sub) (not_nan f0)).
  split; [exact Hsub|]. split; [exact Hsl|]. split; [exact Hsi|].
  split.
  - unfold drop_missing. rewrite Hn, Ht, Hsub. unfold mask_select.
    assert (Hm : length (not_nan f0) = length (take (length f0) sub)).
    { unfold not_nan. rewrite length_map. symmetry. exact Htk. }
    rewrite Hm, Nat.eqb_refl. reflexivity.
  - split.
    + apply select_length. symmetry. exact Htk.
    + rewrite select_zip by exact Htk. rewrite zip_take_r. reflexivity.
Qed.
End PitchPipeline.

Lemma mask_assign_nan_ok (x : list float) (mask : list bool) (y : list float) :
  mask_assign_nan x mask = Ok y ->
  length mask = length x /\
  y = zip_with (fun v (b : bool) => if b then F64.nan else v) x mask.
Proof.
  unfold mask_assign_nan. destruct (length mask =? length x)%nat eqn:E;
    [|discriminate].
  intros H. injection H as <-. apply Nat.eqb_eq in E. split; [exact E|reflexivity].
Qed.

Lemma drop_missing_ok (sig : pyobj) (fs : pyscalar)
    (undersample : Z) (f0 f0_wo_nan t_wo_nan : list float) :
  drop_missing sig fs undersample f0 = Ok (f0_wo_nan, t_wo_nan) ->
  exists n t sub,
    py_len sig = Ok n /\
    div_by_scalar (arange1 n) fs = Ok t /\
    slice_step t undersample = Ok sub /\
    f0_wo_nan = select f0 (not_nan f0) /\
    t_wo_nan = select (take (length f0) sub) (not_nan f0).
Proof.
  unfold drop_missing.
  destruct (py_len sig) as [n|]; [|discriminate].
  destruct (div_by_scalar (arange1 n) fs) as [t|] eqn:Ht; [|discriminate].
  destruct (slice_step t undersample) as [sub|] eqn:Hsub; [|discriminate].
  unfold mask_select.
  destruct (length (not_nan f0) =? length (take (length f0) sub))%nat;
    [|discriminate].
  intros H. injection H as <- <-. exists n, t, sub.
  repeat split; try reflexivity; assumption.
Qed.

Section Spectrum_f0M.
Context `{C : Collaborators}.

(** C5.  A run of [f0M_spectrum] that returns went through these steps:
    the pitch tracker gave [track] and [ap0]; the track became
    [440 * 2 ** track]; the samples with [ap0 > ap0_thresh] became NaN;
    [remove_artifacts] cleaned the result into [f0]; the NaN samples
    and the time stamps paired with them were dropped; [lombscargle]
    of the remaining samples against their times was evaluated at
    [f_spectra]; its power was multiplied by 2; and [interpmean]
    averaged it over the bins of [f_spectra_intervals], which is the
    spectrum returned. *)
Theorem f0M_spectrum_steps (sig : pyobj) (fs : pyscalar) (mfmin mfmax : float)
    (modbank_Nmod undersample : Z)
    (fmin fmax yin_thresh ap0_thresh max_jump min_duration : float)
    (tup : list retval) :
  outcome (f0M_spectrum sig fs mfmin mfmax modbank_Nmod undersample fmin fmax
             yin_thresh ap0_thresh max_jump min_duration) = Ok tup ->
  exists track ap0 fs_track f0 n t sub f_spectra f_spectra_intervals freqs
         power binned step,
    mock_yin sig fs fmin fmax yin_thresh undersample = Ok (track, ap0) /\
    length ap0 = length track /\
    py_truediv fs undersample = Ok fs_track /\
    remove_artifacts
      (zip_with (fun v (b : bool) => if b then F64.nan else v)
         (map (fun x => F64.mul F64.lit_440 (np_power2 x)) track)
         (map (fun a => F64.ltb ap0_thresh a) ap0))
      fs_track max_jump min_duration (fmin, fmax)
      (F64.lit_0_4, F64.lit_2_5) F64.lit_1500 = Ok f0 /\
    py_len sig = Ok n /\
    div_by_scalar (arange1 n) fs = Ok t /\
    slice_step t undersample = Ok sub /\
    define_modulation_axis mfmin mfmax modbank_Nmod =
      Ok (f_spectra, f_spectra_intervals) /\
    lombscargle (select (take (length f0) sub) (not_nan f0))
      (select f0 (not_nan f0)) f_spectra = Ok (freqs, power) /\
    interpmean f_spectra (map (fun p => F64.mul p F64.two) power)
      f_spectra_intervals = Ok binned /\
    tup = [Vector binned; Vector f_spectra; Bundle (P_f0M_spec step)] /\
    f0M_spec_f0 step = f0.
Proof.
  intros H. unfold f0M_spectrum in H. run_inv H. subst tup.
  match goal with
  | Hd : drop_missing _ _ _ _ = Ok _ |- _ =>
      apply drop_missing_ok in Hd as (n & t & sub & Hn & Ht & Hsub & -> & ->)
  end.
  match goal with
  | Ht : outcome (f0_track _ _ _ _ _ _ _ _ _) = Ok _ |- _ =>
      unfold f0_track in Ht; run_inv Ht; leaf_inv Ht
  end.
  match goal with
  | Hm : mask_assign_nan _ _ = Ok _ |- _ =>
      apply mask_assign_nan_ok in Hm as [Hlen ->]
  end.
  rewrite !length_map in Hlen.
  match goal with
  | H1 : py_truediv fs undersample = Ok ?x,
    H2 : py_truediv fs undersample = Ok ?y |- _ =>
      rewrite H1 in H2; injection H2 as <-
  end.
  do 13 eexists. split_and!; try eassumption; reflexivity.
Qed.
End Spectrum_f0M.

(** ** Loops *)

Lemma foldM_inv {A S : Type} (body : S -> A -> M S) (l0 : list A)
    (I : list A -> S -> list event -> Prop) :
  (forall done a rest s evs s',
     l0 = done ++ a :: rest -> I done s evs ->
     outcome (body s a) = Ok s' ->
     I (done ++ [a]) s' (evs ++ events (body s a))) ->
  forall s sf,
    I [] s [] -> outcome (foldM body s l0) = Ok sf ->
    I l0 sf (events (foldM body s l0)).
Proof.
  intros Hstep.
  assert (Hgen : forall l done s evs sf,
             l0 = done ++ l -> I done s evs ->
             outcome (foldM body s l) = Ok sf ->
             I (done ++ l) sf (evs ++ events (foldM body s l))).
  { induction l as [|a l IH]; intros done s evs sf Hl HI Hrun.
    - simpl in *. injection Hrun as <-. rewrite !app_nil_r. exact HI.
    - simpl in Hrun. apply bind_outcome_ok in Hrun as (s' & Hs' & Hrun).
      simpl. destruct (bind_ok (body s a) (fun s' => foldM body s' l) s' Hs')
        as [_ ->].
      rewrite app_assoc.
      replace (done ++ a :: l) with ((done ++ [a]) ++ l)
        by (rewrite <- app_assoc; reflexivity).
      apply IH; [rewrite <- app_assoc; exact Hl | | exact Hrun].
      eapply Hstep; eauto. }
  intros s sf HI Hrun. apply (Hgen l0 [] s [] sf eq_refl HI Hrun).
Qed.

Lemma foldM_event_in {A S : Type} (body : S -> A -> M S) (l : list A) (s : S)
    (ev : event) :
  ev ∈ events (foldM body s l) ->
  exists s' a, a ∈ l /\ ev ∈ events (body s' a).
Proof.
  revert s. induction l as [|a l IH]; intros s Hev; simpl in Hev.
  - apply elem_of_nil in Hev. contradiction.
  - apply bind_event_in in Hev as [Hev|(s' & _ & Hev)].
    + exists s, a. split; [left | exact Hev].
    + destruct (IH s' Hev) as (s'' & b & Hb & Hev').
      exists s'', b. split; [right; exact Hb | exact Hev'].
Qed.

Lemma range_middle (n : nat) (done : list nat) (a : nat) (rest : list nat) :
  range n = done ++ a :: rest ->
  a = length done /\ done = range a /\ (a < n)%nat.
Proof.
  unfold range. intros H.
  assert (Ha : seq 0 n !! length done = Some a).
  { rewrite H. rewrite lookup_app_r by lia. rewrite Nat.sub_diag. reflexivity. }
  apply lookup_seq in Ha as [Ha Hn]. simpl in Ha. subst a.
  split; [reflexivity|]. split; [|exact Hn].
  assert (Ht : take (length done) (seq 0 n) = done).
  { rewrite H. rewrite take_app_length. reflexivity. }
  rewrite take_seq in Ht. rewrite Nat.min_l in Ht by lia. symmetry. exact Ht.
Qed.

Lemma range_elem (n a : nat) : a ∈ range n <-> (a < n)%nat.
Proof. unfold range. rewrite elem_of_seq. lia. Qed.

Lemma map_nth_range (l : list float) (d : float) :
  map (fun i => nth i l d) (seq 0 (length l)) = l.
Proof.
  apply list_eq. intros i. rewrite list_lookup_fmap.
  destruct (decide (i < length l)%nat) as [Hi|Hi].
  - rewrite lookup_seq_lt by exact Hi. simpl.
    destruct (lookup_lt_is_Some_2 l i Hi) as [v Hv]. rewrite Hv.
    f_equal. apply nth_lookup_Some with (d := d) in Hv. exact Hv.
  - rewrite lookup_seq_ge by lia. rewrite lookup_ge_None_2 by lia. reflexivity.
Qed.

(** ** AMa_spectrum *)

Lemma np_zeros_ok (r c : Z) (a : array2) :
  np_zeros r c = Ok a ->
  0 <= r /\ 0 <= c /\
  shape0 a = Z.to_nat r /\ shape1 a = Z.to_nat c /\
  forall i j, item a i j = F64.zero.
Proof.
  unfold np_zeros. destruct ((r <? 0) || (c <? 0)) eqn:E; [discriminate|].
  intros H. injection H as <-. apply orb_false_elim in E as [E1 E2].
  simpl. repeat split; lia.
Qed.

Lemma set_column_ok (a : array2) (j : nat) (v : list float) (a' : array2) :
  set_column a j v = Ok a' ->
  shape0 a' = shape0 a /\ shape1 a' = shape1 a /\
  (forall i k, k <> j -> item a' i k = item a i k) /\
  (length v = shape0 a -> forall i, item a' i j = nth i v F64.nan).
Proof.
  unfold set_column.
  destruct (length v =? shape0 a)%nat eqn:E.
  - intros H. injection H as <-. simpl. split_and!; try reflexivity.
    + intros i k Hk. apply Nat.eqb_neq in Hk. rewrite Hk. reflexivity.
    + intros _ i. rewrite Nat.eqb_refl. reflexivity.
  - destruct (length v =? 1)%nat; [|discriminate].
    intros H. injection H as <-. simpl. split_and!; try reflexivity.
    + intros i k Hk. apply Nat.eqb_neq in Hk. rewrite Hk. reflexivity.
    + intros Hlen. apply Nat.eqb_neq in E. contradiction.
Qed.

Section Spectrum_AMa.
Context `{C : Collaborators}.

(** C6.  In a run of [AMa_spectrum] that returns, the matrix has one row
    per frequency of [f_spectra] and one column per channel, and column
    [ichan] is 2 times the periodogram of the envelope row [E[ichan, :]]
    at the frequencies [f_spectra] (the periodogram returning one power
    per query frequency), where [E] is the magnitude of the analytic
    signal of the filterbank's output. *)
Theorem AMa_spectrum_columns (sig : pyobj) (fs : pyscalar)
    (mfmin mfmax : float) (modbank_Nmod : Z) (fmin fmax : float)
    (tup : list retval) :
  outcome (AMa_spectrum sig fs mfmin mfmax modbank_Nmod fmin fmax) = Ok tup ->
  exists gamma_responses fc E f_spectra f_spectra_intervals AMspec step,
    auditory_filterbank sig fs fmin fmax = Ok (gamma_responses, fc) /\
    abs_hilbert gamma_responses = Ok E /\
    define_modulation_axis mfmin mfmax modbank_Nmod =
      Ok (f_spectra, f_spectra_intervals) /\
    tup = [Matrix AMspec; Vector fc; Vector f_spectra;
           Bundle (P_AMa_spec step)] /\
    shape0 AMspec = length f_spectra /\
    shape1 AMspec = length fc /\
    forall ichan, (ichan < length fc)%nat ->
      exists Pxx,
        periodogram (row E ichan) fs f_spectra = Ok Pxx /\
        (length Pxx = length f_spectra ->
         column AMspec ichan = map (F64.mul F64.two) Pxx).
Proof.
  intros H. unfold AMa_spectrum in H. run_inv H. subst tup.
  match goal with
  | Hz : np_zeros _ _ = Ok ?z |- _ =>
      apply np_zeros_ok in Hz as (_ & _ & Hz0 & Hz1 & _);
      rewrite Nat2Z.id in Hz0, Hz1
  end.
  match goal with
  | Hl : outcome (foldM _ ?z _) = Ok ?A |- _ =>
      rename Hl into Hloop; rename z into AMspec0; rename A into AMspec
  end.
  match goal with
  | Hh : abs_hilbert _ = Ok ?e |- _ => rename e into E
  end.
  match goal with
  | Hd : define_modulation_axis _ _ _ = Ok (?f, _) |- _ => rename f into f_spectra
  end.
  match goal with
  | Hd : auditory_filterbank _ _ _ _ = Ok (_, ?f) |- _ => rename f into fc
  end.
  pose (I := fun (done : list nat) (A : array2) (_ : list event) =>
    shape0 A = shape0 AMspec0 /\ shape1 A = shape1 AMspec0 /\
    forall ichan, ichan ∈ done ->
      exists Pxx,
        periodogram (row E ichan) fs f_spectra = Ok Pxx /\
        (length Pxx = shape0 AMspec0 ->
         forall i, item A i ichan = nth i (map (F64.mul F64.two) Pxx) F64.nan)).
  assert (HI : I (range (length fc)) AMspec
                 (events (foldM (AMa_spectrum_channel E fs f_spectra)
                            AMspec0 (range (length fc))))).
  { apply (foldM_inv _ _ I); [|split_and!; [reflexivity..|]|exact Hloop].
    - intros done ich rest s evs s' Hl (Hs0 & Hs1 & Hcols) Hbody.
      apply range_middle in Hl as (Hich & Hdone & _).
      unfold AMa_spectrum_channel in Hbody. run_inv Hbody. leaf_inv Hbody.
      apply set_column_ok in Hbody as (Hc0 & Hc1 & Hother & Hthis).
      split_and!; [congruence..|].
      intros ichan Hin. apply elem_of_app in Hin as [Hin|Hin].
      + destruct (Hcols ichan Hin) as (Pxx & HP & Hitem).
        exists Pxx. split; [exact HP|]. intros Hlen i.
        rewrite Hother; [apply Hitem, Hlen|].
        rewrite Hdone in Hin. apply range_elem in Hin. lia.
      + apply list_elem_of_singleton in Hin. subst ichan.
        match goal with
        | Hr : get_row E _ = Ok ?x |- _ =>
            unfold get_row in Hr; destruct (_ <? _)%nat; [|discriminate Hr];
            injection Hr as <-
        end.
        eexists. split; [eassumption|]. intros Hlen i.
        apply Hthis. rewrite length_map. congruence.
    - intros ichan Hin. apply elem_of_nil in Hin. contradiction. }
  destruct HI as (HA0 & HA1 & Hcols).
  do 5 eexists. exists AMspec. eexists.
  split_and!; try eassumption; try reflexivity; try congruence.
  intros ichan Hich. apply range_elem in Hich.
  destruct (Hcols ichan Hich) as (Pxx & HP & Hitem).
  exists Pxx. split; [exact HP|]. intros Hlen.
  unfold column. rewrite HA0, Hz0, <- Hlen.
  transitivity (map (fun i => nth i (map (F64.mul F64.two) Pxx) F64.nan)
                  (seq 0 (length (map (F64.mul F64.two) Pxx)))).
  - rewrite length_map. apply map_ext. intros i. apply Hitem. congruence.
  - apply map_nth_range.
Qed.
End Spectrum_AMa.

(** ** AMi_spectrum *)

Lemma broadcast_index (n i : nat) :
  (i < n)%nat -> (if (n =? 1)%nat then 0%nat else i) = i.
Proof. intros Hi. destruct (n =? 1)%nat eqn:E; [apply Nat.eqb_eq in E; lia | reflexivity]. Qed.

Lemma broadcast_dim_same (n : nat) : broadcast_dim n n = Some n.
Proof. unfold broadcast_dim. rewrite Nat.eqb_refl. reflexivity. Qed.

Lemma broadcast_div_ok (a b q : array2) :
  broadcast_div a b = Ok q ->
  broadcast_dim (shape0 a) (shape0 b) = Some (shape0 q) /\
  broadcast_dim (shape1 a) (shape1 b) = Some (shape1 q) /\
  forall i j,
    item q i j =
    F64.div
      (item a (if (shape0 a =? 1)%nat then 0%nat else i)
              (if (shape1 a =? 1)%nat then 0%nat else j))
      (item b (if (shape0 b =? 1)%nat then 0%nat else i)
              (if (shape1 b =? 1)%nat then 0%nat else j)).
Proof.
  unfold broadcast_div.
  destruct (broadcast_dim (shape0 a) (shape0 b)) as [r|]; [|discriminate].
  destruct (broadcast_dim (shape1 a) (shape1 b)) as [c|]; [|discriminate].
  intros H. injection H as <-. simpl. split_and!; reflexivity.
Qed.

Section Spectrum_AMi.
Context `{C : Collaborators}.

(** C3, as amended.  In a run of [AMi_spectrum] that returns, the matrix
    is [AMrms.T] divided, with numpy's broadcasting, by the matrix with
    one row per channel that repeats [DC[j] * 1.0] along row [j].  When
    the modulation filterbank indexes its output [modulation frequency,
    channel, time], the matrix is Nchan-by-Nmod and its entry at
    (channel [j], modulation frequency [i]) is [sqrt(2)] times the RMS
    over time of the band-filtered signal of channel [j] at frequency
    [i], divided by the time mean of the envelope of channel [j]. *)
Theorem AMi_spectrum_entries (sig : pyobj) (fs : pyscalar)
    (mfmin mfmax : float) (modbank_Nmod : Z) (modbank_Qfactor : float)
    (fmin fmax : float) (tup : list retval) :
  outcome (AMi_spectrum sig fs mfmin mfmax modbank_Nmod modbank_Qfactor
             fmin fmax) = Ok tup ->
  exists gamma_responses fc E AMfilt mf AMIspec step,
    auditory_filterbank sig fs fmin fmax = Ok (gamma_responses, fc) /\
    abs_hilbert gamma_responses = Ok E /\
    king2019_modfilterbank_updated (transpose E) fs mfmin mfmax
      modbank_Nmod modbank_Qfactor = Ok (AMfilt, mf) /\
    tup = [Matrix AMIspec; Vector fc; Vector mf; Bundle (P_AMi_spec step)] /\
    broadcast_dim (dim1 AMfilt) (shape0 E) = Some (shape0 AMIspec) /\
    broadcast_dim (dim0 AMfilt) (length mf) = Some (shape1 AMIspec) /\
    (dim0 AMfilt = length mf -> dim1 AMfilt = shape0 E ->
     shape0 AMIspec = shape0 E /\
     shape1 AMIspec = length mf /\
     forall j i, (j < shape0 E)%nat -> (i < length mf)%nat ->
       item AMIspec j i =
       F64.div (rms_sqrt2 (band AMfilt i j))
         (F64.mul (np_mean (row E j)) F64.one)).
Proof.
  intros H. unfold AMi_spectrum in H. run_inv H. leaf_inv H. subst tup.
  match goal with
  | Hb : broadcast_div _ _ = Ok ?q |- _ =>
      apply broadcast_div_ok in Hb as (Hb0 & Hb1 & Hitem); simpl in Hb0, Hb1;
      rename q into AMIspec
  end.
  match goal with
  | Hh : abs_hilbert _ = Ok ?e |- _ => rename e into E
  end.
  match goal with
  | Hk : king2019_modfilterbank_updated _ _ _ _ _ _ = Ok (?x, ?y) |- _ =>
      rename x into AMfilt; rename y into mf
  end.
  unfold mean_axis0 in Hb0. rewrite length_map, length_seq in Hb0.
  simpl in Hb0.
  do 5 eexists. exists AMIspec. eexists.
  split_and!; try eassumption; try reflexivity.
  intros Hd0 Hd1. rewrite Hd1, broadcast_dim_same in Hb0.
  rewrite Hd0, broadcast_dim_same in Hb1.
  injection Hb0 as Hb0. injection Hb1 as Hb1.
  split_and!; [congruence..|].
  intros j i Hj Hi. rewrite Hitem.
  unfold transpose, AMrms_of, DC_matrix, mean_axis0.
  cbn [item shape0 shape1].
  rewrite length_map, length_seq. cbn [shape1 shape0].
  rewrite Hd1, Hd0.
  rewrite !(broadcast_index _ j Hj), !(broadcast_index _ i Hi).
  unfold rms_sqrt2, band. rewrite map_map.
  f_equal. f_equal.
  apply nth_lookup_Some.
  rewrite list_lookup_fmap, lookup_seq_lt by exact Hj. reflexivity.
Qed.
End Spectrum_AMi.


(** ** Signs *)

Lemma binary_round_aux_sign_clear (m e : Z) (l : location) :
  sign_clear (binary_round_aux F64.prec F64.emax false m e l).
Proof.
  unfold binary_round_aux.
  destruct (shr_fexp F64.prec F64.emax m e l) as [mrs e'].
  destruct (shr_fexp F64.prec F64.emax _ e' loc_Exact) as [mrs' e''].
  destruct (shr_m mrs'); simpl; auto.
  destruct (e'' <=? F64.emax - F64.prec); simpl; auto.
Qed.

Lemma mul_sign_clear (x y : float) :
  sign_clear x -> sign_clear y -> sign_clear (F64.mul x y).
Proof.
  destruct x as [sx|sx| |sx mx ex], y as [sy|sy| |sy my ey]; simpl;
    intros Hx Hy; subst; simpl; auto.
  apply binary_round_aux_sign_clear.
Qed.

Lemma div_sign_clear (x y : float) :
  sign_clear x -> sign_clear y -> sign_clear (F64.div x y).
Proof.
  destruct x as [sx|sx| |sx mx ex], y as [sy|sy| |sy my ey]; simpl;
    intros Hx Hy; subst; simpl; auto.
  destruct (SFdiv_core_binary F64.prec F64.emax (Z.pos mx) ex (Z.pos my) ey)
    as [[mz ez] lz].
  apply binary_round_aux_sign_clear.
Qed.

Lemma py_round_sign_clear (x : float) (r : Z) :
  sign_clear x -> py_round x = Ok r -> 0 <= r.
Proof.
  destruct x as [s|s| |s m e]; simpl; intros Hs H; try discriminate H.
  - injection H as <-. lia.
  - subst s. injection H as <-.
    destruct (0 <=? e) eqn:He.
    + apply Z.mul_nonneg_nonneg; [lia|]. apply Z.pow_nonneg. lia.
    + assert (Hd : 0 < 2 ^ (- e)) by (apply Z.pow_pos_nonneg; lia).
      assert (Hq : 0 <= Z.pos m / 2 ^ (- e)) by (apply Z.div_pos; lia).
      destruct (2 * (Z.pos m mod 2 ^ (- e)) ?= 2 ^ (- e)); [|lia|lia].
      destruct (Z.even _); lia.
Qed.

Lemma half_window_nonneg (window_NT f : float) (r : Z) :
  sign_clear window_NT -> sign_clear f ->
  half_window (window_length_of window_NT f) = Ok r -> 0 <= r.
Proof.
  intros HN Hf. unfold half_window, window_length_of.
  apply py_round_sign_clear.
  repeat first [apply div_sign_clear | apply mul_sign_clear];
    try assumption; reflexivity.
Qed.

(** ** Membership of an event in a run's log *)

Ltac ev_inv H :=
  repeat first
    [ match type of H with
      | _ ∈ events (lift _) => apply elem_of_nil in H; contradiction
      | _ ∈ events (mret _) => apply elem_of_nil in H; contradiction
      | _ ∈ events (raise _) => apply elem_of_nil in H; contradiction
      | _ ∈ events (invoke _ _) =>
          apply list_elem_of_singleton in H; discriminate H
      | _ ∈ events (store _ _ _ _ _) =>
          apply list_elem_of_singleton in H; injection H as -> -> -> ->
      | _ ∈ events (mbind _ _) =>
          let a := fresh "a" in
          let Ha := fresh "Hrun" in
          apply bind_event_in in H; destruct H as [H | (a & Ha & H)];
          [|leaf_inv Ha]
      | _ ∈ events (let '(_, _) := ?x in _) => destruct x
      | _ ∈ events (match ?x with (_, _) => _ end) => destruct x
      end
    | progress (cbv beta zeta in H) ].

Lemma get_ok {A : Type} (l : list A) (i : nat) (x : A) :
  get l i = Ok x -> l !! i = Some x.
Proof. unfold get. destruct (l !! i); [|discriminate]. intros H. injection H as ->. reflexivity. Qed.

Lemma get_row_ok (a : array2) (i : nat) (x : list float) :
  get_row a i = Ok x -> (i < shape0 a)%nat /\ x = row a i.
Proof.
  unfold get_row. destruct (i <? shape0 a)%nat eqn:E; [|discriminate].
  intros H. injection H as <-. apply Nat.ltb_lt in E. split; [exact E|reflexivity].
Qed.

Lemma foldl_max_ge (ds : list Z) (d0 : Z) :
  d0 <= foldl Z.max d0 ds /\ forall d, d ∈ ds -> d <= foldl Z.max d0 ds.
Proof.
  revert d0. induction ds as [|x ds IH]; intros d0; simpl.
  - split; [lia|]. intros d Hd. apply elem_of_nil in Hd. contradiction.
  - destruct (IH (Z.max d0 x)) as [H0 Hin]. split; [lia|].
    intros d Hd. apply elem_of_cons in Hd as [->|Hd]; [lia|auto].
Qed.

Lemma py_max_ge (dims : list Z) (dim d : Z) :
  py_max dims = Ok dim -> d ∈ dims -> d <= dim.
Proof.
  unfold py_max. destruct dims as [|d0 ds]; [discriminate|].
  intros H Hd. injection H as <-.
  destruct (foldl_max_ge ds d0) as [H0 Hin].
  apply elem_of_cons in Hd as [->|Hd]; auto.
Qed.

Lemma foldM_ok_each {A S : Type} (body : S -> A -> M S) (R : A -> S -> Prop)
    (l : list A) (s sf : S) :
  (forall s a s', outcome (body s a) = Ok s' -> R a s') ->
  (forall s a s' b, outcome (body s a) = Ok s' -> R b s -> R b s') ->
  outcome (foldM body s l) = Ok sf ->
  forall a, a ∈ l -> R a sf.
Proof.
  intros Hnew Hkeep Hrun.
  refine (foldM_inv body l (fun done s _ => forall a, a ∈ done -> R a s)
            _ s sf _ Hrun).
  - intros done a rest s1 evs s' _ HI Hbody b Hb.
    apply elem_of_app in Hb as [Hb|Hb].
    + eapply Hkeep; eauto.
    + apply list_elem_of_singleton in Hb. subst b. eapply Hnew; eauto.
  - intros a Ha. apply elem_of_nil in Ha. contradiction.
Qed.

Lemma foldM_ok_keep {A S : Type} (body : S -> A -> M S) (P : S -> Prop)
    (l : list A) (s sf : S) :
  (forall s a s', outcome (body s a) = Ok s' -> P s -> P s') ->
  outcome (foldM body s l) = Ok sf -> P s -> P sf.
Proof.
  intros Hkeep Hrun Hs.
  refine (foldM_inv body l (fun _ s _ => P s) _ s sf Hs Hrun).
  intros done a rest s1 evs s' _ HI Hbody. eapply Hkeep; eauto.
Qed.

(** ** The sizing passes *)

Section Sizing.
Context `{C : Collaborators}.

Lemma sizing_window_ok (wl : float) (dims dims' : list Z) (iwin : nat) :
  outcome (sizing_window wl dims iwin) = Ok dims' ->
  exists r, half_window wl = Ok r /\ dims' = dims ++ [Z.of_nat iwin + r + 1].
Proof.
  intros H. unfold sizing_window in H. run_inv H. eauto.
Qed.

Lemma sizing_windows_ok (wl : float) (n : nat) (dims dims' : list Z) :
  outcome (foldM (sizing_window wl) dims (range n)) = Ok dims' ->
  (forall d, d ∈ dims -> d ∈ dims') /\
  (forall iwin r, (iwin < n)%nat -> half_window wl = Ok r ->
     Z.of_nat iwin + r + 1 ∈ dims').
Proof.
  intros H. split.
  - refine (foldM_ok_keep _ (fun ds => forall d, d ∈ dims -> d ∈ ds)
              _ _ _ _ H _); [|auto].
    intros s a s' Hb Hs d Hd. apply sizing_window_ok in Hb as (r & _ & ->).
    apply elem_of_app. left. auto.
  - intros iwin r Hi Hr.
    apply range_elem in Hi.
    refine (foldM_ok_each _
             (fun iwin ds => forall r, half_window wl = Ok r ->
                              Z.of_nat iwin + r + 1 ∈ ds) _ _ _ _ _ H
             iwin Hi r Hr).
    + intros s a s' Hb r0 Hr0. apply sizing_window_ok in Hb as (r1 & Hr1 & ->).
      rewrite Hr0 in Hr1. injection Hr1 as <-.
      apply elem_of_app. right. left.
    + intros s a s' b Hb Hs r0 Hr0. apply sizing_window_ok in Hb as (r1 & _ & ->).
      apply elem_of_app. left. auto.
Qed.

Lemma AMa_sizing_freq_ok (E : array2) (fs : pyscalar) (window_NT : float)
    (f_spectra : list float) (ichan ifreq : nat) (dims dims' : list Z) :
  outcome (AMa_sizing_freq E fs window_NT f_spectra ichan dims ifreq) = Ok dims' ->
  (forall d, d ∈ dims -> d ∈ dims') /\
  AMa_sized E fs window_NT f_spectra ichan ifreq dims'.
Proof.
  intros H. unfold AMa_sizing_freq in H. run_inv H.
  match goal with Hg : get _ _ = Ok _ |- _ => apply get_ok in Hg; rename Hg into Hf end.
  match goal with Hg : get_row _ _ = Ok _ |- _ => apply get_row_ok in Hg as [_ ->] end.
  apply sizing_windows_ok in H as [Hkeep Hnew].
  split; [exact Hkeep|].
  intros f windows iwin r Hf' Hw Hi Hr.
  rewrite Hf in Hf'. injection Hf' as <-.
  match goal with Hs : segment_into_windows _ _ _ _ _ = Ok _ |- _ =>
    rewrite Hs in Hw; injection Hw as <- end.
  apply Hnew; assumption.
Qed.

Lemma AMa_sizing_pass_ok (E : array2) (fs : pyscalar) (window_NT : float)
    (modbank_Nmod : Z) (f_spectra : list float) (Nchan : nat) (dims : list Z) :
  outcome (AMa_sizing_pass E fs window_NT modbank_Nmod f_spectra Nchan) = Ok dims ->
  forall ichan ifreq, (ichan < Nchan)%nat -> (ifreq < Z.to_nat modbank_Nmod)%nat ->
    AMa_sized E fs window_NT f_spectra ichan ifreq dims.
Proof.
  intros H ichan ifreq Hic Hif. unfold AMa_sizing_pass in H.
  assert (Hfreqs : forall ichan ds ds',
    outcome (foldM (AMa_sizing_freq E fs window_NT f_spectra ichan) ds
               (range (Z.to_nat modbank_Nmod))) = Ok ds' ->
    (forall d, d ∈ ds -> d ∈ ds') /\
    forall ifreq, (ifreq < Z.to_nat modbank_Nmod)%nat ->
      AMa_sized E fs window_NT f_spectra ichan ifreq ds').
  { intros ich ds ds' Hrun. split.
    - refine (foldM_ok_keep _ (fun x => forall d, d ∈ ds -> d ∈ x)
                _ _ _ _ Hrun _); [|auto].
      intros s a s' Hb Hs d Hd. apply AMa_sizing_freq_ok in Hb as [Hk _]. auto.
    - intros ifr Hifr. apply range_elem in Hifr.
      refine (foldM_ok_each _
               (fun ifr ds => AMa_sized E fs window_NT f_spectra ich ifr ds)
               _ _ _ _ _ Hrun ifr Hifr).
      + intros s a s' Hb. apply AMa_sizing_freq_ok in Hb as [_ Hn]. exact Hn.
      + intros s a s' b Hb Hs f windows iwin r Hf Hw Hi Hr.
        apply AMa_sizing_freq_ok in Hb as [Hk _]. apply Hk. eapply Hs; eauto. }
  apply range_elem in Hic.
  refine (foldM_ok_each _
           (fun ich ds => forall ifr, (ifr < Z.to_nat modbank_Nmod)%nat ->
              AMa_sized E fs window_NT f_spectra ich ifr ds)
           _ _ _ _ _ H ichan Hic ifreq Hif).
  - intros s a s' Hb. apply Hfreqs in Hb as [_ Hn]. exact Hn.
  - intros s a s' b Hb Hs ifr Hifr f windows iwin r Hf Hw Hi Hr.
    apply Hfreqs in Hb as [Hk _]. apply Hk. eapply Hs; eauto.
Qed.
End Sizing.

(** ** The stores of the fill passes *)

Section Stores.
Context `{C : Collaborators}.

Lemma AMa_fill_window_store (fs : pyscalar) (f wl : float) (windows : array2)
    (ichan ifreq : nat) (A : array2) (iwin : nat)
    (g : nat) (r : Z) (c : nat) (v : float) :
  Store g r c v ∈ events (AMa_fill_window fs f wl windows ichan ifreq A iwin) ->
  exists r0 P p,
    g = ichan /\ c = ifreq /\
    half_window wl = Ok r0 /\ r = Z.of_nat iwin + r0 /\
    periodogram (row windows iwin) fs [F64.lit_0_01; f] = Ok P /\
    P !! 1%nat = Some p /\ v = F64.mul F64.two p.
Proof.
  intros H. unfold AMa_fill_window in H. ev_inv H.
  match goal with Hg : get _ _ = Ok _ |- _ => apply get_ok in Hg end.
  do 3 eexists. split_and!; try eassumption; reflexivity.
Qed.

Lemma AMa_fill_freq_store (E : array2) (fs : pyscalar) (window_NT : float)
    (f_spectra : list float) (ichan : nat) (st : array2 * option nat)
    (ifreq : nat) (Nchan Nmod : nat) (g : nat) (r : Z) (c : nat) (v : float) :
  (ichan < Nchan)%nat -> (ifreq < Nmod)%nat ->
  Store g r c v ∈
    events (AMa_fill_freq E fs window_NT f_spectra ichan st ifreq) ->
  g = ichan /\ AMa_store E fs window_NT f_spectra Nchan Nmod g r c v.
Proof.
  intros Hic Hif H. unfold AMa_fill_freq in H. ev_inv H.
  apply foldM_event_in in H as (A & iwin & Hiwin & H).
  apply range_elem in Hiwin.
  apply AMa_fill_window_store in H
    as (r0 & P & p & -> & -> & Hr0 & -> & HP & Hp & ->).
  match goal with Hg : get _ _ = Ok _ |- _ => apply get_ok in Hg end.
  match goal with Hg : get_row _ _ = Ok _ |- _ => apply get_row_ok in Hg as [_ ->] end.
  split; [reflexivity|].
  do 6 eexists. split_and!; try eassumption; reflexivity.
Qed.

Lemma AMa_fill_channel_store (E : array2) (fs : pyscalar) (window_NT : float)
    (modbank_Nmod : Z) (f_spectra : list float) (dim : Z)
    (st : array2 * option nat) (ichan Nchan : nat)
    (g : nat) (r : Z) (c : nat) (v : float) :
  (ichan < Nchan)%nat ->
  Store g r c v ∈
    events (AMa_fill_channel E fs window_NT modbank_Nmod f_spectra dim st ichan) ->
  g = ichan /\
  AMa_store E fs window_NT f_spectra Nchan (Z.to_nat modbank_Nmod) g r c v.
Proof.
  intros Hic H. unfold AMa_fill_channel in H. ev_inv H.
  apply foldM_event_in in H as (st' & ifreq & Hifreq & H).
  apply range_elem in Hifreq.
  eapply AMa_fill_freq_store; eauto.
Qed.

Lemma AMa_fill_pass_store (E : array2) (fs : pyscalar) (window_NT : float)
    (modbank_Nmod : Z) (f_spectra : list float) (Nchan : nat) (dim : Z)
    (g : nat) (r : Z) (c : nat) (v : float) :
  Store g r c v ∈
    events (AMa_fill_pass E fs window_NT modbank_Nmod f_spectra Nchan dim) ->
  AMa_store E fs window_NT f_spectra Nchan (Z.to_nat modbank_Nmod) g r c v.
Proof.
  intros H. unfold AMa_fill_pass in H. ev_inv H.
  apply foldM_event_in in H as (st' & ichan & Hichan & H).
  apply range_elem in Hichan.
  eapply AMa_fill_channel_store; eauto.
Qed.

Lemma f0M_fill_window_store (f wl : float) (windows t_windows : array2)
    (ifreq : nat) (A : array2) (iwin : nat)
    (g : nat) (r : Z) (c : nat) (v : float) :
  Store g r c v ∈ events (f0M_fill_window f wl windows t_windows ifreq A iwin) ->
  exists r0 freqs P p,
    g = 0%nat /\ c = ifreq /\
    half_window wl = Ok r0 /\ r = Z.of_nat iwin + r0 /\
    lombscargle (row t_windows iwin) (row windows iwin) [F64.lit_0_01; f]
      = Ok (freqs, P) /\
    P !! 1%nat = Some p /\ v = F64.mul F64.two p.
Proof.
  intros H. unfold f0M_fill_window in H. ev_inv H.
  match goal with Hg : get _ _ = Ok _ |- _ => apply get_ok in Hg end.
  match goal with Hg : get_row _ _ = Ok _ |- _ => apply get_row_ok in Hg as [_ ->] end.
  do 4 eexists. split_and!; try eassumption; reflexivity.
Qed.

Lemma f0M_fill_pass_store (f0 t_yin : list float) (fs_yin : float)
    (window_NT : float) (modbank_Nmod : Z) (f_spectra : list float) (dim : Z)
    (g : nat) (r : Z) (c : nat) (v : float) :
  Store g r c v ∈
    events (f0M_fill_pass f0 t_yin fs_yin window_NT modbank_Nmod f_spectra dim) ->
  f0M_store f0 t_yin fs_yin window_NT f_spectra (Z.to_nat modbank_Nmod) g r c v.
Proof.
  intros H. unfold f0M_fill_pass in H. ev_inv H.
  apply foldM_event_in in H as (A & ifreq & Hifreq & H).
  apply range_elem in Hifreq.
  unfold f0M_fill_freq in H. ev_inv H.
  apply foldM_event_in in H as (A' & iwin & Hiwin & H).
  apply range_elem in Hiwin.
  apply f0M_fill_window_store in H
    as (r0 & freqs & P & p & -> & -> & Hr0 & -> & HP & Hp & ->).
  match goal with Hg : get _ _ = Ok _ |- _ => apply get_ok in Hg end.
  do 8 eexists. split_and!; try eassumption; reflexivity.
Qed.
End Stores.

Section Sizing_f0M.
Context `{C : Collaborators}.

Lemma f0M_sizing_freq_ok (f0 : list float) (fs_yin : float) (window_NT : float)
    (f_spectra : list float) (ifreq : nat) (dims dims' : list Z) :
  outcome (f0M_sizing_freq f0 fs_yin window_NT f_spectra dims ifreq) = Ok dims' ->
  (forall d, d ∈ dims -> d ∈ dims') /\
  f0M_sized f0 fs_yin window_NT f_spectra ifreq dims'.
Proof.
  intros H. unfold f0M_sizing_freq in H. run_inv H.
  match goal with Hg : get _ _ = Ok _ |- _ => apply get_ok in Hg; rename Hg into Hf end.
  apply sizing_windows_ok in H as [Hkeep Hnew].
  split; [exact Hkeep|].
  intros f windows iwin r Hf' Hw Hi Hr.
  rewrite Hf in Hf'. injection Hf' as <-.
  match goal with Hs : segment_into_windows _ _ _ _ _ = Ok _ |- _ =>
    rewrite Hs in Hw; injection Hw as <- end.
  apply Hnew; assumption.
Qed.

Lemma f0M_sizing_pass_ok (f0 : list float) (fs_yin : float) (window_NT : float)
    (modbank_Nmod : Z) (f_spectra : list float) (dims : list Z) :
  outcome (f0M_sizing_pass f0 fs_yin window_NT modbank_Nmod f_spectra) = Ok dims ->
  forall ifreq, (ifreq < Z.to_nat modbank_Nmod)%nat ->
    f0M_sized f0 fs_yin window_NT f_spectra ifreq dims.
Proof.
  intros H ifreq Hif. unfold f0M_sizing_pass in H.
  apply range_elem in Hif.
  refine (foldM_ok_each _
           (fun ifr ds => f0M_sized f0 fs_yin window_NT f_spectra ifr ds)
           _ _ _ _ _ H ifreq Hif).
  - intros s a s' Hb. apply f0M_sizing_freq_ok in Hb as [_ Hn]. exact Hn.
  - intros s a s' b Hb Hs f windows iwin r Hf Hw Hi Hr.
    apply f0M_sizing_freq_ok in Hb as [Hk _]. apply Hk. eapply Hs; eauto.
Qed.
End Sizing_f0M.

Lemma normalize_index_nonneg (dim r : Z) :
  0 <= r -> r < dim -> normalize_index (Z.to_nat dim) r = Some (Z.to_nat r).
Proof.
  intros H0 H1. unfold normalize_index.
  destruct (Z.leb_spec 0 r); [|lia].
  destruct (Z.ltb_spec r (Z.of_nat (Z.to_nat dim))); [reflexivity|lia].
Qed.

Section Bounds.
Context `{C : Collaborators}.

(** C9, as amended.  In [AMa_scalogram] and in [f0M_scalogram], when the
    sizing pass returns [dims] and [dim = max(dims)], every store the
    fill pass attempts has its row index strictly below [dim]; and when
    [window_NT] and the frequencies are not negative the index is not
    negative either, so the store is in bounds. *)
Theorem stores_below_dim :
  (forall E fs window_NT modbank_Nmod f_spectra Nchan dims dim g r c v,
     outcome (AMa_sizing_pass E fs window_NT modbank_Nmod f_spectra Nchan)
       = Ok dims ->
     py_max dims = Ok dim ->
     Store g r c v ∈
       events (AMa_fill_pass E fs window_NT modbank_Nmod f_spectra Nchan dim) ->
     r < dim /\
     (sign_clear window_NT -> Forall sign_clear f_spectra ->
      normalize_index (Z.to_nat dim) r = Some (Z.to_nat r))) /\
  (forall f0 t_yin fs_yin window_NT modbank_Nmod f_spectra dims dim g r c v,
     outcome (f0M_sizing_pass f0 fs_yin window_NT modbank_Nmod f_spectra)
       = Ok dims ->
     py_max dims = Ok dim ->
     Store g r c v ∈
       events (f0M_fill_pass f0 t_yin fs_yin window_NT modbank_Nmod f_spectra dim) ->
     r < dim /\
     (sign_clear window_NT -> Forall sign_clear f_spectra ->
      normalize_index (Z.to_nat dim) r = Some (Z.to_nat r))).
Proof.
  split.
  - intros E fs window_NT modbank_Nmod f_spectra Nchan dims dim g r c v
      Hsize Hmax Hev.
    apply AMa_fill_pass_store in Hev
      as (f & windows & iwin & r0 & P & p & Hg & Hc & Hf & Hw & Hi & Hr0 & -> & _).
    pose proof (AMa_sizing_pass_ok _ _ _ _ _ _ _ Hsize g c Hg Hc
                  f windows iwin r0 Hf Hw Hi Hr0) as Hin.
    pose proof (py_max_ge _ _ _ Hmax Hin) as Hle.
    split; [lia|].
    intros HN Hfs. apply normalize_index_nonneg; [|lia].
    assert (Hsf : sign_clear f).
    { rewrite Forall_lookup in Hfs. eapply Hfs; eauto. }
    pose proof (half_window_nonneg _ _ _ HN Hsf Hr0). lia.
  - intros f0 t_yin fs_yin window_NT modbank_Nmod f_spectra dims dim g r c v
      Hsize Hmax Hev.
    apply f0M_fill_pass_store in Hev
      as (f & windows & t_windows & iwin & r0 & freqs & P & p & Hg & Hc & Hf
          & Hw & _ & Hi & Hr0 & -> & _).
    pose proof (f0M_sizing_pass_ok _ _ _ _ _ _ Hsize c Hc
                  f windows iwin r0 Hf Hw Hi Hr0) as Hin.
    pose proof (py_max_ge _ _ _ Hmax Hin) as Hle.
    split; [lia|].
    intros HN Hfs. apply normalize_index_nonneg; [|lia].
    assert (Hsf : sign_clear f).
    { rewrite Forall_lookup in Hfs. eapply Hfs; eauto. }
    pose proof (half_window_nonneg _ _ _ HN Hsf Hr0). lia.
Qed.
End Bounds.

(** ** The log of a scalogram run *)

Lemma bind_events {A B : Type} (m : M A) (k : A -> M B) (a : A) :
  outcome m = Ok a -> events (m ≫= k) = events m ++ events (k a).
Proof. intros H. apply (bind_ok m k a H). Qed.

Ltac events_steps :=
  repeat (erewrite bind_events by eassumption; cbv beta iota zeta).

Section ScalogramRuns.
Context `{C : Collaborators}.

Lemma AMa_scalogram_ok (sig : pyobj) (fs : pyscalar) (window_NT : float)
    (mfmin mfmax : float) (modbank_Nmod : Z) (fmin fmax : float)
    (tup : list retval) :
  outcome (AMa_scalogram sig fs window_NT mfmin mfmax modbank_Nmod fmin fmax)
    = Ok tup ->
  exists gamma_responses fc E f_spectra f_spectra_intervals dims dim AMsgram
         n_windows step,
    auditory_filterbank sig fs fmin fmax = Ok (gamma_responses, fc) /\
    abs_hilbert gamma_responses = Ok E /\
    define_modulation_axis mfmin mfmax modbank_Nmod =
      Ok (f_spectra, f_spectra_intervals) /\
    outcome (AMa_sizing_pass E fs window_NT modbank_Nmod f_spectra (length fc))
      = Ok dims /\
    py_max dims = Ok dim /\
    outcome (AMa_fill_pass E fs window_NT modbank_Nmod f_spectra (length fc) dim)
      = Ok (AMsgram, n_windows) /\
    tup = [Matrix AMsgram; Vector fc; Vector f_spectra;
           Bundle (P_AMa_scalogram step)] /\
    AMa_scal_E step = E /\
    events (AMa_scalogram sig fs window_NT mfmin mfmax modbank_Nmod fmin fmax) =
      [Invoke c_auditory_filterbank; Invoke c_hilbert;
       Invoke c_define_modulation_axis]
      ++ events (AMa_sizing_pass E fs window_NT modbank_Nmod f_spectra (length fc))
      ++ events (AMa_fill_pass E fs window_NT modbank_Nmod f_spectra (length fc) dim)
      ++ [Invoke c_aud_filt_bw].
Proof.
  intros H. unfold AMa_scalogram in *. run_inv H. subst tup.
  do 10 eexists. split_and!; try eassumption; try reflexivity.
  events_steps. reflexivity.
Qed.
End ScalogramRuns.

Lemma foldM_ok_body {A S : Type} (body : S -> A -> M S) (l : list A) (s sf : S)
    (a : A) :
  outcome (foldM body s l) = Ok sf -> a ∈ l ->
  exists s1 s2,
    outcome (body s1 a) = Ok s2 /\
    forall ev, ev ∈ events (body s1 a) -> ev ∈ events (foldM body s l).
Proof.
  revert s. induction l as [|b l IH]; intros s Hrun Ha.
  - apply elem_of_nil in Ha. contradiction.
  - simpl in Hrun. apply bind_outcome_ok in Hrun as (s' & Hs' & Hrun).
    simpl. rewrite (bind_events _ _ _ Hs').
    apply elem_of_cons in Ha as [->|Ha].
    + exists s, s'. split; [exact Hs'|]. intros ev Hev.
      apply elem_of_app. left. exact Hev.
    + destruct (IH s' Hrun Ha) as (s1 & s2 & Hb & Hsub).
      exists s1, s2. split; [exact Hb|]. intros ev Hev.
      apply elem_of_app. right. apply Hsub, Hev.
Qed.

Section Placement.
Context `{C : Collaborators}.

Lemma AMa_fill_window_ok (fs : pyscalar) (f wl : float) (windows : array2)
    (ichan ifreq : nat) (A A' : array2) (iwin : nat) :
  outcome (AMa_fill_window fs f wl windows ichan ifreq A iwin) = Ok A' ->
  exists P p r i,
    periodogram (row windows iwin) fs [F64.lit_0_01; f] = Ok P /\
    P !! 1%nat = Some p /\
    half_window wl = Ok r /\
    normalize_index (shape0 A) (Z.of_nat iwin + r) = Some i /\
    A' = set_item A i ifreq (F64.mul F64.two p) /\
    events (AMa_fill_window fs f wl windows ichan ifreq A iwin) =
      [Invoke c_periodogram;
       Store ichan (Z.of_nat iwin + r) ifreq (F64.mul F64.two p)].
Proof.
  intros H. unfold AMa_fill_window in *. run_inv H.
  match goal with Hg : get _ _ = Ok _ |- _ => pose proof (get_ok _ _ _ Hg) end.
  unfold store in H. simpl in H.
  destruct (normalize_index _ _) as [i|] eqn:Hi; [|discriminate H].
  injection H as <-.
  do 4 eexists. split_and!; try eassumption; try reflexivity.
  events_steps. reflexivity.
Qed.

Lemma AMa_fill_freq_placed (E : array2) (fs : pyscalar) (window_NT : float)
    (f_spectra : list float) (ichan : nat) (st st' : array2 * option nat)
    (ifreq : nat) :
  outcome (AMa_fill_freq E fs window_NT f_spectra ichan st ifreq) = Ok st' ->
  AMa_placed E fs window_NT f_spectra ichan ifreq
    (events (AMa_fill_freq E fs window_NT f_spectra ichan st ifreq)).
Proof.
  intros H f windows iwin Hf Hw Hi.
  unfold AMa_fill_freq in *. run_inv H.
  events_steps. cbn [events lift invoke app].
  match goal with Hg : get _ _ = Ok _ |- _ =>
    apply get_ok in Hg; rewrite Hf in Hg; injection Hg as <- end.
  match goal with Hg : get_row _ _ = Ok _ |- _ =>
    apply get_row_ok in Hg as [_ ->] end.
  match goal with Hs : segment_into_windows _ _ _ _ _ = Ok ?w |- _ =>
    rewrite Hw in Hs; injection Hs as <- end.
  apply range_elem in Hi.
  match goal with
  | Hl : outcome (foldM (AMa_fill_window _ _ _ _ _ _) _ _) = Ok _ |- _ =>
      destruct (foldM_ok_body _ _ _ _ _ Hl Hi) as (u1 & u2 & Hwin & Hsub)
  end.
  apply AMa_fill_window_ok in Hwin as (P & p & r & i & HP & Hp & Hr & _ & _ & Hev).
  exists P, p, r. split_and!; try assumption.
  right. apply elem_of_app. left. apply Hsub. rewrite Hev. right. left.
Qed.

Lemma AMa_fill_channel_placed (E : array2) (fs : pyscalar) (window_NT : float)
    (modbank_Nmod : Z) (f_spectra : list float) (dim : Z)
    (st st' : array2 * option nat) (ichan ifreq : nat) :
  outcome (AMa_fill_channel E fs window_NT modbank_Nmod f_spectra dim st ichan)
    = Ok st' ->
  (ifreq < Z.to_nat modbank_Nmod)%nat ->
  AMa_placed E fs window_NT f_spectra ichan ifreq
    (events (AMa_fill_channel E fs window_NT modbank_Nmod f_spectra dim st ichan)).
Proof.
  intros H Hif f windows iwin Hf Hw Hi.
  unfold AMa_fill_channel in *. run_inv H.
  events_steps. cbn [events lift app].
  apply range_elem in Hif.
  match goal with
  | Hl : outcome (foldM (AMa_fill_freq _ _ _ _ _) _ _) = Ok _ |- _ =>
      destruct (foldM_ok_body _ _ _ _ _ Hl Hif) as (t1 & t2 & Hfr & Hsub)
  end.
  destruct (AMa_fill_freq_placed _ _ _ _ _ _ _ _ Hfr f windows iwin Hf Hw Hi)
    as (P & p & r & HP & Hp & Hr & Hev).
  exists P, p, r. split_and!; try assumption.
  apply elem_of_app. left. apply Hsub, Hev.
Qed.

Lemma AMa_fill_pass_placed (E : array2) (fs : pyscalar) (window_NT : float)
    (modbank_Nmod : Z) (f_spectra : list float) (Nchan : nat) (dim : Z)
    (st : array2 * option nat) (ichan ifreq : nat) :
  outcome (AMa_fill_pass E fs window_NT modbank_Nmod f_spectra Nchan dim)
    = Ok st ->
  (ichan < Nchan)%nat -> (ifreq < Z.to_nat modbank_Nmod)%nat ->
  AMa_placed E fs window_NT f_spectra ichan ifreq
    (events (AMa_fill_pass E fs window_NT modbank_Nmod f_spectra Nchan dim)).
Proof.
  intros H Hic Hif f windows iwin Hf Hw Hi.
  unfold AMa_fill_pass in *. run_inv H.
  events_steps. cbn [events lift app].
  apply range_elem in Hic.
  destruct (foldM_ok_body _ _ _ _ _ H Hic) as (s1 & s2 & Hch & Hsub).
  destruct (AMa_fill_channel_placed _ _ _ _ _ _ _ _ _ ifreq Hch Hif
              f windows iwin Hf Hw Hi)
    as (P & p & r & HP & Hp & Hr & Hev).
  exists P, p, r. split_and!; try assumption.
  apply Hsub, Hev.
Qed.

Lemma f0M_fill_window_ok (f wl : float) (windows t_windows : array2)
    (ifreq : nat) (A A' : array2) (iwin : nat) :
  outcome (f0M_fill_window f wl windows t_windows ifreq A iwin) = Ok A' ->
  exists freqs P p r i,
    lombscargle (row t_windows iwin) (row windows iwin) [F64.lit_0_01; f]
      = Ok (freqs, P) /\
    P !! 1%nat = Some p /\
    half_window wl = Ok r /\
    normalize_index (shape0 A) (Z.of_nat iwin + r) = Some i /\
    A' = set_item A i ifreq (F64.mul F64.two p) /\
    events (f0M_fill_window f wl windows t_windows ifreq A iwin) =
      [Invoke c_lombscargle;
       Store 0 (Z.of_nat iwin + r) ifreq (F64.mul F64.two p)].
Proof.
  intros H. unfold f0M_fill_window in *. run_inv H.
  match goal with Hg : get _ _ = Ok _ |- _ => pose proof (get_ok _ _ _ Hg) end.
  match goal with Hg : get_row _ _ = Ok _ |- _ =>
    pose proof (get_row_ok _ _ _ Hg) as [_ Hrow]; subst end.
  unfold store in H. simpl in H.
  destruct (normalize_index _ _) as [i|] eqn:Hi; [|discriminate H].
  injection H as <-.
  do 5 eexists. split_and!; try eassumption; try reflexivity.
  events_steps. reflexivity.
Qed.

Lemma f0M_fill_freq_placed (f0 t_yin : list float) (fs_yin : float)
    (window_NT : float) (f_spectra : list float) (A A' : array2)
    (ifreq : nat) :
  outcome (f0M_fill_freq f0 t_yin fs_yin window_NT f_spectra A ifreq) = Ok A' ->
  f0M_placed f0 t_yin fs_yin window_NT f_spectra ifreq
    (events (f0M_fill_freq f0 t_yin fs_yin window_NT f_spectra A ifreq)).
Proof.
  intros H f windows t_windows iwin Hf Hw Ht Hi.
  unfold f0M_fill_freq in *. run_inv H.
  events_steps. cbn [events lift invoke app].
  match goal with Hg : get _ _ = Ok _ |- _ =>
    apply get_ok in Hg; rewrite Hf in Hg; injection Hg as <- end.
  repeat match goal with Hs : segment_into_windows _ _ _ _ _ = Ok ?w |- _ =>
    first [rewrite Hw in Hs | rewrite Ht in Hs]; injection Hs as <- end.
  apply range_elem in Hi.
  destruct (foldM_ok_body _ _ _ _ _ H Hi) as (u1 & u2 & Hwin & Hsub).
  apply f0M_fill_window_ok in Hwin
    as (freqs & P & p & r & i & HP & Hp & Hr & _ & _ & Hev).
  exists freqs, P, p, r. split_and!; try assumption.
  right. right. apply Hsub. rewrite Hev. right. left.
Qed.

Lemma f0M_fill_pass_placed (f0 t_yin : list float) (fs_yin : float)
    (window_NT : float) (modbank_Nmod : Z) (f_spectra : list float) (dim : Z)
    (A : array2) (ifreq : nat) :
  outcome (f0M_fill_pass f0 t_yin fs_yin window_NT modbank_Nmod f_spectra dim)
    = Ok A ->
  (ifreq < Z.to_nat modbank_Nmod)%nat ->
  f0M_placed f0 t_yin fs_yin window_NT f_spectra ifreq
    (events (f0M_fill_pass f0 t_yin fs_yin window_NT modbank_Nmod f_spectra dim)).
Proof.
  intros H Hif f windows t_windows iwin Hf Hw Ht Hi.
  unfold f0M_fill_pass in *. run_inv H.
  events_steps. cbn [events lift app].
  apply range_elem in Hif.
  destruct (foldM_ok_body _ _ _ _ _ H Hif) as (s1 & s2 & Hfr & Hsub).
  destruct (f0M_fill_freq_placed _ _ _ _ _ _ _ _ Hfr f windows t_windows iwin
              Hf Hw Ht Hi)
    as (freqs & P & p & r & HP & Hp & Hr & Hev).
  exists freqs, P, p, r. split_and!; try assumption.
  apply Hsub, Hev.
Qed.

Lemma f0M_scalogram_ok (sig : pyobj) (fs : pyscalar) (window_NT : float)
    (mfmin mfmax : float) (modbank_Nmod undersample : Z)
    (fmin fmax yin_thresh ap0_thresh max_jump min_duration : float)
    (tup : list retval) :
  outcome (f0M_scalogram sig fs window_NT mfmin mfmax modbank_Nmod undersample
             fmin fmax yin_thresh ap0_thresh max_jump min_duration) = Ok tup ->
  exists track ap0 f0 f_spectra f_spectra_intervals fs_yin dims dim f0Msgram,
    let t_yin := map (fun k => F64.div k fs_yin) (arange1 (length f0)) in
    mock_yin sig fs fmin fmax yin_thresh undersample = Ok (track, ap0) /\
    outcome (f0_track fs undersample fmin fmax ap0_thresh max_jump
               min_duration track ap0) = Ok f0 /\
    define_modulation_axis mfmin mfmax modbank_Nmod =
      Ok (f_spectra, f_spectra_intervals) /\
    py_truediv fs undersample = Ok fs_yin /\
    outcome (f0M_sizing_pass f0 fs_yin window_NT modbank_Nmod f_spectra)
      = Ok dims /\
    py_max dims = Ok dim /\
    outcome (f0M_fill_pass f0 t_yin fs_yin window_NT modbank_Nmod f_spectra dim)
      = Ok f0Msgram /\
    tup = [Matrix (zeros_to_nan f0Msgram); Vector f_spectra] /\
    events (f0M_scalogram sig fs window_NT mfmin mfmax modbank_Nmod undersample
              fmin fmax yin_thresh ap0_thresh max_jump min_duration) =
      [Invoke c_mock_yin]
      ++ events (f0_track fs undersample fmin fmax ap0_thresh max_jump
                   min_duration track ap0)
      ++ [Invoke c_define_modulation_axis]
      ++ events (f0M_sizing_pass f0 fs_yin window_NT modbank_Nmod f_spectra)
      ++ events (f0M_fill_pass f0 t_yin fs_yin window_NT modbank_Nmod
                   f_spectra dim).
Proof.
  intros H. unfold f0M_scalogram in *. run_inv H. subst tup.
  do 9 eexists. cbv zeta. split_and!; try eassumption; try reflexivity.
  events_steps. cbn [events lift invoke app]. rewrite !app_nil_r. reflexivity.
Qed.

End Placement.

Section PlacementTheorem.
Context `{C : Collaborators}.

(** C7, as amended.  In a run of [AMa_scalogram] or [f0M_scalogram] that
    returns, for every channel (the single track of [f0M_scalogram]),
    every frequency [f = f_spectra[ifreq]] and every window [iwin] of
    the segmentation at that frequency, the log holds the store of
    2 times the second value of the two-point query [[0.01, f]] on that
    window, at column [ifreq] and row
    [iwin + round(window_NT * (1 / f) / 2 / 0.1)]. *)
Theorem estimates_stored_half_window_ahead :
  (forall sig fs window_NT mfmin mfmax modbank_Nmod fmin fmax tup,
     outcome (AMa_scalogram sig fs window_NT mfmin mfmax modbank_Nmod
                fmin fmax) = Ok tup ->
     exists AMsgram fc f_spectra step,
       tup = [Matrix AMsgram; Vector fc; Vector f_spectra;
              Bundle (P_AMa_scalogram step)] /\
       forall ichan ifreq,
         (ichan < length fc)%nat -> (ifreq < Z.to_nat modbank_Nmod)%nat ->
         AMa_placed (AMa_scal_E step) fs window_NT f_spectra ichan ifreq
           (events (AMa_scalogram sig fs window_NT mfmin mfmax modbank_Nmod
                      fmin fmax))) /\
  (forall sig fs window_NT mfmin mfmax modbank_Nmod undersample fmin fmax
          yin_thresh ap0_thresh max_jump min_duration tup,
     outcome (f0M_scalogram sig fs window_NT mfmin mfmax modbank_Nmod
                undersample fmin fmax yin_thresh ap0_thresh max_jump
                min_duration) = Ok tup ->
     exists track ap0 f0 fs_yin f0Msgram f_spectra,
       mock_yin sig fs fmin fmax yin_thresh undersample = Ok (track, ap0) /\
       outcome (f0_track fs undersample fmin fmax ap0_thresh max_jump
                  min_duration track ap0) = Ok f0 /\
       py_truediv fs undersample = Ok fs_yin /\
       tup = [Matrix f0Msgram; Vector f_spectra] /\
       forall ifreq, (ifreq < Z.to_nat modbank_Nmod)%nat ->
         f0M_placed f0 (map (fun k => F64.div k fs_yin) (arange1 (length f0)))
           fs_yin window_NT f_spectra ifreq
           (events (f0M_scalogram sig fs window_NT mfmin mfmax modbank_Nmod
                      undersample fmin fmax yin_thresh ap0_thresh max_jump
                      min_duration))).
Proof.
  split.
  - intros sig fs window_NT mfmin mfmax modbank_Nmod fmin fmax tup H.
    apply AMa_scalogram_ok in H
      as (gamma & fc & E & f_spectra & edges & dims & dim & AMsgram & nw & step
          & _ & _ & _ & _ & _ & Hfill & -> & HE & Hev).
    exists AMsgram, fc, f_spectra, step. split; [reflexivity|].
    intros ichan ifreq Hic Hif f windows iwin Hf Hw Hi.
    rewrite HE in Hw.
    destruct (AMa_fill_pass_placed _ _ _ _ _ _ _ _ ichan ifreq Hfill Hic Hif
                f windows iwin Hf Hw Hi) as (P & p & r & HP & Hp & Hr & Hin).
    exists P, p, r. split_and!; try assumption.
    rewrite Hev. rewrite !elem_of_app. right. right. left. exact Hin.
  - intros sig fs window_NT mfmin mfmax modbank_Nmod undersample fmin fmax
      yin_thresh ap0_thresh max_jump min_duration tup H.
    apply f0M_scalogram_ok in H
      as (track & ap0 & f0 & f_spectra & edges & fs_yin & dims & dim & G
          & Hyin & Htrack & _ & Hdiv & _ & _ & Hfill & -> & Hev).
    exists track, ap0, f0, fs_yin, (zeros_to_nan G), f_spectra.
    split_and!; try assumption; try reflexivity.
    intros ifreq Hif f windows t_windows iwin Hf Hw Ht Hi.
    destruct (f0M_fill_pass_placed _ _ _ _ _ _ _ _ ifreq Hfill Hif
                f windows t_windows iwin Hf Hw Ht Hi)
      as (freqs & P & p & r & HP & Hp & Hr & Hin).
    exists freqs, P, p, r. split_and!; try assumption.
    rewrite Hev. rewrite !elem_of_app. right. right. right. right. exact Hin.
Qed.
End PlacementTheorem.


(** ** The cells of the AM scalogram *)

Lemma add_nan_l (x : float) : F64.add F64.nan x = F64.nan.
Proof. destruct x; reflexivity. Qed.

Lemma zero_to_nan_nan : zero_to_nan F64.nan = F64.nan.
Proof. reflexivity. Qed.

Lemma accumulate_snoc (vals : list float) (v : float) :
  accumulate (vals ++ [v]) = zero_to_nan (F64.add (accumulate vals) v).
Proof. unfold accumulate. rewrite foldl_app. reflexivity. Qed.

Lemma channel_sum_snoc (vals : list float) (v : float) :
  channel_sum (vals ++ [v]) = F64.add (channel_sum vals) v.
Proof. unfold channel_sum. rewrite foldl_app. reflexivity. Qed.

Lemma accumulate_nan (vals : list float) :
  foldl (fun acc v => zero_to_nan (F64.add acc v)) F64.nan vals = F64.nan.
Proof.
  induction vals as [|v vals IH]; cbn [foldl]; [reflexivity|].
  rewrite add_nan_l, zero_to_nan_nan. exact IH.
Qed.

Lemma accumulate_zeros (vals : list float) :
  vals <> [] -> (forall v, v ∈ vals -> v = F64.zero) ->
  accumulate vals = F64.nan.
Proof.
  destruct vals as [|v vals]; [congruence|]. intros _ Hz.
  unfold accumulate. cbn [foldl].
  rewrite (Hz v) by left.
  change (zero_to_nan (F64.add F64.zero F64.zero)) with F64.nan.
  apply accumulate_nan.
Qed.

Lemma accumulate_sum (vals : list float) :
  (forall k, (0 < k <= length vals)%nat ->
     F64.eqb (channel_sum (take k vals)) F64.zero = false) ->
  accumulate vals = channel_sum vals.
Proof.
  induction vals as [|v vals IH] using rev_ind; [reflexivity|].
  intros Hnz. rewrite accumulate_snoc, channel_sum_snoc.
  rewrite IH.
  - unfold zero_to_nan. rewrite <- channel_sum_snoc.
    specialize (Hnz (length (vals ++ [v]))).
    rewrite firstn_all in Hnz. rewrite Hnz; [reflexivity|].
    rewrite length_app. simpl. lia.
  - intros k Hk. specialize (Hnz k).
    rewrite take_app_le in Hnz by lia. apply Hnz.
    rewrite length_app. simpl. lia.
Qed.

Lemma accumulate_cases (vals : list float) :
  (forall k, (0 < k <= length vals)%nat ->
     F64.eqb (channel_sum (take k vals)) F64.zero = false) \/
  accumulate vals = F64.nan.
Proof.
  induction vals as [|v vals IH] using rev_ind.
  - left. intros k Hk. simpl in Hk. lia.
  - destruct IH as [IH|IH].
    + destruct (F64.eqb (channel_sum (vals ++ [v])) F64.zero) eqn:Hz.
      * right. rewrite accumulate_snoc, (accumulate_sum vals IH).
        rewrite <- channel_sum_snoc. unfold zero_to_nan. rewrite Hz. reflexivity.
      * left. intros k Hk. rewrite length_app in Hk. cbn [length] in Hk.
        destruct (decide (k <= length vals)%nat) as [Hle|Hgt].
        -- rewrite take_app_le by exact Hle. apply IH. lia.
        -- replace k with (length (vals ++ [v]))
             by (rewrite length_app; cbn [length]; lia).
           rewrite firstn_all. exact Hz.
    + right. rewrite accumulate_snoc, IH, add_nan_l. reflexivity.
Qed.

Lemma accumulate_poisoned (vals : list float) (k : nat) :
  (0 < k <= length vals)%nat ->
  F64.eqb (channel_sum (take k vals)) F64.zero = true ->
  accumulate vals = F64.nan.
Proof.
  intros Hk Hz. destruct (accumulate_cases vals) as [Hnz|Hnan]; [|exact Hnan].
  rewrite (Hnz k Hk) in Hz. discriminate Hz.
Qed.

Lemma stored_from_app (n g i c : nat) (acc : float) (e1 e2 : list event) :
  stored_from n g i c acc (e1 ++ e2) =
  stored_from n g i c (stored_from n g i c acc e1) e2.
Proof. unfold stored_from. apply foldl_app. Qed.

Lemma stored_from_unwritten (n g i c : nat) (acc : float) (evs : list event) :
  (forall r v, Store g r c v ∈ evs -> normalize_index n r <> Some i) ->
  stored_from n g i c acc evs = acc.
Proof.
  revert acc. induction evs as [|ev evs IH]; intros acc Hno; [reflexivity|].
  unfold stored_from. cbn [foldl]. fold (stored_from n g i c).
  assert (Hrest : forall r v, Store g r c v ∈ evs -> normalize_index n r <> Some i).
  { intros r v Hin. apply (Hno r v). right. exact Hin. }
  destruct ev as [k|g' r c' v]; [apply IH, Hrest|].
  destruct ((g' =? g)%nat && (c' =? c)%nat
            && bool_decide (normalize_index n r = Some i)) eqn:Hhit;
    [|apply IH, Hrest].
  apply andb_prop in Hhit as [Hgc Hidx]. apply andb_prop in Hgc as [Hg Hc].
  apply Nat.eqb_eq in Hg, Hc. apply bool_decide_eq_true in Hidx. subst g' c'.
  exfalso. apply (Hno r v); [left|exact Hidx].
Qed.

Lemma fills_nil (g : nat) (A : array2) : fills g A A [].
Proof.
  unfold fills. split_and!; try reflexivity.
  intros g' r c v H. apply elem_of_nil in H. contradiction.
Qed.

Lemma fills_app (g : nat) (A0 A1 A2 : array2) (e1 e2 : list event) :
  fills g A0 A1 e1 -> fills g A1 A2 e2 -> fills g A0 A2 (e1 ++ e2).
Proof.
  intros (H10 & H11 & Hi1 & Hg1) (H20 & H21 & Hi2 & Hg2).
  unfold fills. split_and!; try congruence.
  - intros i c. rewrite stored_from_app, Hi2, Hi1, H10. reflexivity.
  - intros g' r c v Hin. apply elem_of_app in Hin as [Hin|Hin]; eauto.
Qed.

Lemma fills_invoke (g : nat) (A : array2) (k : collaborator) :
  fills g A A [Invoke k].
Proof.
  unfold fills. split_and!; try reflexivity.
  intros g' r c v H. apply list_elem_of_singleton in H. discriminate H.
Qed.

Lemma fills_store (g : nat) (A : array2) (r : Z) (i c : nat) (v : float) :
  normalize_index (shape0 A) r = Some i ->
  fills g A (set_item A i c v) [Store g r c v].
Proof.
  intros Hi. unfold fills. split_and!; try reflexivity.
  - intros i' c'. unfold stored_from, set_item. cbn [foldl item shape0].
    rewrite Nat.eqb_refl. cbn [andb]. rewrite Hi.
    rewrite (Nat.eqb_sym c c').
    destruct (c' =? c)%nat; [|rewrite andb_false_r; reflexivity].
    rewrite andb_true_r. simpl.
    destruct (i' =? i)%nat eqn:E.
    + apply Nat.eqb_eq in E. subst i'. rewrite bool_decide_eq_true_2; reflexivity.
    + apply Nat.eqb_neq in E. rewrite bool_decide_eq_false_2; [reflexivity|].
      intros Heq. injection Heq as Heq. congruence.
  - intros g' r' c' v' H. apply list_elem_of_singleton in H.
    injection H as -> _ _ _. reflexivity.
Qed.

Lemma foldM_fills {A S : Type} (proj : S -> array2) (g : nat)
    (body : S -> A -> M S) (l : list A) (s0 sf : S) :
  (forall s a s', outcome (body s a) = Ok s' ->
     fills g (proj s) (proj s') (events (body s a))) ->
  outcome (foldM body s0 l) = Ok sf ->
  fills g (proj s0) (proj sf) (events (foldM body s0 l)).
Proof.
  intros Hbody Hrun.
  refine (foldM_inv body l (fun _ s evs => fills g (proj s0) (proj s) evs)
            _ s0 sf _ Hrun).
  - intros done a rest s evs s' _ HI Hb. eapply fills_app; eauto.
  - apply fills_nil.
Qed.

Lemma stored_from_no_store (n g i c : nat) (acc : float) (evs : list event) :
  (forall g' r c' v, Store g' r c' v ∈ evs -> False) ->
  stored_from n g i c acc evs = acc.
Proof.
  intros Hno. apply stored_from_unwritten. intros r v Hin.
  exfalso. eapply Hno, Hin.
Qed.

Section Cells.
Context `{C : Collaborators}.

Lemma AMa_fill_window_fills (fs : pyscalar) (f wl : float) (windows : array2)
    (ichan ifreq : nat) (A A' : array2) (iwin : nat) :
  outcome (AMa_fill_window fs f wl windows ichan ifreq A iwin) = Ok A' ->
  fills ichan A A' (events (AMa_fill_window fs f wl windows ichan ifreq A iwin)).
Proof.
  intros H. apply AMa_fill_window_ok in H
    as (P & p & r & i & _ & _ & _ & Hi & -> & ->).
  apply (fills_app ichan A A _ [Invoke c_periodogram] [_]).
  - apply fills_invoke.
  - apply fills_store, Hi.
Qed.

Lemma AMa_fill_freq_fills (E : array2) (fs : pyscalar) (window_NT : float)
    (f_spectra : list float) (ichan : nat) (st st' : array2 * option nat)
    (ifreq : nat) :
  outcome (AMa_fill_freq E fs window_NT f_spectra ichan st ifreq) = Ok st' ->
  fills ichan st.1 st'.1
    (events (AMa_fill_freq E fs window_NT f_spectra ichan st ifreq)).
Proof.
  intros H. unfold AMa_fill_freq in *. run_inv H. subst st'.
  events_steps. cbn [events lift invoke app mret M_ret fst].
  rewrite app_nil_r.
  apply (fills_app ichan st.1 st.1 _ [Invoke c_segment_into_windows]).
  - apply fills_invoke.
  - match goal with
    | Hl : outcome (foldM _ _ _) = Ok _ |- _ =>
        apply (foldM_fills (fun A => A) ichan _ _ _ _) in Hl; [exact Hl|]
    end.
    intros ? ? ? Hb. apply AMa_fill_window_fills, Hb.
Qed.

Lemma AMa_fill_channel_cells (E : array2) (fs : pyscalar) (window_NT : float)
    (modbank_Nmod : Z) (f_spectra : list float) (dim : Z)
    (st st' : array2 * option nat) (ichan : nat) :
  outcome (AMa_fill_channel E fs window_NT modbank_Nmod f_spectra dim st ichan)
    = Ok st' ->
  let evs := events (AMa_fill_channel E fs window_NT modbank_Nmod f_spectra
                       dim st ichan) in
  shape0 st'.1 = shape0 st.1 /\ shape1 st'.1 = shape1 st.1 /\
  (forall g r c v, Store g r c v ∈ evs -> g = ichan) /\
  forall i c,
    item st'.1 i c =
    zero_to_nan (F64.add (item st.1 i c) (stored (Z.to_nat dim) ichan i c evs)).
Proof.
  intros H evs. subst evs. unfold AMa_fill_channel in *. run_inv H. subst st'.
  events_steps. cbn [events lift app mret M_ret fst]. rewrite app_nil_r.
  match goal with Hz : np_zeros _ _ = Ok _ |- _ =>
    apply np_zeros_ok in Hz as (_ & _ & Hz0 & _ & Hzero) end.
  match goal with
  | Hl : outcome (foldM _ _ _) = Ok _ |- _ =>
      apply (foldM_fills fst ichan _ _ _ _) in Hl;
      [destruct Hl as (_ & _ & Hitem & Hg)|]
  end.
  - cbn [fst] in *. split_and!; try reflexivity; [exact Hg|].
    intros i c. unfold zeros_to_nan, iadd, zero_to_nan. cbn [item].
    rewrite Hitem, Hzero, Hz0. reflexivity.
  - intros ? ? ? Hb. apply AMa_fill_freq_fills, Hb.
Qed.

Lemma AMa_fill_pass_cells (E : array2) (fs : pyscalar) (window_NT : float)
    (modbank_Nmod : Z) (f_spectra : list float) (Nchan : nat) (dim : Z)
    (st : array2 * option nat) :
  outcome (AMa_fill_pass E fs window_NT modbank_Nmod f_spectra Nchan dim)
    = Ok st ->
  let evs := events (AMa_fill_pass E fs window_NT modbank_Nmod f_spectra
                       Nchan dim) in
  shape0 st.1 = Z.to_nat dim /\ shape1 st.1 = Z.to_nat modbank_Nmod /\
  forall i c,
    item st.1 i c =
    accumulate (map (fun g => stored (Z.to_nat dim) g i c evs) (range Nchan)).
Proof.
  intros H evs. subst evs. unfold AMa_fill_pass in *. run_inv H.
  events_steps. cbn [events lift app].
  match goal with Hz : np_zeros _ _ = Ok ?z |- _ =>
    apply np_zeros_ok in Hz as (_ & _ & Hz0 & Hz1 & Hzero); rename z into G0 end.
  pose (n := Z.to_nat dim).
  pose (I := fun (done : list nat) (s : array2 * option nat) (evs : list event) =>
    shape0 s.1 = n /\ shape1 s.1 = Z.to_nat modbank_Nmod /\
    (forall g r c v, Store g r c v ∈ evs -> g ∈ done) /\
    forall i c,
      item s.1 i c = accumulate (map (fun g => stored n g i c evs) done)).
  assert (HI : I (range Nchan) st
            (events (foldM (AMa_fill_channel E fs window_NT modbank_Nmod
                              f_spectra dim) (G0, None) (range Nchan)))).
  { refine (foldM_inv _ _ I _ _ _ _ H).
    - intros done ich rest s evs s' Hl (Hs0 & Hs1 & Hdone & Hitem) Hb.
      apply range_middle in Hl as (Hich & Hdone' & _).
      apply AMa_fill_channel_cells in Hb as (Hb0 & Hb1 & Hbg & Hbi).
      fold n in Hbi.
      assert (Hold : forall g i c, g ∈ done ->
                stored n g i c (evs ++ events (AMa_fill_channel E fs window_NT
                                   modbank_Nmod f_spectra dim s ich))
                = stored n g i c evs).
      { intros g i c Hg. unfold stored. rewrite stored_from_app.
        apply stored_from_unwritten. intros r v Hin.
        apply Hbg in Hin. subst g. rewrite Hdone' in Hg.
        apply range_elem in Hg. lia. }
      assert (Hnew : forall i c,
                stored n ich i c (evs ++ events (AMa_fill_channel E fs window_NT
                                   modbank_Nmod f_spectra dim s ich))
                = stored n ich i c (events (AMa_fill_channel E fs window_NT
                                   modbank_Nmod f_spectra dim s ich))).
      { intros i c. unfold stored. rewrite stored_from_app. f_equal.
        apply stored_from_unwritten. intros r v Hin.
        apply Hdone in Hin. rewrite Hdone' in Hin.
        apply range_elem in Hin. lia. }
      unfold I. split_and!; try congruence.
      { intros g r c v Hin. apply elem_of_app.
        apply elem_of_app in Hin as [Hin|Hin].
        - left. eapply Hdone, Hin.
        - right. apply Hbg in Hin. subst g. left. }
      { intros i c. rewrite map_app. cbn [map].
        rewrite accumulate_snoc, Hnew, Hbi, Hitem.
        f_equal. f_equal. f_equal. apply map_ext_in.
        intros g Hg. symmetry. apply Hold.
        apply list_elem_of_In. exact Hg. }
    - unfold I. cbn [fst]. split_and!; try assumption.
      intros g r c v Hin. apply elem_of_nil in Hin. contradiction. }
  destruct HI as (H0 & H1 & _ & Hitem). split_and!; assumption.
Qed.

Lemma AMa_sizing_pass_no_store (E : array2) (fs : pyscalar) (window_NT : float)
    (modbank_Nmod : Z) (f_spectra : list float) (Nchan : nat)
    (g : nat) (r : Z) (c : nat) (v : float) :
  Store g r c v ∈
    events (AMa_sizing_pass E fs window_NT modbank_Nmod f_spectra Nchan) ->
  False.
Proof.
  intros H. unfold AMa_sizing_pass in H.
  apply foldM_event_in in H as (s1 & ichan & _ & H).
  apply foldM_event_in in H as (s2 & ifreq & _ & H).
  unfold AMa_sizing_freq in H. ev_inv H.
  apply foldM_event_in in H as (s3 & iwin & _ & H).
  unfold sizing_window in H. ev_inv H.
Qed.
End Cells.

Section CellsTheorem.
Context `{C : Collaborators}.

Lemma AMa_scalogram_accumulated (sig : pyobj) (fs : pyscalar)
    (window_NT mfmin mfmax : float) (modbank_Nmod : Z) (fmin fmax : float)
    (tup : list retval) :
  outcome (AMa_scalogram sig fs window_NT mfmin mfmax modbank_Nmod fmin fmax)
    = Ok tup ->
  exists AMsgram fc f_spectra step,
    tup = [Matrix AMsgram; Vector fc; Vector f_spectra;
           Bundle (P_AMa_scalogram step)] /\
    (0 < length fc)%nat /\
    forall i c,
      item AMsgram i c =
      accumulate
        (map (fun g =>
                stored (shape0 AMsgram) g i c
                  (events (AMa_scalogram sig fs window_NT mfmin mfmax
                             modbank_Nmod fmin fmax)))
           (range (length fc))).
Proof.
  intros H. apply AMa_scalogram_ok in H
    as (gamma & fc & E & f_spectra & edges & dims & dim & AMsgram & nw & step
        & _ & _ & _ & Hsize & Hmax & Hfill & -> & _ & Hev).
  exists AMsgram, fc, f_spectra, step. split; [reflexivity|].
  split.
  - destruct (length fc) eqn:Hn; [|lia].
    unfold AMa_sizing_pass in Hsize. simpl in Hsize.
    injection Hsize as <-. discriminate Hmax.
  - apply AMa_fill_pass_cells in Hfill as (H0 & _ & Hitem).
    cbn [fst] in *. intros i c. rewrite Hitem, H0. f_equal.
    apply map_ext. intros g. rewrite Hev. unfold stored.
    rewrite !stored_from_app.
    rewrite (stored_from_no_store _ _ _ _ _ [_; _; _]).
    2:{ intros g' r c' v Hin. repeat (apply elem_of_cons in Hin as [Hin|Hin];
          [discriminate Hin|]). apply elem_of_nil in Hin. exact Hin. }
    rewrite (stored_from_no_store _ _ _ _ _ (events (AMa_sizing_pass _ _ _ _ _ _))).
    2:{ intros g' r c' v Hin. eapply AMa_sizing_pass_no_store, Hin. }
    symmetry. apply stored_from_no_store.
    intros g' r c' v Hin. apply list_elem_of_singleton in Hin. discriminate Hin.
Qed.

(** C1, as amended.  In a run of [AMa_scalogram] that returns, a cell no
    store touched reads NaN; a cell at which the running total over
    the channels is non-zero after each channel holds the sum, in
    channel order, of the channels' estimates at that cell, a channel
    that stored nothing there counting 0.0; and a cell at which the
    total of the channels' estimates is exactly zero reads NaN, written
    or not, zero being the marker of a cell without data. *)
Theorem AMa_scalogram_cells (sig : pyobj) (fs : pyscalar)
    (window_NT mfmin mfmax : float) (modbank_Nmod : Z) (fmin fmax : float)
    (tup : list retval) :
  outcome (AMa_scalogram sig fs window_NT mfmin mfmax modbank_Nmod fmin fmax)
    = Ok tup ->
  exists AMsgram fc f_spectra step,
    tup = [Matrix AMsgram; Vector fc; Vector f_spectra;
           Bundle (P_AMa_scalogram step)] /\
    let evs := events (AMa_scalogram sig fs window_NT mfmin mfmax
                         modbank_Nmod fmin fmax) in
    let estimate g i c := stored (shape0 AMsgram) g i c evs in
    forall i c, (i < shape0 AMsgram)%nat -> (c < shape1 AMsgram)%nat ->
      ((forall g r v, Store g r c v ∈ evs ->
          normalize_index (shape0 AMsgram) r <> Some i) ->
       item AMsgram i c = F64.nan) /\
      ((forall k, (0 < k <= length fc)%nat ->
          F64.eqb (channel_sum (map (fun g => estimate g i c) (range k)))
            F64.zero = false) ->
       item AMsgram i c =
       channel_sum (map (fun g => estimate g i c) (range (length fc)))) /\
      (F64.eqb (channel_sum (map (fun g => estimate g i c)
                               (range (length fc)))) F64.zero = true ->
       item AMsgram i c = F64.nan).
Proof.
  intros H. apply AMa_scalogram_accumulated in H
    as (AMsgram & fc & f_spectra & step & -> & Hfc & Hitem).
  exists AMsgram, fc, f_spectra, step. split; [reflexivity|].
  intros evs estimate i c _ _. split_and!.
  - intros Hno. rewrite Hitem. apply accumulate_zeros.
    + unfold range. destruct (length fc); [lia|discriminate].
    + intros v Hv. apply list_elem_of_fmap in Hv as (g & -> & _).
      apply stored_from_unwritten. intros r v. apply Hno.
  - intros Hnz. rewrite Hitem. apply accumulate_sum.
    intros k Hk. rewrite length_map in Hk. unfold range in Hk.
    rewrite length_seq in Hk.
    rewrite <- fmap_take. unfold range. rewrite take_seq.
    rewrite Nat.min_l by lia. apply Hnz. lia.
  - intros Hz. rewrite Hitem.
    apply (accumulate_poisoned _ (length fc)).
    + rewrite length_map. unfold range. rewrite length_seq. lia.
    + rewrite <- fmap_take. unfold range. rewrite take_seq.
      rewrite Nat.min_l by lia. exact Hz.
Qed.
End CellsTheorem.

(** * Further properties of the entry points *)

(** ** Validation of the amplitude-modulation entry points *)

Lemma div_by_scalar_numeric (x : list float) (fs : pyscalar) :
  is_int_or_float fs = true ->
  (exists t, div_by_scalar x fs = Ok t) \/
  div_by_scalar x fs = Raise OverflowError.
Proof.
  unfold div_by_scalar. destruct fs as [|s|b|n|y]; try discriminate; intros _.
  - left. eexists. reflexivity.
  - unfold to_float. destruct (F64.of_Z n);
      first [left; eexists; reflexivity | right; reflexivity].
  - left. eexists. reflexivity.
Qed.

Section ValidationExact.
Context `{C : Collaborators}.

Lemma validated_run_not_rejected {A B : Type} (sig : pyobj) (fs : pyscalar)
    (c : collaborator) (r : list float -> result A) (k : list float -> A -> M B) :
  is_ndarray sig = true -> is_int_or_float fs = true ->
  let run := (n ← lift (py_len sig);
              t ← lift (div_by_scalar (arange1 n) fs);
              a ← invoke c (r t); k t a) in
  ~ (events run = [] /\ exists msg, outcome run = Raise (ValueError msg)).
Proof.
  intros Hs Hn run. subst run.
  destruct sig as [| |a]; try discriminate Hs.
  rewrite (lift_bind_ok _ _ (length a) eq_refl).
  destruct (div_by_scalar_numeric (arange1 (length a)) fs Hn) as [[t Ht]|Ht].
  - rewrite (lift_bind_ok _ _ t Ht), invoke_bind_events.
    intros [Hev _]. discriminate Hev.
  - intros [_ [msg Hout]].
    destruct (bind_raise (lift (div_by_scalar (arange1 (length a)) fs))
                (fun t => a0 ← invoke c (r t); k t a0) OverflowError Ht)
      as [Ho _].
    rewrite Ho in Hout. discriminate Hout.
Qed.

(** X1.  The three amplitude-modulation entry points reject an input
    before any computation exactly when the signal is not an array, the
    sample rate is neither an [int] nor a [float], or the sample rate
    is [<= 0]: a run has an empty log and a [ValueError] in these cases
    and in no other, so that [fs = True] and a NaN sample rate pass.
    [AMa_scalogram] and [AMi_spectrum] word the two rejections as
    [AMa_spectrum] does. *)
Theorem AM_entry_points_reject_exactly (sig : pyobj) (fs : pyscalar)
    (window_NT mfmin mfmax : float) (modbank_Nmod : Z)
    (modbank_Qfactor fmin fmax : float) :
  let rejected (run : M (list retval)) :=
    events run = [] /\ exists msg, outcome run = Raise (ValueError msg) in
  let invalid :=
    is_ndarray sig = false \/ is_int_or_float fs = false \/ le_zero fs = true in
  (rejected (AMa_spectrum sig fs mfmin mfmax modbank_Nmod fmin fmax) <-> invalid) /\
  (rejected (AMa_scalogram sig fs window_NT mfmin mfmax modbank_Nmod fmin fmax)
     <-> invalid) /\
  (rejected (AMi_spectrum sig fs mfmin mfmax modbank_Nmod modbank_Qfactor
               fmin fmax) <-> invalid) /\
  (is_ndarray sig = false \/ is_int_or_float fs = false ->
     AMa_scalogram sig fs window_NT mfmin mfmax modbank_Nmod fmin fmax =
       mkM (Raise (ValueError "Invalid input types.")) [] /\
     AMi_spectrum sig fs mfmin mfmax modbank_Nmod modbank_Qfactor fmin fmax =
       mkM (Raise (ValueError "Invalid input types.")) []) /\
  (is_ndarray sig = true -> is_int_or_float fs = true -> le_zero fs = true ->
     AMa_scalogram sig fs window_NT mfmin mfmax modbank_Nmod fmin fmax =
       mkM (Raise (ValueError "fs must be a positive scalar.")) [] /\
     AMi_spectrum sig fs mfmin mfmax modbank_Nmod modbank_Qfactor fmin fmax =
       mkM (Raise (ValueError "fs must be a positive scalar.")) []).
Proof.
  intros rejected invalid.
  assert (Hback : invalid ->
    rejected (AMa_spectrum sig fs mfmin mfmax modbank_Nmod fmin fmax) /\
    rejected (AMa_scalogram sig fs window_NT mfmin mfmax modbank_Nmod fmin fmax) /\
    rejected (AMi_spectrum sig fs mfmin mfmax modbank_Nmod modbank_Qfactor
                fmin fmax)).
  { intros Hinv.
    destruct (AM_entry_points_validate sig fs Hinv) as (msg & H1 & H2 & H3).
    unfold rejected. rewrite H1, H2, H3. cbn [events outcome].
    split_and!; try reflexivity; exists msg; reflexivity. }
  assert (Hvalid : ~ invalid ->
    is_ndarray sig = true /\ is_int_or_float fs = true /\ le_zero fs = false).
  { unfold invalid. intros Hn.
    destruct (is_ndarray sig), (is_int_or_float fs), (le_zero fs);
      try (exfalso; apply Hn; auto; fail); auto. }
  assert (Hdec : invalid \/ ~ invalid).
  { unfold invalid.
    destruct (is_ndarray sig), (is_int_or_float fs), (le_zero fs); auto;
      right; intros [H|[H|H]]; discriminate H. }
  split_and!.
  - split; [|intros Hinv; apply Hback, Hinv].
    intros Hrej. destruct Hdec as [Hinv|Hok]; [exact Hinv|exfalso].
    destruct (Hvalid Hok) as (Hs & Hn & Hle). revert Hrej.
    unfold rejected, AMa_spectrum. rewrite Hs, Hn, Hle. cbn [negb orb].
    apply (validated_run_not_rejected sig fs c_auditory_filterbank
             (fun _ => auditory_filterbank sig fs fmin fmax)); assumption.
  - split; [|intros Hinv; apply Hback, Hinv].
    intros Hrej. destruct Hdec as [Hinv|Hok]; [exact Hinv|exfalso].
    destruct (Hvalid Hok) as (Hs & Hn & Hle). revert Hrej.
    unfold rejected, AMa_scalogram. rewrite Hs, Hn, Hle. cbn [negb orb].
    apply (validated_run_not_rejected sig fs c_auditory_filterbank
             (fun _ => auditory_filterbank sig fs fmin fmax)); assumption.
  - split; [|intros Hinv; apply Hback, Hinv].
    intros Hrej. destruct Hdec as [Hinv|Hok]; [exact Hinv|exfalso].
    destruct (Hvalid Hok) as (Hs & Hn & Hle). revert Hrej.
    unfold rejected, AMi_spectrum. rewrite Hs, Hn, Hle. cbn [negb orb].
    apply (validated_run_not_rejected sig fs c_auditory_filterbank
             (fun _ => auditory_filterbank sig fs fmin fmax)); assumption.
  - unfold AMa_scalogram, AMi_spectrum.
    intros [-> | ->]; rewrite ?orb_true_r; split; reflexivity.
  - unfold AMa_scalogram, AMi_spectrum.
    intros -> -> ->. split; reflexivity.
Qed.
End ValidationExact.

(** ** The pitch entry points before and around the tracker *)

Lemma eqb_opp_zero (x : float) :
  F64.eqb (SFopp x) F64.zero = F64.eqb x F64.zero.
Proof. destruct x as [s|s| |s m e]; try destruct s; reflexivity. Qed.


Lemma invoke_bind_ok {A B : Type} (c : collaborator) (r : result A)
    (k : A -> M B) (a : A) :
  r = Ok a -> invoke c r ≫= k = mkM (outcome (k a)) (Invoke c :: events (k a)).
Proof. intros ->. reflexivity. Qed.

Lemma lift_bind_raise {A B : Type} (r : result A) (k : A -> M B) (e : exn) :
  r = Raise e -> lift r ≫= k = mkM (Raise e) [].
Proof. intros ->. reflexivity. Qed.

Lemma bind_raise_eq {A B : Type} (m : M A) (k : A -> M B) (e : exn) :
  outcome m = Raise e -> m ≫= k = mkM (Raise e) (events m).
Proof. unfold mbind, M_bind. intros ->. reflexivity. Qed.

Lemma bind_ok_eq {A B : Type} (m : M A) (k : A -> M B) (a : A) :
  outcome m = Ok a -> m ≫= k = mkM (outcome (k a)) (events m ++ events (k a)).
Proof. unfold mbind, M_bind. intros ->. reflexivity. Qed.

Section PitchErrors.
Context `{C : Collaborators}.

(** X2.  The ceiling division [-(fs // -fmin)] that opens [f0M_spectrum]
    and [f0M_scalogram], whose result is never used, makes both raise
    before the pitch tracker is invoked: a [TypeError] when [fs] is not
    a number, and a [ZeroDivisionError] when [fs] is a number and
    [fmin] is zero. *)
Theorem f0M_ceiling_division_raises (sig : pyobj) (fs : pyscalar)
    (window_NT mfmin mfmax : float) (modbank_Nmod undersample : Z)
    (fmin fmax yin_thresh ap0_thresh max_jump min_duration : float) :
  (is_int_or_float fs = false ->
     exists msg,
       f0M_spectrum sig fs mfmin mfmax modbank_Nmod undersample fmin fmax
         yin_thresh ap0_thresh max_jump min_duration =
         mkM (Raise (TypeError msg)) [] /\
       f0M_scalogram sig fs window_NT mfmin mfmax modbank_Nmod undersample fmin
         fmax yin_thresh ap0_thresh max_jump min_duration =
         mkM (Raise (TypeError msg)) []) /\
  (is_int_or_float fs = true -> F64.eqb fmin F64.zero = true ->
     f0M_spectrum sig fs mfmin mfmax modbank_Nmod undersample fmin fmax
       yin_thresh ap0_thresh max_jump min_duration =
       mkM (Raise ZeroDivisionError) [] /\
     f0M_scalogram sig fs window_NT mfmin mfmax modbank_Nmod undersample fmin
       fmax yin_thresh ap0_thresh max_jump min_duration =
       mkM (Raise ZeroDivisionError) []).
Proof.
  unfold f0M_spectrum, f0M_scalogram, floordiv_check. split.
  - intros Hn. eexists.
    destruct fs; try discriminate Hn; split; reflexivity.
  - intros Hn H0. rewrite eqb_opp_zero, H0.
    destruct fs; try discriminate Hn; split; reflexivity.
Qed.

Lemma floordiv_check_ok (fs : pyscalar) (fmin : float) :
  is_int_or_float fs = true -> F64.eqb fmin F64.zero = false ->
  floordiv_check fs (SFopp fmin) = Ok tt.
Proof.
  intros Hn H0. unfold floordiv_check. rewrite eqb_opp_zero, H0.
  destruct fs; try discriminate Hn; reflexivity.
Qed.

(** X3.  Once the pitch tracker has answered, both pitch entry points
    stop before [remove_artifacts] is invoked, with the tracker's call
    alone in the log, in two cases: with an [IndexError] when the
    aperiodicity [ap0] and the track differ in length (the gate
    [f0[ap0 > ap0_thresh] = nan] indexes the track by a mask of the
    length of [ap0]), and with a [ZeroDivisionError] when they agree
    in length and [undersample] is 0 (the rate [fs / undersample]). *)
Theorem f0M_gate_and_rate_errors (sig : pyobj) (fs : pyscalar)
    (window_NT mfmin mfmax : float) (modbank_Nmod undersample : Z)
    (fmin fmax yin_thresh ap0_thresh max_jump min_duration : float)
    (track ap0 : list float) (x : float) :
  is_int_or_float fs = true -> F64.eqb fmin F64.zero = false ->
  to_float fs = Ok x ->
  mock_yin sig fs fmin fmax yin_thresh undersample = Ok (track, ap0) ->
  let spectrum :=
    f0M_spectrum sig fs mfmin mfmax modbank_Nmod undersample fmin fmax
      yin_thresh ap0_thresh max_jump min_duration in
  let scalogram :=
    f0M_scalogram sig fs window_NT mfmin mfmax modbank_Nmod undersample fmin
      fmax yin_thresh ap0_thresh max_jump min_duration in
  (length ap0 <> length track ->
     exists msg,
       spectrum = mkM (Raise (IndexError msg)) [Invoke c_mock_yin] /\
       scalogram = mkM (Raise (IndexError msg)) [Invoke c_mock_yin]) /\
  (length ap0 = length track -> undersample = 0 ->
     spectrum = mkM (Raise ZeroDivisionError) [Invoke c_mock_yin] /\
     scalogram = mkM (Raise ZeroDivisionError) [Invoke c_mock_yin]).
Proof.
  intros Hn H0 Hx Hyin spectrum scalogram. subst spectrum scalogram.
  pose proof (floordiv_check_ok fs fmin Hn H0) as Hw.
  unfold f0M_spectrum, f0M_scalogram.
  rewrite !(lift_bind_ok _ _ tt Hw), !(invoke_bind_ok _ _ _ _ Hyin).
  cbv beta iota.
  split.
  - intros Hlen.
    assert (Htrack : f0_track fs undersample fmin fmax ap0_thresh max_jump
                       min_duration track ap0 =
                     mkM (Raise (IndexError "boolean index did not match indexed array")) []).
    { unfold f0_track. apply lift_bind_raise. unfold mask_assign_nan.
      rewrite !length_map. apply Nat.eqb_neq in Hlen. rewrite Hlen. reflexivity. }
    rewrite !(bind_raise_eq _ _ _ (f_equal outcome Htrack)), Htrack.
    eexists. split; reflexivity.
  - intros Hlen ->.
    assert (Htrack : f0_track fs 0 fmin fmax ap0_thresh max_jump
                       min_duration track ap0 =
                     mkM (Raise ZeroDivisionError) []).
    { unfold f0_track. erewrite lift_bind_ok.
      - apply lift_bind_raise. unfold py_truediv. rewrite Hx. reflexivity.
      - unfold mask_assign_nan. rewrite !length_map, Hlen, Nat.eqb_refl.
        reflexivity. }
    rewrite !(bind_raise_eq _ _ _ (f_equal outcome Htrack)), Htrack.
    split; reflexivity.
Qed.

(** X4.  When the track is longer than the undersampled time axis
    ([ceil(n / undersample)] items for a signal of [n] samples),
    lines 133-138 raise an [IndexError]: the mask [~isnan(f0)] has one
    item per sample of the track and indexes a shorter axis. *)
Theorem drop_missing_track_too_long (sig : pyobj) (fs : pyscalar)
    (undersample : Z) (f0 : list float) (n : nat) (t : list float) :
  py_len sig = Ok n ->
  div_by_scalar (arange1 n) fs = Ok t ->
  0 < undersample ->
  ((n + Z.to_nat undersample - 1) / Z.to_nat undersample < length f0)%nat ->
  exists msg, drop_missing sig fs undersample f0 = Raise (IndexError msg).
Proof.
  intros Hn Ht Hpos Hlen.
  assert (Hlt : length t = n).
  { unfold div_by_scalar in Ht. destruct (to_float fs); [|discriminate Ht].
    injection Ht as <-. unfold arange1. rewrite !length_map, length_seq. reflexivity. }
  destruct (slice_step_pos t undersample Hpos) as (sub & Hsub & Hsl & _).
  rewrite Hlt in Hsl.
  unfold drop_missing. rewrite Hn, Ht, Hsub. unfold mask_select, not_nan.
  rewrite length_map, length_take.
  destruct (Nat.eqb_spec (length f0) (length f0 `min` length sub)) as [E|E];
    [lia|eexists; reflexivity].
Qed.
End PitchErrors.

(** ** Shapes in AMi_spectrum *)

Section Shapes_AMi.
Context `{C : Collaborators}.

(** X5.  [AMi_spectrum] divides [AMrms.T], whose shape is the second
    then the first dimension of the modulation filterbank's output, by
    a matrix of shape (Nchan, len(mf)).  When these shapes are not
    broadcast-compatible the run raises a [ValueError] right after the
    modulation filterbank's call: [aud_filt_bw] is never invoked and
    nothing is returned. *)
Theorem AMi_spectrum_shape_mismatch (sig : pyobj) (fs : pyscalar)
    (mfmin mfmax : float) (modbank_Nmod : Z) (modbank_Qfactor : float)
    (fmin fmax : float) (n : nat) (t : list float)
    (gamma_responses : array2) (fc : list float) (E : array2)
    (AMfilt : array3) (mf : list float) :
  is_ndarray sig = true -> is_int_or_float fs = true -> le_zero fs = false ->
  py_len sig = Ok n ->
  div_by_scalar (arange1 n) fs = Ok t ->
  auditory_filterbank sig fs fmin fmax = Ok (gamma_responses, fc) ->
  abs_hilbert gamma_responses = Ok E ->
  king2019_modfilterbank_updated (transpose E) fs mfmin mfmax modbank_Nmod
    modbank_Qfactor = Ok (AMfilt, mf) ->
  broadcast_dim (dim1 AMfilt) (shape0 E) = None \/
  broadcast_dim (dim0 AMfilt) (length mf) = None ->
  exists msg,
    AMi_spectrum sig fs mfmin mfmax modbank_Nmod modbank_Qfactor fmin fmax =
    mkM (Raise (ValueError msg))
      [Invoke c_auditory_filterbank; Invoke c_hilbert;
       Invoke c_king2019_modfilterbank_updated].
Proof.
  intros Hs Hn Hle Hlen Ht Hfb Hh Hk Hbad.
  exists "operands could not be broadcast together".
  unfold AMi_spectrum. rewrite Hs, Hn, Hle. cbn [negb orb].
  rewrite (lift_bind_ok _ _ _ Hlen), (lift_bind_ok _ _ _ Ht).
  rewrite (invoke_bind_ok _ _ _ _ Hfb). cbv beta iota.
  rewrite (invoke_bind_ok _ _ _ _ Hh).
  rewrite (invoke_bind_ok _ _ _ _ Hk). cbv beta iota zeta.
  erewrite lift_bind_raise; [reflexivity|].
  unfold broadcast_div. cbn [shape0 shape1 transpose AMrms_of DC_matrix].
  unfold mean_axis0. rewrite length_map, length_seq. cbn [shape1 transpose].
  destruct Hbad as [-> | ->]; [reflexivity|].
  destruct (broadcast_dim (dim1 AMfilt) (shape0 E)); reflexivity.
Qed.
End Shapes_AMi.

(** ** The call sequences of the spectrum entry points *)

Lemma foldM_events_each {A S : Type} (body : S -> A -> M S) (ev : event)
    (l : list A) (s sf : S) :
  (forall s a s', outcome (body s a) = Ok s' -> events (body s a) = [ev]) ->
  outcome (foldM body s l) = Ok sf ->
  events (foldM body s l) = replicate (length l) ev.
Proof.
  intros Hbody Hrun.
  refine (foldM_inv body l (fun done _ evs => evs = replicate (length done) ev)
            _ s sf eq_refl Hrun).
  intros done a rest s1 evs s' _ -> Hb.
  rewrite (Hbody _ _ _ Hb), length_app, Nat.add_1_r.
  rewrite replicate_S_end. reflexivity.
Qed.

Section CallSequences.
Context `{C : Collaborators}.

Lemma AMa_spectrum_channel_events (E : array2) (fs : pyscalar)
    (f_spectra : list float) (A : array2) (ichan : nat) (A' : array2) :
  outcome (AMa_spectrum_channel E fs f_spectra A ichan) = Ok A' ->
  events (AMa_spectrum_channel E fs f_spectra A ichan) = [Invoke c_periodogram].
Proof.
  intros H. unfold AMa_spectrum_channel in *. run_inv H.
  events_steps. reflexivity.
Qed.

(** X6.  The collaborators a returning spectrum run invoked, in order.
    [AMa_spectrum]: the filterbank, the Hilbert envelope, the modulation
    axis, then [periodogram] once per channel, then [aud_filt_bw].
    [AMi_spectrum]: the filterbank, the Hilbert envelope, the modulation
    filterbank, [aud_filt_bw].  [f0M_spectrum]: the pitch tracker,
    [remove_artifacts], the modulation axis, [lombscargle],
    [interpmean]. *)
Theorem spectrum_call_sequences :
  (forall sig fs mfmin mfmax Nmod fmin fmax tup,
     outcome (AMa_spectrum sig fs mfmin mfmax Nmod fmin fmax) = Ok tup ->
     exists fc,
       tup !! 1%nat = Some (Vector fc) /\
       events (AMa_spectrum sig fs mfmin mfmax Nmod fmin fmax) =
       [Invoke c_auditory_filterbank; Invoke c_hilbert;
        Invoke c_define_modulation_axis]
       ++ replicate (length fc) (Invoke c_periodogram)
       ++ [Invoke c_aud_filt_bw]) /\
  (forall sig fs mfmin mfmax Nmod Q fmin fmax tup,
     outcome (AMi_spectrum sig fs mfmin mfmax Nmod Q fmin fmax) = Ok tup ->
     events (AMi_spectrum sig fs mfmin mfmax Nmod Q fmin fmax) =
     [Invoke c_auditory_filterbank; Invoke c_hilbert;
      Invoke c_king2019_modfilterbank_updated; Invoke c_aud_filt_bw]) /\
  (forall sig fs mfmin mfmax Nmod undersample fmin fmax yin_thresh ap0_thresh
          max_jump min_duration tup,
     outcome (f0M_spectrum sig fs mfmin mfmax Nmod undersample fmin fmax
                yin_thresh ap0_thresh max_jump min_duration) = Ok tup ->
     events (f0M_spectrum sig fs mfmin mfmax Nmod undersample fmin fmax
               yin_thresh ap0_thresh max_jump min_duration) =
     [Invoke c_mock_yin; Invoke c_remove_artifacts;
      Invoke c_define_modulation_axis; Invoke c_lombscargle;
      Invoke c_interpmean]).
Proof.
  split_and!.
  - intros sig fs mfmin mfmax Nmod fmin fmax tup H.
    unfold AMa_spectrum in *. run_inv H. subst tup.
    eexists. split; [reflexivity|].
    events_steps. cbn [events lift invoke mret M_ret app].
    match goal with
    | Hl : outcome (foldM _ _ _) = Ok _ |- _ =>
        rewrite (foldM_events_each _ (Invoke c_periodogram) _ _ _
                   (AMa_spectrum_channel_events _ _ _) Hl)
    end.
    unfold range. rewrite length_seq. reflexivity.
  - intros sig fs mfmin mfmax Nmod Q fmin fmax tup H.
    unfold AMi_spectrum in *. run_inv H.
    events_steps. reflexivity.
  - intros sig fs mfmin mfmax Nmod undersample fmin fmax yin_thresh ap0_thresh
      max_jump min_duration tup H.
    unfold f0M_spectrum in *. run_inv H.
    events_steps.
    match goal with
    | Ht : outcome (f0_track _ _ _ _ _ _ _ _ _) = Ok _ |- _ =>
        unfold f0_track in *; run_inv Ht
    end.
    events_steps. reflexivity.
Qed.
End CallSequences.

(** ** The collaborators an entry point may invoke *)

Ltac call_inv H :=
  repeat first
    [ match type of H with
      | _ ∈ events (lift _) => apply elem_of_nil in H; contradiction
      | _ ∈ events (mret _) => apply elem_of_nil in H; contradiction
      | _ ∈ events (raise _) => apply elem_of_nil in H; contradiction
      | _ ∈ events (invoke _ _) =>
          apply list_elem_of_singleton in H; injection H as ->
      | _ ∈ events (store _ _ _ _ _) =>
          apply list_elem_of_singleton in H; discriminate H
      | _ ∈ events (if ?c then _ else _) => destruct c
      | _ ∈ events (mbind _ _) =>
          let a := fresh "a" in
          let Ha := fresh "Hrun" in
          apply bind_event_in in H; destruct H as [H | (a & Ha & H)];
          [|leaf_inv Ha]
      | _ ∈ events (let '(_, _) := ?x in _) => destruct x
      | _ ∈ events (match ?x with (_, _) => _ end) => destruct x
      | _ ∈ events (foldM _ _ _) =>
          let s := fresh "s" in
          let a := fresh "a" in
          apply foldM_event_in in H; destruct H as (s & a & _ & H)
      end
    | progress (cbv beta zeta in H) ].

Ltac listed := apply list_elem_of_In; simpl; tauto.

Section Invocations.
Context `{C : Collaborators}.

(** X7.  Whatever the arguments and whether the run returns or raises,
    each entry point invokes collaborators of its own pipeline only.
    The amplitude-modulation entry points never invoke the pitch
    tracker, [remove_artifacts], [lombscargle] or [interpmean]; the
    pitch entry points never invoke the filterbank, the Hilbert
    envelope, [periodogram], the modulation filterbank or
    [aud_filt_bw]; only the scalograms segment; and [f0M_scalogram]
    never invokes [interpmean]. *)
Theorem entry_points_invoke_only (c : collaborator) :
  (forall sig fs mfmin mfmax Nmod fmin fmax,
     Invoke c ∈ events (AMa_spectrum sig fs mfmin mfmax Nmod fmin fmax) ->
     c ∈ [c_auditory_filterbank; c_hilbert; c_define_modulation_axis;
          c_periodogram; c_aud_filt_bw]) /\
  (forall sig fs window_NT mfmin mfmax Nmod fmin fmax,
     Invoke c ∈ events (AMa_scalogram sig fs window_NT mfmin mfmax Nmod
                          fmin fmax) ->
     c ∈ [c_auditory_filterbank; c_hilbert; c_define_modulation_axis;
          c_segment_into_windows; c_periodogram; c_aud_filt_bw]) /\
  (forall sig fs mfmin mfmax Nmod Q fmin fmax,
     Invoke c ∈ events (AMi_spectrum sig fs mfmin mfmax Nmod Q fmin fmax) ->
     c ∈ [c_auditory_filterbank; c_hilbert;
          c_king2019_modfilterbank_updated; c_aud_filt_bw]) /\
  (forall sig fs mfmin mfmax Nmod undersample fmin fmax yin_thresh ap0_thresh
          max_jump min_duration,
     Invoke c ∈ events (f0M_spectrum sig fs mfmin mfmax Nmod undersample fmin
                          fmax yin_thresh ap0_thresh max_jump min_duration) ->
     c ∈ [c_mock_yin; c_remove_artifacts; c_define_modulation_axis;
          c_lombscargle; c_interpmean]) /\
  (forall sig fs window_NT mfmin mfmax Nmod undersample fmin fmax yin_thresh
          ap0_thresh max_jump min_duration,
     Invoke c ∈ events (f0M_scalogram sig fs window_NT mfmin mfmax Nmod
                          undersample fmin fmax yin_thresh ap0_thresh max_jump
                          min_duration) ->
     c ∈ [c_mock_yin; c_remove_artifacts; c_define_modulation_axis;
          c_segment_into_windows; c_lombscargle]).
Proof.
  split_and!.
  - intros sig fs mfmin mfmax Nmod fmin fmax H.
    unfold AMa_spectrum in H. call_inv H; try listed.
    unfold AMa_spectrum_channel in H. call_inv H; listed.
  - intros sig fs window_NT mfmin mfmax Nmod fmin fmax H.
    unfold AMa_scalogram in H. call_inv H; try listed.
    + unfold AMa_sizing_pass in H. call_inv H.
      unfold AMa_sizing_freq in H. call_inv H; try listed.
      unfold sizing_window in H. call_inv H.
    + unfold AMa_fill_pass in H. call_inv H.
      unfold AMa_fill_channel in H. call_inv H.
      unfold AMa_fill_freq in H. call_inv H; try listed.
      unfold AMa_fill_window in H. call_inv H; listed.
  - intros sig fs mfmin mfmax Nmod Q fmin fmax H.
    unfold AMi_spectrum in H. call_inv H; listed.
  - intros sig fs mfmin mfmax Nmod undersample fmin fmax yin_thresh ap0_thresh
      max_jump min_duration H.
    unfold f0M_spectrum in H. call_inv H; try listed.
    unfold f0_track in H. call_inv H; listed.
  - intros sig fs window_NT mfmin mfmax Nmod undersample fmin fmax yin_thresh
      ap0_thresh max_jump min_duration H.
    unfold f0M_scalogram in H. call_inv H; try listed.
    + unfold f0_track in H. call_inv H; listed.
    + unfold f0M_sizing_pass in H. call_inv H.
      unfold f0M_sizing_freq in H. call_inv H; try listed.
      unfold sizing_window in H. call_inv H.
    + unfold f0M_fill_pass in H. call_inv H.
      unfold f0M_fill_freq in H. call_inv H; try listed.
      unfold f0M_fill_window in H. call_inv H; listed.
Qed.
End Invocations.

(** ** Scalograms without a window *)

Lemma mret_bind {A B : Type} (a : A) (k : A -> M B) : mret a ≫= k = k a.
Proof. unfold mbind, M_bind, mret, M_ret. simpl. destruct (k a); reflexivity. Qed.

Lemma foldM_skip {A S : Type} (body : S -> A -> M S) (s : S) (l : list A) :
  (forall s a, body s a = mret s) -> foldM body s l = mret s.
Proof.
  intros Hbody. induction l as [|a l IH]; [reflexivity|].
  simpl. rewrite Hbody, mret_bind. exact IH.
Qed.

Section NoWindow.
Context `{C : Collaborators}.

Lemma f0_track_ok (fs : pyscalar) (undersample : Z) (fmin fmax : float)
    (ap0_thresh max_jump min_duration : float) (track ap0 f0 : list float) :
  outcome (f0_track fs undersample fmin fmax ap0_thresh max_jump min_duration
             track ap0) = Ok f0 ->
  (exists fs_yin, py_truediv fs undersample = Ok fs_yin) /\
  events (f0_track fs undersample fmin fmax ap0_thresh max_jump min_duration
            track ap0) = [Invoke c_remove_artifacts].
Proof.
  intros H. unfold f0_track in *. run_inv H. split; [eauto|].
  events_steps. reflexivity.
Qed.

(** X8.  A scalogram that has no window to size raises instead of
    returning an empty grid.  In [AMa_scalogram], when the filterbank
    yields no channel or [modbank_Nmod <= 0], the sizing pass segments
    nothing, [max(dims)] raises a [ValueError] on the empty list, and
    the log holds the calls of the filterbank, the Hilbert envelope and
    the modulation axis only.  In [f0M_scalogram], when
    [modbank_Nmod <= 0], the run ends in a [ValueError] after the calls
    of the pitch tracker, [remove_artifacts] and the modulation axis. *)
Theorem scalogram_without_window_raises :
  (forall sig fs window_NT mfmin mfmax modbank_Nmod fmin fmax n t
          gamma_responses fc E f_spectra f_spectra_intervals,
     is_ndarray sig = true -> is_int_or_float fs = true -> le_zero fs = false ->
     py_len sig = Ok n ->
     div_by_scalar (arange1 n) fs = Ok t ->
     auditory_filterbank sig fs fmin fmax = Ok (gamma_responses, fc) ->
     abs_hilbert gamma_responses = Ok E ->
     define_modulation_axis mfmin mfmax modbank_Nmod =
       Ok (f_spectra, f_spectra_intervals) ->
     fc = [] \/ modbank_Nmod <= 0 ->
     exists msg,
       AMa_scalogram sig fs window_NT mfmin mfmax modbank_Nmod fmin fmax =
       mkM (Raise (ValueError msg))
         [Invoke c_auditory_filterbank; Invoke c_hilbert;
          Invoke c_define_modulation_axis]) /\
  (forall sig fs window_NT mfmin mfmax modbank_Nmod undersample fmin fmax
          yin_thresh ap0_thresh max_jump min_duration track ap0 f0 f_spectra
          f_spectra_intervals,
     is_int_or_float fs = true -> F64.eqb fmin F64.zero = false ->
     mock_yin sig fs fmin fmax yin_thresh undersample = Ok (track, ap0) ->
     outcome (f0_track fs undersample fmin fmax ap0_thresh max_jump
                min_duration track ap0) = Ok f0 ->
     define_modulation_axis mfmin mfmax modbank_Nmod =
       Ok (f_spectra, f_spectra_intervals) ->
     modbank_Nmod <= 0 ->
     exists msg,
       f0M_scalogram sig fs window_NT mfmin mfmax modbank_Nmod undersample fmin
         fmax yin_thresh ap0_thresh max_jump min_duration =
       mkM (Raise (ValueError msg))
         [Invoke c_mock_yin; Invoke c_remove_artifacts;
          Invoke c_define_modulation_axis]).
Proof.
  split.
  - intros sig fs window_NT mfmin mfmax modbank_Nmod fmin fmax n t gamma fc E
      f_spectra edges Hs Hn Hle Hlen Ht Hfb Hh Hax Hempty.
    assert (Hsize : AMa_sizing_pass E fs window_NT modbank_Nmod f_spectra
                      (length fc) = mret []).
    { unfold AMa_sizing_pass. destruct Hempty as [-> | Hmod]; [reflexivity|].
      apply foldM_skip. intros dims ichan.
      replace (Z.to_nat modbank_Nmod) with 0%nat by lia. reflexivity. }
    exists "max() arg is an empty sequence".
    unfold AMa_scalogram. rewrite Hs, Hn, Hle. cbn [negb orb].
    rewrite (lift_bind_ok _ _ _ Hlen), (lift_bind_ok _ _ _ Ht).
    rewrite (invoke_bind_ok _ _ _ _ Hfb). cbv beta iota.
    rewrite (invoke_bind_ok _ _ _ _ Hh).
    rewrite (invoke_bind_ok _ _ _ _ Hax). cbv beta iota zeta.
    rewrite Hsize, mret_bind. reflexivity.
  - intros sig fs window_NT mfmin mfmax modbank_Nmod undersample fmin fmax
      yin_thresh ap0_thresh max_jump min_duration track ap0 f0 f_spectra edges
      Hn H0 Hyin Htrack Hax Hmod.
    destruct (f0_track_ok _ _ _ _ _ _ _ _ _ _ Htrack) as [[fs_yin Hdiv] Hev].
    exists "max() arg is an empty sequence".
    unfold f0M_scalogram.
    rewrite (lift_bind_ok _ _ tt (floordiv_check_ok fs fmin Hn H0)).
    rewrite (invoke_bind_ok _ _ _ _ Hyin). cbv beta iota.
    rewrite (bind_ok_eq _ _ _ Htrack), Hev.
    rewrite (invoke_bind_ok _ _ _ _ Hax). cbv beta iota.
    rewrite (lift_bind_ok _ _ _ Hdiv). cbv zeta.
    unfold f0M_sizing_pass.
    replace (Z.to_nat modbank_Nmod) with 0%nat by lia.
    cbn [range seq foldM]. rewrite mret_bind. reflexivity.
Qed.
End NoWindow.

(** ** Where the entries of [dims] come from *)

Lemma foldM_ok_origin {A : Type} (body : list Z -> A -> M (list Z))
    (Q : A -> Z -> Prop) (l : list A) (s sf : list Z) :
  (forall s a s', outcome (body s a) = Ok s' ->
     forall d, d ∈ s' -> d ∈ s \/ Q a d) ->
  outcome (foldM body s l) = Ok sf ->
  forall d, d ∈ sf -> d ∈ s \/ exists a, a ∈ l /\ Q a d.
Proof.
  intros Hbody Hrun.
  refine (foldM_inv body l
            (fun done s' _ => forall d, d ∈ s' ->
               d ∈ s \/ exists a, a ∈ done /\ Q a d)
            _ s sf _ Hrun).
  - intros done a rest s1 evs s' _ HI Hb d Hd.
    destruct (Hbody _ _ _ Hb d Hd) as [Hin|HQ].
    + destruct (HI d Hin) as [H0|(b & Hb' & HQ)]; [left; exact H0|].
      right. exists b. split; [apply elem_of_app; left; exact Hb'|exact HQ].
    + right. exists a. split; [apply elem_of_app; right; left|exact HQ].
  - intros d Hd. left. exact Hd.
Qed.

Lemma py_max_in (dims : list Z) (dim : Z) :
  py_max dims = Ok dim -> dim ∈ dims.
Proof.
  unfold py_max. destruct dims as [|d0 ds]; [discriminate|].
  intros H. injection H as <-.
  revert d0. induction ds as [|x ds IH]; intros d0; cbn [foldl]; [left|].
  specialize (IH (Z.max d0 x)). apply elem_of_cons in IH as [IH|IH].
  - rewrite IH. destruct (Z.max_spec d0 x) as [[_ ->]|[_ ->]]; [right; left|left].
  - right. right. exact IH.
Qed.

Section SizingOrigin.
Context `{C : Collaborators}.

Lemma sizing_windows_origin (wl : float) (n : nat) (dims dims' : list Z) (d : Z) :
  outcome (foldM (sizing_window wl) dims (range n)) = Ok dims' ->
  d ∈ dims' ->
  d ∈ dims \/
  exists iwin r, (iwin < n)%nat /\ half_window wl = Ok r /\
                 d = Z.of_nat iwin + r + 1.
Proof.
  intros H Hd.
  pose (Q := fun (iwin : nat) (d : Z) =>
    exists r, half_window wl = Ok r /\ d = Z.of_nat iwin + r + 1).
  assert (Hstep : forall s a s', outcome (sizing_window wl s a) = Ok s' ->
            forall d, d ∈ s' -> d ∈ s \/ Q a d).
  { intros s a s' Hb d' Hd'.
    apply sizing_window_ok in Hb as (r & Hr & ->).
    apply elem_of_app in Hd' as [Hd'|Hd']; [left; exact Hd'|].
    right. apply list_elem_of_singleton in Hd'. exists r. split; assumption. }
  destruct (foldM_ok_origin _ Q _ _ _ Hstep H d Hd)
    as [H0|(iwin & Hi & r & Hr & ->)]; [left; exact H0|].
  right. apply range_elem in Hi. eauto.
Qed.

Lemma AMa_sizing_pass_origin (E : array2) (fs : pyscalar) (window_NT : float)
    (modbank_Nmod : Z) (f_spectra : list float) (Nchan : nat)
    (dims : list Z) (d : Z) :
  outcome (AMa_sizing_pass E fs window_NT modbank_Nmod f_spectra Nchan) = Ok dims ->
  d ∈ dims ->
  exists ichan ifreq f windows iwin r,
    (ichan < Nchan)%nat /\ (ifreq < Z.to_nat modbank_Nmod)%nat /\
    f_spectra !! ifreq = Some f /\
    segment_into_windows (row E ichan) fs (window_length_of window_NT f)
      shift true = Ok windows /\
    (iwin < shape0 windows)%nat /\
    half_window (window_length_of window_NT f) = Ok r /\
    d = Z.of_nat iwin + r + 1.
Proof.
  intros H Hd. unfold AMa_sizing_pass in H.
  pose (Qf := fun (ichan ifreq : nat) (d : Z) =>
    exists f windows iwin r,
      f_spectra !! ifreq = Some f /\
      segment_into_windows (row E ichan) fs (window_length_of window_NT f)
        shift true = Ok windows /\
      (iwin < shape0 windows)%nat /\
      half_window (window_length_of window_NT f) = Ok r /\
      d = Z.of_nat iwin + r + 1).
  assert (Hfreq : forall ichan s a s',
    outcome (AMa_sizing_freq E fs window_NT f_spectra ichan s a) = Ok s' ->
    forall d, d ∈ s' -> d ∈ s \/ Qf ichan a d).
  { intros ichan s a s' Hb d' Hd'. unfold AMa_sizing_freq in Hb. run_inv Hb.
    match goal with Hg : get _ _ = Ok _ |- _ => apply get_ok in Hg end.
    match goal with Hg : get_row _ _ = Ok _ |- _ =>
      apply get_row_ok in Hg as [_ ->] end.
    destruct (sizing_windows_origin _ _ _ _ _ Hb Hd')
      as [H0|(iwin & r & Hi & Hr & ->)]; [left; exact H0|].
    right. unfold Qf. do 4 eexists. split_and!; try eassumption; reflexivity. }
  pose (Qc := fun (ichan : nat) (d : Z) =>
    exists ifreq, (ifreq < Z.to_nat modbank_Nmod)%nat /\ Qf ichan ifreq d).
  assert (Hchan : forall s a s',
    outcome (foldM (AMa_sizing_freq E fs window_NT f_spectra a) s
               (range (Z.to_nat modbank_Nmod))) = Ok s' ->
    forall d, d ∈ s' -> d ∈ s \/ Qc a d).
  { intros s a s' Hb d' Hd'.
    destruct (foldM_ok_origin _ (Qf a) _ _ _ (Hfreq a) Hb d' Hd')
      as [H0|(ifreq & Hif & HQ)]; [left; exact H0|].
    right. exists ifreq. split; [apply range_elem; exact Hif|exact HQ]. }
  destruct (foldM_ok_origin _ Qc _ _ _ Hchan H d Hd)
    as [H0|(ichan & Hic & ifreq & Hif & f & windows & iwin & r & HQ)].
  - apply elem_of_nil in H0. contradiction.
  - apply range_elem in Hic. exists ichan, ifreq, f, windows, iwin, r.
    split_and!; try assumption; apply HQ.
Qed.

Lemma f0M_sizing_pass_origin (f0 : list float) (fs_yin : float)
    (window_NT : float) (modbank_Nmod : Z) (f_spectra : list float)
    (dims : list Z) (d : Z) :
  outcome (f0M_sizing_pass f0 fs_yin window_NT modbank_Nmod f_spectra) = Ok dims ->
  d ∈ dims ->
  exists ifreq f windows iwin r,
    (ifreq < Z.to_nat modbank_Nmod)%nat /\
    f_spectra !! ifreq = Some f /\
    segment_into_windows f0 (PyFloat fs_yin) (window_length_of window_NT f)
      shift false = Ok windows /\
    (iwin < shape0 windows)%nat /\
    half_window (window_length_of window_NT f) = Ok r /\
    d = Z.of_nat iwin + r + 1.
Proof.
  intros H Hd. unfold f0M_sizing_pass in H.
  pose (Q := fun (ifreq : nat) (d : Z) =>
    exists f windows iwin r,
      f_spectra !! ifreq = Some f /\
      segment_into_windows f0 (PyFloat fs_yin)
        (window_length_of window_NT f) shift false = Ok windows /\
      (iwin < shape0 windows)%nat /\
      half_window (window_length_of window_NT f) = Ok r /\
      d = Z.of_nat iwin + r + 1).
  assert (Hstep : forall s a s',
    outcome (f0M_sizing_freq f0 fs_yin window_NT f_spectra s a) = Ok s' ->
    forall d, d ∈ s' -> d ∈ s \/ Q a d).
  { intros s a s' Hb d' Hd'. unfold f0M_sizing_freq in Hb. run_inv Hb.
    match goal with Hg : get _ _ = Ok _ |- _ => apply get_ok in Hg end.
    destruct (sizing_windows_origin _ _ _ _ _ Hb Hd')
      as [H0|(iwin & r & Hi & Hr & ->)]; [left; exact H0|].
    right. unfold Q. do 4 eexists. split_and!; try eassumption; reflexivity. }
  destruct (foldM_ok_origin _ Q _ _ _ Hstep H d Hd)
    as [H0|(ifreq & Hif & f & windows & iwin & r & HQ)].
  - apply elem_of_nil in H0. contradiction.
  - apply range_elem in Hif. exists ifreq, f, windows, iwin, r.
    split_and!; try assumption; apply HQ.
Qed.
End SizingOrigin.

(** ** The stores of a scalogram run *)

Section StoresOfRuns.
Context `{C : Collaborators}.

Lemma f0M_sizing_pass_no_store (f0 : list float) (fs_yin : float)
    (window_NT : float) (modbank_Nmod : Z) (f_spectra : list float)
    (g : nat) (r : Z) (c : nat) (v : float) :
  Store g r c v ∈
    events (f0M_sizing_pass f0 fs_yin window_NT modbank_Nmod f_spectra) ->
  False.
Proof.
  intros H. unfold f0M_sizing_pass in H.
  apply foldM_event_in in H as (s2 & ifreq & _ & H).
  unfold f0M_sizing_freq in H. ev_inv H.
  apply foldM_event_in in H as (s3 & iwin & _ & H).
  unfold sizing_window in H. ev_inv H.
Qed.

Lemma f0_track_no_store (fs : pyscalar) (undersample : Z) (fmin fmax : float)
    (ap0_thresh max_jump min_duration : float) (track ap0 : list float)
    (g : nat) (r : Z) (c : nat) (v : float) :
  Store g r c v ∈
    events (f0_track fs undersample fmin fmax ap0_thresh max_jump min_duration
              track ap0) ->
  False.
Proof. intros H. unfold f0_track in H. ev_inv H. Qed.

(** X9.  Whether the run returns or raises, every store a scalogram
    attempts is the estimate of a window.  In [AMa_scalogram] a store
    of channel [g] at column [c] has [g] below the number of channels
    and [c] below [modbank_Nmod], its value is 2 times the second
    value of the periodogram of a window of the envelope row [g]
    segmented at the frequency [f_spectra[c]], and its row is the
    index of that window plus the half-window offset.  In
    [f0M_scalogram] the same holds for the windows of the cleaned
    pitch track and [lombscargle]. *)
Theorem scalogram_stores_are_window_estimates (g : nat) (r : Z) (c : nat)
    (v : float) :
  (forall sig fs window_NT mfmin mfmax modbank_Nmod fmin fmax,
     Store g r c v ∈
       events (AMa_scalogram sig fs window_NT mfmin mfmax modbank_Nmod
                 fmin fmax) ->
     exists gamma_responses fc E f_spectra f_spectra_intervals,
       auditory_filterbank sig fs fmin fmax = Ok (gamma_responses, fc) /\
       abs_hilbert gamma_responses = Ok E /\
       define_modulation_axis mfmin mfmax modbank_Nmod =
         Ok (f_spectra, f_spectra_intervals) /\
       AMa_store E fs window_NT f_spectra (length fc)
         (Z.to_nat modbank_Nmod) g r c v) /\
  (forall sig fs window_NT mfmin mfmax modbank_Nmod undersample fmin fmax
          yin_thresh ap0_thresh max_jump min_duration,
     Store g r c v ∈
       events (f0M_scalogram sig fs window_NT mfmin mfmax modbank_Nmod
                 undersample fmin fmax yin_thresh ap0_thresh max_jump
                 min_duration) ->
     exists track ap0 f0 fs_yin f_spectra f_spectra_intervals,
       mock_yin sig fs fmin fmax yin_thresh undersample = Ok (track, ap0) /\
       outcome (f0_track fs undersample fmin fmax ap0_thresh max_jump
                  min_duration track ap0) = Ok f0 /\
       py_truediv fs undersample = Ok fs_yin /\
       define_modulation_axis mfmin mfmax modbank_Nmod =
         Ok (f_spectra, f_spectra_intervals) /\
       f0M_store f0 (map (fun k => F64.div k fs_yin) (arange1 (length f0)))
         fs_yin window_NT f_spectra (Z.to_nat modbank_Nmod) g r c v).
Proof.
  split.
  - intros sig fs window_NT mfmin mfmax modbank_Nmod fmin fmax H.
    unfold AMa_scalogram in H.
    destruct (negb (is_ndarray sig) || negb (is_int_or_float fs));
      [ev_inv H|].
    destruct (le_zero fs); [ev_inv H|].
    ev_inv H.
    + exfalso. eapply AMa_sizing_pass_no_store, H.
    + apply AMa_fill_pass_store in H.
      do 5 eexists. split_and!; eassumption.
  - intros sig fs window_NT mfmin mfmax modbank_Nmod undersample fmin fmax
      yin_thresh ap0_thresh max_jump min_duration H.
    unfold f0M_scalogram in H. ev_inv H.
    + exfalso. eapply f0_track_no_store, H.
    + exfalso. eapply f0M_sizing_pass_no_store, H.
    + apply f0M_fill_pass_store in H.
      do 6 eexists. split_and!; eassumption.
Qed.
End StoresOfRuns.

(** ** The cells of the pitch scalogram *)

Section Cells_f0M.
Context `{C : Collaborators}.

Lemma f0M_fill_window_fills (f wl : float) (windows t_windows : array2)
    (ifreq : nat) (A A' : array2) (iwin : nat) :
  outcome (f0M_fill_window f wl windows t_windows ifreq A iwin) = Ok A' ->
  fills 0 A A' (events (f0M_fill_window f wl windows t_windows ifreq A iwin)).
Proof.
  intros H. apply f0M_fill_window_ok in H
    as (freqs & P & p & r & i & _ & _ & _ & Hi & -> & ->).
  apply (fills_app 0 A A _ [Invoke c_lombscargle] [_]).
  - apply fills_invoke.
  - apply fills_store, Hi.
Qed.

Lemma f0M_fill_freq_fills (f0 t_yin : list float) (fs_yin : float)
    (window_NT : float) (f_spectra : list float) (A A' : array2)
    (ifreq : nat) :
  outcome (f0M_fill_freq f0 t_yin fs_yin window_NT f_spectra A ifreq) = Ok A' ->
  fills 0 A A' (events (f0M_fill_freq f0 t_yin fs_yin window_NT f_spectra A ifreq)).
Proof.
  intros H. unfold f0M_fill_freq in *. run_inv H.
  events_steps. cbn [events lift invoke app].
  apply (fills_app 0 A A _ [Invoke c_segment_into_windows]);
    [apply fills_invoke|].
  apply (fills_app 0 A A _ [Invoke c_segment_into_windows]);
    [apply fills_invoke|].
  apply (foldM_fills (fun A => A) 0 _ _ _ _); [|exact H].
  intros ? ? ? Hb. apply f0M_fill_window_fills, Hb.
Qed.

Lemma f0M_fill_pass_fills (f0 t_yin : list float) (fs_yin : float)
    (window_NT : float) (modbank_Nmod : Z) (f_spectra : list float) (dim : Z)
    (G : array2) :
  outcome (f0M_fill_pass f0 t_yin fs_yin window_NT modbank_Nmod f_spectra dim)
    = Ok G ->
  0 <= dim /\
  shape0 G = Z.to_nat dim /\ shape1 G = Z.to_nat modbank_Nmod /\
  forall i c,
    item G i c =
    stored (Z.to_nat dim) 0 i c
      (events (f0M_fill_pass f0 t_yin fs_yin window_NT modbank_Nmod f_spectra
                 dim)).
Proof.
  intros H. unfold f0M_fill_pass in *. run_inv H.
  events_steps. cbn [events lift app].
  match goal with Hz : np_zeros _ _ = Ok _ |- _ =>
    apply np_zeros_ok in Hz as (Hdim & _ & Hz0 & Hz1 & Hzero) end.
  apply (foldM_fills (fun A => A) 0 _ _ _ _) in H.
  - destruct H as (H0 & H1 & Hitem & _).
    split_and!; [exact Hdim|congruence..|].
    intros i c. rewrite Hitem, Hzero, Hz0. reflexivity.
  - intros ? ? ? Hb. apply f0M_fill_freq_fills, Hb.
Qed.

Lemma f0M_scalogram_stored (sig : pyobj) (fs : pyscalar) (window_NT : float)
    (mfmin mfmax : float) (modbank_Nmod undersample : Z)
    (fmin fmax yin_thresh ap0_thresh max_jump min_duration : float)
    (tup : list retval) :
  outcome (f0M_scalogram sig fs window_NT mfmin mfmax modbank_Nmod undersample
             fmin fmax yin_thresh ap0_thresh max_jump min_duration) = Ok tup ->
  exists f0Msgram f_spectra,
    tup = [Matrix f0Msgram; Vector f_spectra] /\
    shape1 f0Msgram = Z.to_nat modbank_Nmod /\
    forall i c,
      item f0Msgram i c =
      zero_to_nan
        (stored (shape0 f0Msgram) 0 i c
           (events (f0M_scalogram sig fs window_NT mfmin mfmax modbank_Nmod
                      undersample fmin fmax yin_thresh ap0_thresh max_jump
                      min_duration))).
Proof.
  intros H. apply f0M_scalogram_ok in H
    as (track & ap0 & f0 & f_spectra & edges & fs_yin & dims & dim & G
        & _ & _ & _ & _ & _ & _ & Hfill & -> & Hev).
  exists (zeros_to_nan G), f_spectra. split; [reflexivity|].
  apply f0M_fill_pass_fills in Hfill as (_ & H0 & H1 & Hitem).
  split; [exact H1|].
  intros i c. unfold zeros_to_nan. cbn [item shape0].
  fold (zero_to_nan (item G i c)). f_equal.
  rewrite Hitem, H0, Hev. unfold stored. rewrite !stored_from_app.
  rewrite (stored_from_no_store _ _ _ _ _ [_]).
  2:{ intros g' r c' v Hin. apply list_elem_of_singleton in Hin. discriminate Hin. }
  rewrite (stored_from_no_store _ _ _ _ _ (events (f0_track _ _ _ _ _ _ _ _ _))).
  2:{ intros g' r c' v Hin. eapply f0_track_no_store, Hin. }
  rewrite (stored_from_no_store _ _ _ _ _ [_]).
  2:{ intros g' r c' v Hin. apply list_elem_of_singleton in Hin. discriminate Hin. }
  rewrite (stored_from_no_store _ _ _ _ _ (events (f0M_sizing_pass _ _ _ _ _))).
  2:{ intros g' r c' v Hin. eapply f0M_sizing_pass_no_store, Hin. }
  reflexivity.
Qed.

(** X10.  In a run of [f0M_scalogram] that returns, the grid has
    [modbank_Nmod] columns and each cell holds the last estimate
    stored at it, a zero estimate replaced by NaN (a negative row
    index storing from the end of the grid); a cell no store touched
    reads NaN. *)
Theorem f0M_scalogram_cells (sig : pyobj) (fs : pyscalar) (window_NT : float)
    (mfmin mfmax : float) (modbank_Nmod undersample : Z)
    (fmin fmax yin_thresh ap0_thresh max_jump min_duration : float)
    (tup : list retval) :
  outcome (f0M_scalogram sig fs window_NT mfmin mfmax modbank_Nmod undersample
             fmin fmax yin_thresh ap0_thresh max_jump min_duration) = Ok tup ->
  exists f0Msgram f_spectra,
    tup = [Matrix f0Msgram; Vector f_spectra] /\
    shape1 f0Msgram = Z.to_nat modbank_Nmod /\
    let evs := events (f0M_scalogram sig fs window_NT mfmin mfmax modbank_Nmod
                         undersample fmin fmax yin_thresh ap0_thresh max_jump
                         min_duration) in
    forall i c,
      item f0Msgram i c = zero_to_nan (stored (shape0 f0Msgram) 0 i c evs) /\
      ((forall g r v, Store g r c v ∈ evs ->
          normalize_index (shape0 f0Msgram) r <> Some i) ->
       item f0Msgram i c = F64.nan).
Proof.
  intros H. apply f0M_scalogram_stored in H
    as (G & f_spectra & -> & H1 & Hitem).
  exists G, f_spectra. split; [reflexivity|]. split; [exact H1|].
  intros evs i c. split.
  - apply Hitem.
  - intros Hno. rewrite Hitem. unfold stored.
    rewrite stored_from_unwritten; [reflexivity|].
    intros r v. apply Hno.
Qed.
End Cells_f0M.

(** ** The number of rows of a scalogram *)

Section Rows.
Context `{C : Collaborators}.

Lemma AMa_fill_pass_rows (E : array2) (fs : pyscalar) (window_NT : float)
    (modbank_Nmod : Z) (f_spectra : list float) (Nchan : nat) (dim : Z)
    (st : array2 * option nat) :
  outcome (AMa_fill_pass E fs window_NT modbank_Nmod f_spectra Nchan dim)
    = Ok st ->
  Z.of_nat (shape0 st.1) = dim /\ shape1 st.1 = Z.to_nat modbank_Nmod.
Proof.
  intros H. pose proof (AMa_fill_pass_cells _ _ _ _ _ _ _ _ H) as (H0 & H1 & _).
  split; [|exact H1].
  unfold AMa_fill_pass in H. run_inv H.
  match goal with Hz : np_zeros _ _ = Ok _ |- _ =>
    apply np_zeros_ok in Hz as (Hdim & _) end.
  rewrite H0. lia.
Qed.

(** X11.  In a scalogram run that returns, the grid has
    [modbank_Nmod] columns and exactly one row more than the largest
    row index the fill pass stores at: every store of the log has its
    row index below the number of rows, and the log holds a store at
    the last row.  In particular a returned grid was written at least
    once. *)
Theorem scalogram_rows_fit_stores :
  (forall sig fs window_NT mfmin mfmax modbank_Nmod fmin fmax tup,
     outcome (AMa_scalogram sig fs window_NT mfmin mfmax modbank_Nmod
                fmin fmax) = Ok tup ->
     exists AMsgram fc f_spectra step,
       tup = [Matrix AMsgram; Vector fc; Vector f_spectra;
              Bundle (P_AMa_scalogram step)] /\
       shape1 AMsgram = Z.to_nat modbank_Nmod /\
       let evs := events (AMa_scalogram sig fs window_NT mfmin mfmax
                            modbank_Nmod fmin fmax) in
       (forall g r c v, Store g r c v ∈ evs -> r < Z.of_nat (shape0 AMsgram)) /\
       exists g c v, Store g (Z.of_nat (shape0 AMsgram) - 1) c v ∈ evs) /\
  (forall sig fs window_NT mfmin mfmax modbank_Nmod undersample fmin fmax
          yin_thresh ap0_thresh max_jump min_duration tup,
     outcome (f0M_scalogram sig fs window_NT mfmin mfmax modbank_Nmod
                undersample fmin fmax yin_thresh ap0_thresh max_jump
                min_duration) = Ok tup ->
     exists f0Msgram f_spectra,
       tup = [Matrix f0Msgram; Vector f_spectra] /\
       shape1 f0Msgram = Z.to_nat modbank_Nmod /\
       let evs := events (f0M_scalogram sig fs window_NT mfmin mfmax
                            modbank_Nmod undersample fmin fmax yin_thresh
                            ap0_thresh max_jump min_duration) in
       (forall g r c v, Store g r c v ∈ evs -> r < Z.of_nat (shape0 f0Msgram)) /\
       exists c v, Store 0 (Z.of_nat (shape0 f0Msgram) - 1) c v ∈ evs).
Proof.
  split.
  - intros sig fs window_NT mfmin mfmax modbank_Nmod fmin fmax tup H.
    apply AMa_scalogram_ok in H
      as (gamma & fc & E & f_spectra & edges & dims & dim & AMsgram & nw & step
          & _ & _ & _ & Hsize & Hmax & Hfill & -> & _ & Hev).
    exists AMsgram, fc, f_spectra, step. split; [reflexivity|].
    destruct (AMa_fill_pass_rows _ _ _ _ _ _ _ _ Hfill) as [H0 H1].
    cbn [fst] in H0, H1. split; [exact H1|]. cbv zeta. rewrite Hev, H0. split.
    + intros g r c v Hin. rewrite !elem_of_app in Hin.
      destruct Hin as [Hin|[Hin|[Hin|Hin]]].
      * repeat (apply elem_of_cons in Hin as [Hin|Hin]; [discriminate Hin|]).
        apply elem_of_nil in Hin. contradiction.
      * exfalso. eapply AMa_sizing_pass_no_store, Hin.
      * apply AMa_fill_pass_store in Hin
          as (f & windows & iwin & r0 & P & p & Hg & Hc & Hf & Hw & Hi & Hr0
              & -> & _).
        pose proof (AMa_sizing_pass_ok _ _ _ _ _ _ _ Hsize g c Hg Hc
                      f windows iwin r0 Hf Hw Hi Hr0) as Hd.
        pose proof (py_max_ge _ _ _ Hmax Hd). lia.
      * apply list_elem_of_singleton in Hin. discriminate Hin.
    + destruct (AMa_sizing_pass_origin _ _ _ _ _ _ _ _ Hsize (py_max_in _ _ Hmax))
        as (ichan & ifreq & f & windows & iwin & r & Hic & Hif & Hf & Hw & Hi
            & Hr & Hdim).
      destruct (AMa_fill_pass_placed _ _ _ _ _ _ _ _ ichan ifreq Hfill Hic Hif
                  f windows iwin Hf Hw Hi) as (P & p & r' & _ & _ & Hr' & Hin).
      rewrite Hr in Hr'. injection Hr' as <-.
      exists ichan, ifreq, (F64.mul F64.two p).
      replace (dim - 1) with (Z.of_nat iwin + r) by lia.
      rewrite !elem_of_app. right. right. left. exact Hin.
  - intros sig fs window_NT mfmin mfmax modbank_Nmod undersample fmin fmax
      yin_thresh ap0_thresh max_jump min_duration tup H.
    apply f0M_scalogram_ok in H
      as (track & ap0 & f0 & f_spectra & edges & fs_yin & dims & dim & G
          & _ & _ & _ & _ & Hsize & Hmax & Hfill & -> & Hev).
    exists (zeros_to_nan G), f_spectra. split; [reflexivity|].
    destruct (f0M_fill_pass_fills _ _ _ _ _ _ _ _ Hfill) as (Hdim & H0 & H1 & _).
    split; [exact H1|]. cbv zeta. rewrite Hev. cbn [shape0 zeros_to_nan].
    rewrite H0, Z2Nat.id by exact Hdim. split.
    + intros g r c v Hin. rewrite !elem_of_app in Hin.
      destruct Hin as [Hin|[Hin|[Hin|[Hin|Hin]]]].
      * apply list_elem_of_singleton in Hin. discriminate Hin.
      * exfalso. eapply f0_track_no_store, Hin.
      * apply list_elem_of_singleton in Hin. discriminate Hin.
      * exfalso. eapply f0M_sizing_pass_no_store, Hin.
      * apply f0M_fill_pass_store in Hin
          as (f & windows & t_windows & iwin & r0 & freqs & P & p & Hg & Hc
              & Hf & Hw & _ & Hi & Hr0 & -> & _).
        pose proof (f0M_sizing_pass_ok _ _ _ _ _ _ Hsize c Hc
                      f windows iwin r0 Hf Hw Hi Hr0) as Hd.
        pose proof (py_max_ge _ _ _ Hmax Hd). lia.
    + destruct (f0M_sizing_pass_origin _ _ _ _ _ _ _ Hsize (py_max_in _ _ Hmax))
        as (ifreq & f & windows & iwin & r & Hif & Hf & Hw & Hi & Hr & Hd).
      pose proof Hfill as Hfill'.
      unfold f0M_fill_pass in Hfill'. run_inv Hfill'.
      apply range_elem in Hif.
      destruct (foldM_ok_body _ _ _ _ _ Hfill' Hif) as (s1 & s2 & Hfr & _).
      assert (Htw : exists t_windows,
                segment_into_windows
                  (map (fun k => F64.div k fs_yin) (arange1 (length f0)))
                  (PyFloat fs_yin) (window_length_of window_NT f) shift false
                = Ok t_windows).
      { unfold f0M_fill_freq in Hfr. run_inv Hfr.
        match goal with Hg : get _ _ = Ok _ |- _ =>
          apply get_ok in Hg; rewrite Hf in Hg; injection Hg as <- end.
        eexists. eassumption. }
      destruct Htw as [t_windows Htw].
      apply range_elem in Hif.
      destruct (f0M_fill_pass_placed _ _ _ _ _ _ _ _ ifreq Hfill Hif
                  f windows t_windows iwin Hf Hw Htw Hi)
        as (freqs & P & p & r' & _ & _ & Hr' & Hin).
      rewrite Hr in Hr'. injection Hr' as <-.
      exists ifreq, (F64.mul F64.two p).
      replace (dim - 1) with (Z.of_nat iwin + r) by lia.
      rewrite !elem_of_app. right. right. right. right. exact Hin.
Qed.
End Rows.

(** ** A running total that reached zero *)

Section Poison.
Context `{C : Collaborators}.

(** X12.  In a run of [AMa_scalogram] that returns, a cell at which the
    total of the estimates of the leading channels is zero after some
    channel reads NaN, whatever the later channels store there: the
    replacement of zeros by NaN runs after every channel, and a NaN
    absorbs every later addition.  A cell the first channel leaves at
    zero is the first instance. *)
Theorem AMa_scalogram_zero_total_reads_nan (sig : pyobj) (fs : pyscalar)
    (window_NT mfmin mfmax : float) (modbank_Nmod : Z) (fmin fmax : float)
    (tup : list retval) :
  outcome (AMa_scalogram sig fs window_NT mfmin mfmax modbank_Nmod fmin fmax)
    = Ok tup ->
  exists AMsgram fc f_spectra step,
    tup = [Matrix AMsgram; Vector fc; Vector f_spectra;
           Bundle (P_AMa_scalogram step)] /\
    let evs := events (AMa_scalogram sig fs window_NT mfmin mfmax
                         modbank_Nmod fmin fmax) in
    let estimate g i c := stored (shape0 AMsgram) g i c evs in
    forall i c k,
      (0 < k <= length fc)%nat ->
      F64.eqb (channel_sum (map (fun g => estimate g i c) (range k))) F64.zero
        = true ->
      item AMsgram i c = F64.nan.
Proof.
  intros H. apply AMa_scalogram_accumulated in H
    as (AMsgram & fc & f_spectra & step & -> & Hfc & Hitem).
  exists AMsgram, fc, f_spectra, step. split; [reflexivity|].
  intros evs estimate i c k Hk Hz. rewrite Hitem.
  apply (accumulate_poisoned _ k).
  - rewrite length_map. unfold range. rewrite length_seq. exact Hk.
  - rewrite <- fmap_take. unfold range. rewrite take_seq.
    rewrite Nat.min_l by lia. exact Hz.
Qed.
End Poison.

(** ** The time axis of the amplitude-modulation scalogram *)

Lemma foldM_last {A S : Type} (body : S -> A -> M S) (l : list A) (a : A)
    (s sf : S) :
  outcome (foldM body s (l ++ [a])) = Ok sf ->
  exists s1, outcome (body s1 a) = Ok sf.
Proof.
  revert s. induction l as [|b l IH]; intros s H; simpl in H.
  - apply bind_outcome_ok in H as (s' & Hb & H). apply mret_outcome in H.
    subst s'. exists s. exact Hb.
  - apply bind_outcome_ok in H as (s' & _ & H). eapply IH, H.
Qed.

Lemma range_S (n : nat) : range (S n) = range n ++ [n].
Proof. unfold range. rewrite seq_S. reflexivity. Qed.

Section TimeAxis.
Context `{C : Collaborators}.

(** X13.  In a run of [AMa_scalogram] that returns, the time axis [t]
    of the diagnostics bundle is [shift, 2 * shift, ...] with one
    entry per window of the last segmentation of the fill pass, that
    of the last channel at the last modulation frequency: its length
    is that number of windows, not the number of rows of the grid. *)
Theorem AMa_scalogram_time_axis (sig : pyobj) (fs : pyscalar)
    (window_NT mfmin mfmax : float) (modbank_Nmod : Z) (fmin fmax : float)
    (tup : list retval) :
  outcome (AMa_scalogram sig fs window_NT mfmin mfmax modbank_Nmod fmin fmax)
    = Ok tup ->
  exists AMsgram fc f_spectra step f windows,
    tup = [Matrix AMsgram; Vector fc; Vector f_spectra;
           Bundle (P_AMa_scalogram step)] /\
    (0 < length fc)%nat /\ 0 < modbank_Nmod /\
    f_spectra !! (Z.to_nat modbank_Nmod - 1)%nat = Some f /\
    segment_into_windows (row (AMa_scal_E step) (length fc - 1)) fs
      (window_length_of window_NT f) shift true = Ok windows /\
    AMa_scal_t step =
      map (fun k => F64.mul k shift) (arange1 (shape0 windows)) /\
    length (AMa_scal_t step) = shape0 windows.
Proof.
  intros H. pose proof H as Hrun. apply AMa_scalogram_ok in Hrun
    as (gamma & fc & E & f_spectra & edges & dims & dim & AMsgram & nw & step0
        & Hfb & Hh & Hax & Hsize & Hmax & Hfill & _ & _ & _).
  destruct (AMa_sizing_pass_origin _ _ _ _ _ _ _ _ Hsize (py_max_in _ _ Hmax))
    as (ichan & ifreq & _ & _ & _ & _ & Hic & Hif & _).
  destruct (length fc) as [|k] eqn:Hk; [lia|].
  destruct (Z.to_nat modbank_Nmod) as [|m] eqn:Hm; [lia|].
  assert (Hlast : exists f windows,
    f_spectra !! m = Some f /\
    segment_into_windows (row E k) fs (window_length_of window_NT f) shift true
      = Ok windows /\
    nw = Some (shape0 windows)).
  { unfold AMa_fill_pass in Hfill. run_inv Hfill.
    rewrite range_S in Hfill. apply foldM_last in Hfill as (s1 & Hch).
    unfold AMa_fill_channel in Hch. run_inv Hch.
    injection Hch as _ <-.
    match goal with
    | Hl : outcome (foldM (AMa_fill_freq _ _ _ _ _) _ _) = Ok _ |- _ =>
        rewrite Hm, range_S in Hl; apply foldM_last in Hl as (s2 & Hfr)
    end.
    unfold AMa_fill_freq in Hfr. run_inv Hfr. injection Hfr as _ <-.
    match goal with Hg : get _ _ = Ok _ |- _ => apply get_ok in Hg end.
    match goal with Hg : get_row _ _ = Ok _ |- _ =>
      apply get_row_ok in Hg as [_ ->] end.
    do 2 eexists. split_and!; try eassumption; reflexivity. }
  destruct Hlast as (f & windows & Hf & Hw & ->).
  unfold AMa_scalogram in H. run_inv H. subst tup.
  repeat match goal with
  | H1 : ?x = Ok ?a, H2 : ?x = Ok ?b |- _ =>
      rewrite H1 in H2; injection H2; clear H2; intros; subst
  end.
  rewrite Hk in *.
  repeat match goal with
  | H1 : ?x = Ok ?a, H2 : ?x = Ok ?b |- _ =>
      rewrite H1 in H2; injection H2; clear H2; intros; subst
  end.
  match goal with
  | Hr : read_n_windows (Some _) = Ok _ |- _ => injection Hr as <-
  end.
  exists AMsgram, fc. do 2 eexists. exists f, windows.
  split; [reflexivity|]. cbn [AMa_scal_E AMa_scal_t].
  rewrite Hk.
  replace (S k - 1)%nat with k by lia. replace (S m - 1)%nat with m by lia.
  split_and!; try assumption; try lia; try reflexivity.
  unfold arange1. rewrite !length_map, length_seq. reflexivity.
Qed.
End TimeAxis.

(** ** How often a scalogram calls its collaborators *)

Lemma count_app (p : event -> bool) (e1 e2 : list event) :
  count p (e1 ++ e2) = (count p e1 + count p e2)%nat.
Proof. unfold count. rewrite List.filter_app, length_app. reflexivity. Qed.

Lemma foldM_count {A S : Type} (p : event -> bool) (body : S -> A -> M S)
    (k : nat) (l : list A) (s sf : S) :
  (forall s a s', outcome (body s a) = Ok s' -> count p (events (body s a)) = k) ->
  outcome (foldM body s l) = Ok sf ->
  count p (events (foldM body s l)) = (length l * k)%nat.
Proof.
  intros Hbody Hrun.
  refine (foldM_inv body l
            (fun done _ evs => count p evs = (length done * k)%nat)
            _ s sf eq_refl Hrun).
  intros done a rest s1 evs s' _ HI Hb.
  rewrite count_app, HI, (Hbody _ _ _ Hb), length_app. cbn [length]. lia.
Qed.

Lemma foldM_count_eq {A S : Type} (p q : event -> bool) (body : S -> A -> M S)
    (l : list A) (s sf : S) :
  (forall s a s', outcome (body s a) = Ok s' ->
     count p (events (body s a)) = count q (events (body s a))) ->
  outcome (foldM body s l) = Ok sf ->
  count p (events (foldM body s l)) = count q (events (foldM body s l)).
Proof.
  intros Hbody Hrun.
  refine (foldM_inv body l (fun _ _ evs => count p evs = count q evs)
            _ s sf eq_refl Hrun).
  intros done a rest s1 evs s' _ HI Hb.
  rewrite !count_app, HI, (Hbody _ _ _ Hb). reflexivity.
Qed.

Lemma foldM_count_both {A S : Type} (p q r : event -> bool)
    (body : S -> A -> M S) (k : nat) (l : list A) (s sf : S) :
  (forall s a s', outcome (body s a) = Ok s' ->
     count p (events (body s a)) = k /\
     count q (events (body s a)) = count r (events (body s a))) ->
  outcome (foldM body s l) = Ok sf ->
  count p (events (foldM body s l)) = (length l * k)%nat /\
  count q (events (foldM body s l)) = count r (events (foldM body s l)).
Proof.
  intros Hbody Hrun. split.
  - apply (foldM_count p body k l s sf); [|exact Hrun].
    intros s1 a s' Hb. apply (Hbody _ _ _ Hb).
  - apply (foldM_count_eq q r body l s sf); [|exact Hrun].
    intros s1 a s' Hb. apply (Hbody _ _ _ Hb).
Qed.

Lemma count_cons (p : event -> bool) (ev : event) (evs : list event) :
  count p (ev :: evs) = (count p [ev] + count p evs)%nat.
Proof. apply (count_app p [ev] evs). Qed.

Section CallCounts.
Context `{C : Collaborators}.

Lemma sizing_windows_count (p : event -> bool) (wl : float) (n : nat)
    (dims dims' : list Z) :
  outcome (foldM (sizing_window wl) dims (range n)) = Ok dims' ->
  count p (events (foldM (sizing_window wl) dims (range n))) = 0%nat.
Proof.
  intros H.
  assert (Hbody : forall s a s', outcome (sizing_window wl s a) = Ok s' ->
            count p (events (sizing_window wl s a)) = 0%nat).
  { intros s a s' Hb. unfold sizing_window in *. run_inv Hb.
    events_steps. reflexivity. }
  rewrite (foldM_count p _ 0 _ _ _ Hbody H). lia.
Qed.

Lemma AMa_sizing_pass_count (E : array2) (fs : pyscalar) (window_NT : float)
    (modbank_Nmod : Z) (f_spectra : list float) (Nchan : nat) (dims : list Z) :
  outcome (AMa_sizing_pass E fs window_NT modbank_Nmod f_spectra Nchan) = Ok dims ->
  let evs := events (AMa_sizing_pass E fs window_NT modbank_Nmod f_spectra Nchan) in
  count (is_call c_segment_into_windows) evs = (Nchan * Z.to_nat modbank_Nmod)%nat /\
  count (is_call c_periodogram) evs = 0%nat /\
  count is_store evs = 0%nat.
Proof.
  intros H evs. subst evs. unfold AMa_sizing_pass in *.
  assert (Hfreq : forall p k ichan s a s',
    count p [Invoke c_segment_into_windows] = k ->
    outcome (AMa_sizing_freq E fs window_NT f_spectra ichan s a) = Ok s' ->
    count p (events (AMa_sizing_freq E fs window_NT f_spectra ichan s a)) = k).
  { intros p k ichan s a s' Hk Hb. unfold AMa_sizing_freq in *. run_inv Hb.
    events_steps. cbn [events lift invoke app].
    rewrite (count_cons p _ (events _)), Hk,
      (sizing_windows_count p _ _ _ _ Hb). lia. }
  assert (Hchan : forall p k s a s',
    count p [Invoke c_segment_into_windows] = k ->
    outcome (foldM (AMa_sizing_freq E fs window_NT f_spectra a) s
               (range (Z.to_nat modbank_Nmod))) = Ok s' ->
    count p (events (foldM (AMa_sizing_freq E fs window_NT f_spectra a) s
                       (range (Z.to_nat modbank_Nmod))))
    = (Z.to_nat modbank_Nmod * k)%nat).
  { intros p k s a s' Hk Hb.
    rewrite (foldM_count p _ k _ _ _ (fun s a0 s' => Hfreq p k a s a0 s' Hk) Hb).
    unfold range. rewrite length_seq. reflexivity. }
  split_and!.
  - rewrite (foldM_count (is_call c_segment_into_windows) _ _ _ _ _
               (fun s a s' => Hchan (is_call c_segment_into_windows) 1%nat s a s' eq_refl) H).
    unfold range. rewrite length_seq. lia.
  - rewrite (foldM_count (is_call c_periodogram) _ _ _ _ _
               (fun s a s' => Hchan (is_call c_periodogram) 0%nat s a s' eq_refl) H).
    lia.
  - rewrite (foldM_count is_store _ _ _ _ _
               (fun s a s' => Hchan is_store 0%nat s a s' eq_refl) H).
    lia.
Qed.

Lemma AMa_fill_window_count (fs : pyscalar) (f wl : float) (windows : array2)
    (ichan ifreq : nat) (A A' : array2) (iwin : nat) :
  outcome (AMa_fill_window fs f wl windows ichan ifreq A iwin) = Ok A' ->
  count (is_call c_segment_into_windows)
    (events (AMa_fill_window fs f wl windows ichan ifreq A iwin)) = 0%nat /\
  count (is_call c_periodogram)
    (events (AMa_fill_window fs f wl windows ichan ifreq A iwin)) =
  count is_store (events (AMa_fill_window fs f wl windows ichan ifreq A iwin)).
Proof.
  intros H.
  apply AMa_fill_window_ok in H as (P & p & r & i & _ & _ & _ & _ & _ & ->).
  split; reflexivity.
Qed.

Lemma AMa_fill_freq_count (E : array2) (fs : pyscalar) (window_NT : float)
    (f_spectra : list float) (ichan : nat) (st st' : array2 * option nat)
    (ifreq : nat) :
  outcome (AMa_fill_freq E fs window_NT f_spectra ichan st ifreq) = Ok st' ->
  count (is_call c_segment_into_windows)
    (events (AMa_fill_freq E fs window_NT f_spectra ichan st ifreq)) = 1%nat /\
  count (is_call c_periodogram)
    (events (AMa_fill_freq E fs window_NT f_spectra ichan st ifreq)) =
  count is_store (events (AMa_fill_freq E fs window_NT f_spectra ichan st ifreq)).
Proof.
  intros H. unfold AMa_fill_freq in *. run_inv H.
  events_steps. cbn [events lift invoke app mret M_ret].
  rewrite app_nil_r.
  rewrite (count_cons (is_call c_segment_into_windows) _ (events _)),
          (count_cons (is_call c_periodogram) _ (events _)),
          (count_cons is_store _ (events _)).
  match goal with
  | Hl : outcome (foldM _ _ _) = Ok _ |- _ =>
      apply (foldM_count_both (is_call c_segment_into_windows)
               (is_call c_periodogram) is_store _ 0) in Hl as [-> ->];
      [|intros ? ? ? Hw; apply (AMa_fill_window_count _ _ _ _ _ _ _ _ _ Hw)]
  end.
  split; [cbn; lia | reflexivity].
Qed.

Lemma AMa_fill_pass_count (E : array2) (fs : pyscalar) (window_NT : float)
    (modbank_Nmod : Z) (f_spectra : list float) (Nchan : nat) (dim : Z)
    (st : array2 * option nat) :
  outcome (AMa_fill_pass E fs window_NT modbank_Nmod f_spectra Nchan dim)
    = Ok st ->
  let evs := events (AMa_fill_pass E fs window_NT modbank_Nmod f_spectra
                       Nchan dim) in
  count (is_call c_segment_into_windows) evs = (Nchan * Z.to_nat modbank_Nmod)%nat /\
  count (is_call c_periodogram) evs = count is_store evs.
Proof.
  intros H evs. subst evs. unfold AMa_fill_pass in *. run_inv H.
  events_steps. cbn [events lift app].
  assert (Hchan : forall s a s',
    outcome (AMa_fill_channel E fs window_NT modbank_Nmod f_spectra dim s a)
      = Ok s' ->
    count (is_call c_segment_into_windows)
      (events (AMa_fill_channel E fs window_NT modbank_Nmod f_spectra dim s a))
      = Z.to_nat modbank_Nmod /\
    count (is_call c_periodogram)
      (events (AMa_fill_channel E fs window_NT modbank_Nmod f_spectra dim s a)) =
    count is_store
      (events (AMa_fill_channel E fs window_NT modbank_Nmod f_spectra dim s a))).
  { intros ? ? ? Hb. unfold AMa_fill_channel in *. run_inv Hb.
    events_steps. cbn [events lift app mret M_ret]. rewrite app_nil_r.
    match goal with
    | Hl : outcome (foldM _ _ _) = Ok _ |- _ =>
        apply (foldM_count_both (is_call c_segment_into_windows)
                 (is_call c_periodogram) is_store _ 1) in Hl as [-> ->];
        [|intros ? ? ? Hf; apply (AMa_fill_freq_count _ _ _ _ _ _ _ _ Hf)]
    end.
    unfold range. rewrite length_seq. split; [lia | reflexivity]. }
  apply (foldM_count_both (is_call c_segment_into_windows)
           (is_call c_periodogram) is_store _ (Z.to_nat modbank_Nmod)) in H
    as [-> ->]; [|exact Hchan].
  unfold range. rewrite length_seq. split; reflexivity.
Qed.
Lemma f0M_sizing_pass_count (f0 : list float) (fs_yin : float)
    (window_NT : float) (modbank_Nmod : Z) (f_spectra : list float)
    (dims : list Z) :
  outcome (f0M_sizing_pass f0 fs_yin window_NT modbank_Nmod f_spectra) = Ok dims ->
  count (is_call c_segment_into_windows)
    (events (f0M_sizing_pass f0 fs_yin window_NT modbank_Nmod f_spectra))
    = Z.to_nat modbank_Nmod /\
  count (is_call c_lombscargle)
    (events (f0M_sizing_pass f0 fs_yin window_NT modbank_Nmod f_spectra)) =
  count is_store
    (events (f0M_sizing_pass f0 fs_yin window_NT modbank_Nmod f_spectra)).
Proof.
  intros H. unfold f0M_sizing_pass in *.
  apply (foldM_count_both (is_call c_segment_into_windows)
           (is_call c_lombscargle) is_store _ 1) in H as [-> ->].
  - unfold range. rewrite length_seq. split; [lia | reflexivity].
  - intros ? ? ? Hb. unfold f0M_sizing_freq in *. run_inv Hb.
    events_steps. cbn [events lift invoke app].
    rewrite (count_cons (is_call c_segment_into_windows) _ (events _)),
            (count_cons (is_call c_lombscargle) _ (events _)),
            (count_cons is_store _ (events _)).
    rewrite !(sizing_windows_count _ _ _ _ _ Hb). split; reflexivity.
Qed.

Lemma f0M_fill_pass_count (f0 t_yin : list float) (fs_yin : float)
    (window_NT : float) (modbank_Nmod : Z) (f_spectra : list float) (dim : Z)
    (G : array2) :
  outcome (f0M_fill_pass f0 t_yin fs_yin window_NT modbank_Nmod f_spectra dim)
    = Ok G ->
  count (is_call c_segment_into_windows)
    (events (f0M_fill_pass f0 t_yin fs_yin window_NT modbank_Nmod f_spectra dim))
    = (Z.to_nat modbank_Nmod * 2)%nat /\
  count (is_call c_lombscargle)
    (events (f0M_fill_pass f0 t_yin fs_yin window_NT modbank_Nmod f_spectra dim)) =
  count is_store
    (events (f0M_fill_pass f0 t_yin fs_yin window_NT modbank_Nmod f_spectra dim)).
Proof.
  intros H. unfold f0M_fill_pass in *. run_inv H.
  events_steps. cbn [events lift app].
  apply (foldM_count_both (is_call c_segment_into_windows)
           (is_call c_lombscargle) is_store _ 2) in H as [-> ->].
  - unfold range. rewrite length_seq. split; reflexivity.
  - intros ? ? ? Hb. unfold f0M_fill_freq in *. run_inv Hb.
    events_steps. cbn [events lift invoke app].
    rewrite !(count_cons (is_call c_segment_into_windows) _ (_ :: events _)),
            !(count_cons (is_call c_lombscargle) _ (_ :: events _)),
            !(count_cons is_store _ (_ :: events _)).
    rewrite (count_cons (is_call c_segment_into_windows) _ (events _)),
            (count_cons (is_call c_lombscargle) _ (events _)),
            (count_cons is_store _ (events _)).
    apply (foldM_count_both (is_call c_segment_into_windows)
             (is_call c_lombscargle) is_store _ 0) in Hb as [-> ->].
    + split; [cbn; lia | reflexivity].
    + intros ? ? ? Hw.
      apply f0M_fill_window_ok in Hw
        as (freqs & P & p & r & i & _ & _ & _ & _ & _ & ->).
      split; reflexivity.
Qed.

(** X14.  The fill pass of a scalogram repeats every segmentation of
    the sizing pass.  A run of [AMa_scalogram] that returns invoked
    [segment_into_windows] twice per channel and modulation frequency
    and [periodogram] once per store; a run of [f0M_scalogram] that
    returns invoked [segment_into_windows] three times per modulation
    frequency (once to size, then on the track and on its time stamps)
    and [lombscargle] once per store. *)
Theorem scalogram_call_counts :
  (forall sig fs window_NT mfmin mfmax modbank_Nmod fmin fmax tup,
     outcome (AMa_scalogram sig fs window_NT mfmin mfmax modbank_Nmod
                fmin fmax) = Ok tup ->
     let evs := events (AMa_scalogram sig fs window_NT mfmin mfmax
                          modbank_Nmod fmin fmax) in
     exists fc,
       tup !! 1%nat = Some (Vector fc) /\
       count (is_call c_segment_into_windows) evs =
         (2 * (length fc * Z.to_nat modbank_Nmod))%nat /\
       count (is_call c_periodogram) evs = count is_store evs) /\
  (forall sig fs window_NT mfmin mfmax modbank_Nmod undersample fmin fmax
          yin_thresh ap0_thresh max_jump min_duration tup,
     outcome (f0M_scalogram sig fs window_NT mfmin mfmax modbank_Nmod
                undersample fmin fmax yin_thresh ap0_thresh max_jump
                min_duration) = Ok tup ->
     let evs := events (f0M_scalogram sig fs window_NT mfmin mfmax
                          modbank_Nmod undersample fmin fmax yin_thresh
                          ap0_thresh max_jump min_duration) in
     count (is_call c_segment_into_windows) evs =
       (3 * Z.to_nat modbank_Nmod)%nat /\
     count (is_call c_lombscargle) evs = count is_store evs).
Proof.
  split.
  - intros sig fs window_NT mfmin mfmax modbank_Nmod fmin fmax tup H evs.
    subst evs. apply AMa_scalogram_ok in H
      as (gamma & fc & E & f_spectra & edges & dims & dim & AMsgram & nw & step
          & _ & _ & _ & Hsize & _ & Hfill & -> & _ & ->).
    exists fc. split; [reflexivity|].
    destruct (AMa_sizing_pass_count _ _ _ _ _ _ _ Hsize) as (Hs1 & Hs2 & Hs3).
    destruct (AMa_fill_pass_count _ _ _ _ _ _ _ _ Hfill) as (Hf1 & Hf2).
    cbv zeta in Hs1, Hs2, Hs3, Hf1, Hf2.
    rewrite !count_app, Hs1, Hs2, Hs3, Hf1, Hf2. split; cbn; lia.
  - intros sig fs window_NT mfmin mfmax modbank_Nmod undersample fmin fmax
      yin_thresh ap0_thresh max_jump min_duration tup H evs.
    subst evs. apply f0M_scalogram_ok in H
      as (track & ap0 & f0 & f_spectra & edges & fs_yin & dims & dim & G
          & _ & Htrack & _ & _ & Hsize & _ & Hfill & -> & ->).
    destruct (f0_track_ok _ _ _ _ _ _ _ _ _ _ Htrack) as [_ ->].
    destruct (f0M_sizing_pass_count _ _ _ _ _ _ Hsize) as (Hs1 & Hs2).
    destruct (f0M_fill_pass_count _ _ _ _ _ _ _ _ Hfill) as (Hf1 & Hf2).
    rewrite !count_app, Hs1, Hs2, Hf1, Hf2. split; cbn; lia.
Qed.
End CallCounts.

(** ** Periodograms of the wrong length in AMa_spectrum *)

Lemma set_column_lengths (a : array2) (j : nat) (v : list float) (a' : array2) :
  set_column a j v = Ok a' ->
  (length v = shape0 a \/ length v = 1%nat) /\
  (length v = 1%nat -> forall i, (i < shape0 a)%nat ->
     item a' i j = nth 0 v F64.nan).
Proof.
  unfold set_column.
  destruct (length v =? shape0 a)%nat eqn:E.
  - apply Nat.eqb_eq in E. intros H. injection H as <-. cbn [item].
    split; [left; exact E|]. intros H1 i Hi. rewrite Nat.eqb_refl.
    replace i with 0%nat by lia. reflexivity.
  - destruct (length v =? 1)%nat eqn:E1; [|discriminate].
    apply Nat.eqb_eq in E1. intros H. injection H as <-. cbn [item].
    split; [right; exact E1|]. intros _ i _. rewrite Nat.eqb_refl. reflexivity.
Qed.

Section Spectrum_AMa_lengths.
Context `{C : Collaborators}.

(** X15.  In a run of [AMa_spectrum] that returns, the periodogram of
    every channel answered with one power per frequency of [f_spectra]
    or with a single power (any other length makes the column
    assignment raise); a single power is doubled and repeated down the
    whole column of its channel. *)
Theorem AMa_spectrum_periodogram_lengths (sig : pyobj) (fs : pyscalar)
    (mfmin mfmax : float) (modbank_Nmod : Z) (fmin fmax : float)
    (tup : list retval) :
  outcome (AMa_spectrum sig fs mfmin mfmax modbank_Nmod fmin fmax) = Ok tup ->
  exists gamma_responses fc E f_spectra f_spectra_intervals AMspec step,
    auditory_filterbank sig fs fmin fmax = Ok (gamma_responses, fc) /\
    abs_hilbert gamma_responses = Ok E /\
    define_modulation_axis mfmin mfmax modbank_Nmod =
      Ok (f_spectra, f_spectra_intervals) /\
    tup = [Matrix AMspec; Vector fc; Vector f_spectra;
           Bundle (P_AMa_spec step)] /\
    forall ichan, (ichan < length fc)%nat ->
      exists Pxx,
        periodogram (row E ichan) fs f_spectra = Ok Pxx /\
        (length Pxx = length f_spectra \/ length Pxx = 1%nat) /\
        (length Pxx = 1%nat -> forall i, (i < length f_spectra)%nat ->
           item AMspec i ichan = F64.mul F64.two (nth 0 Pxx F64.nan)).
Proof.
  intros H. unfold AMa_spectrum in H. run_inv H. subst tup.
  match goal with
  | Hz : np_zeros _ _ = Ok ?z |- _ =>
      apply np_zeros_ok in Hz as (_ & _ & Hz0 & Hz1 & _);
      rewrite Nat2Z.id in Hz0, Hz1
  end.
  match goal with
  | Hl : outcome (foldM _ ?z _) = Ok ?A |- _ =>
      rename Hl into Hloop; rename z into AMspec0; rename A into AMspec
  end.
  match goal with
  | Hh : abs_hilbert _ = Ok ?e |- _ => rename e into E
  end.
  match goal with
  | Hd : define_modulation_axis _ _ _ = Ok (?f, _) |- _ => rename f into f_spectra
  end.
  match goal with
  | Hd : auditory_filterbank _ _ _ _ = Ok (_, ?f) |- _ => rename f into fc
  end.
  pose (I := fun (done : list nat) (A : array2) (_ : list event) =>
    shape0 A = shape0 AMspec0 /\ shape1 A = shape1 AMspec0 /\
    forall ichan, ichan ∈ done ->
      exists Pxx,
        periodogram (row E ichan) fs f_spectra = Ok Pxx /\
        (length Pxx = shape0 AMspec0 \/ length Pxx = 1%nat) /\
        (length Pxx = 1%nat -> forall i, (i < shape0 AMspec0)%nat ->
           item A i ichan = F64.mul F64.two (nth 0 Pxx F64.nan))).
  assert (HI : I (range (length fc)) AMspec
                 (events (foldM (AMa_spectrum_channel E fs f_spectra)
                            AMspec0 (range (length fc))))).
  { apply (foldM_inv _ _ I); [|split_and!; [reflexivity..|]|exact Hloop].
    - intros done ich rest s evs s' Hl (Hs0 & Hs1 & Hcols) Hbody.
      apply range_middle in Hl as (Hich & Hdone & _).
      unfold AMa_spectrum_channel in Hbody. run_inv Hbody. leaf_inv Hbody.
      pose proof (set_column_ok _ _ _ _ Hbody) as (Hc0 & Hc1 & Hother & _).
      apply set_column_lengths in Hbody as (Hlens & Hone).
      rewrite length_map in Hlens, Hone.
      split_and!; [congruence..|].
      intros ichan Hin. apply elem_of_app in Hin as [Hin|Hin].
      + destruct (Hcols ichan Hin) as (Pxx & HP & Hl & Hitem).
        exists Pxx. split_and!; [exact HP|exact Hl|]. intros Hlen i Hi.
        rewrite Hother; [apply Hitem; assumption|].
        rewrite Hdone in Hin. apply range_elem in Hin. lia.
      + apply list_elem_of_singleton in Hin. subst ichan.
        match goal with
        | Hr : get_row E _ = Ok ?x |- _ =>
            unfold get_row in Hr; destruct (_ <? _)%nat; [|discriminate Hr];
            injection Hr as <-
        end.
        eexists. split_and!; [eassumption| |].
        * rewrite <- Hs0. exact Hlens.
        * intros Hlen i Hi. rewrite (Hone Hlen i) by (rewrite Hs0; exact Hi).
          match goal with
          | |- nth 0 (map _ ?P) _ = _ =>
              destruct P as [|p0 P']; [discriminate Hlen|reflexivity]
          end.
    - intros ichan Hin. apply elem_of_nil in Hin. contradiction. }
  destruct HI as (HA0 & HA1 & Hcols).
  do 5 eexists. exists AMspec. eexists.
  split_and!; try eassumption; try reflexivity.
  intros ichan Hich. apply range_elem in Hich.
  destruct (Hcols ichan Hich) as (Pxx & HP & Hl & Hitem).
  rewrite Hz0 in Hl, Hitem.
  exists Pxx. split_and!; assumption.
Qed.
End Spectrum_AMa_lengths.

Import Toy.

(** ** Evaluation on the test doubles *)

Lemma returned_tuple (run : M (list retval)) :
  returned run = true -> outcome run = Ok (tuple run).
Proof.
  unfold returned, tuple. destruct (outcome run); [reflexivity|discriminate].
Qed.

(** C8 on the test doubles: a string and a zero sample rate. *)
Lemma AMa_spectrum_validates_fs_witness :
  AMa_spectrum_run (PyStr "44100")
  = mkM (Raise (ValueError "Invalid input types.")) [] /\
  outcome (AMa_spectrum_run (PyInt 0))
  = Raise (ValueError "fs must be a positive scalar.").
Proof.
  split.
  - apply (proj1 (AMa_spectrum_validates_fs (C := collab true) sig (PyStr "44100")
                    (f 10) (f 10) 1 (f 1) (f 1))).
    reflexivity.
  - destruct (proj2 (AMa_spectrum_validates_fs (C := collab true) sig (PyInt 0)
                       (f 10) (f 10) 1 (f 1) (f 1)) eq_refl eq_refl)
      as (_ & msg & Hout & Hmsg).
    unfold AMa_spectrum_run. rewrite Hout, (Hmsg eq_refl). reflexivity.
Defined.

(** C2 on the test doubles: [fs = -1] reaches the pitch tracker. *)
Lemma f0M_entry_points_skip_validation_witness :
  (exists evs, events (f0M_spectrum_run (PyInt (-1))) = Invoke c_mock_yin :: evs) /\
  (exists evs, events (f0M_scalogram_run (PyInt (-1))) = Invoke c_mock_yin :: evs).
Proof.
  apply (f0M_entry_points_skip_validation (C := collab true)); reflexivity.
Defined.

(** C4 on the test doubles. *)
Lemma only_f0M_scalogram_returns_no_bundle_witness :
  exists A freqs,
    tuple (f0M_scalogram_run (PyInt 1)) = [Matrix A; Vector freqs] /\
    existsb is_bundle (tuple (f0M_scalogram_run (PyInt 1))) = false.
Proof.
  apply (proj2 (proj2 (proj2 (proj2
           (only_f0M_scalogram_returns_no_bundle (C := collab true)))))
         sig (PyInt 1) (f 7) (f 10) (f 10) 1 1 (f 60) (f 550)
         F64.lit_0_4 F64.lit_0_4 (f 10) F64.lit_0_4).
  apply (returned_tuple (f0M_scalogram_run (PyInt 1))). vm_compute. reflexivity.
Defined.

(** C4 fails as stated: [f0M_scalogram] can return a tuple that holds
    no diagnostics bundle. *)
Lemma f0M_scalogram_tuple_has_no_bundle :
  ~ (forall (C : Collaborators) sig fs window_NT mfmin mfmax modbank_Nmod
       undersample fmin fmax yin_thresh ap0_thresh max_jump min_duration tup,
       outcome (f0M_scalogram sig fs window_NT mfmin mfmax modbank_Nmod
                  undersample fmin fmax yin_thresh ap0_thresh max_jump
                  min_duration) = Ok tup ->
       existsb is_bundle tup = true).
Proof.
  intros H.
  specialize (H (collab true) sig (PyInt 1) (f 7) (f 10) (f 10) 1 1 (f 60)
                (f 550) F64.lit_0_4 F64.lit_0_4 (f 10) F64.lit_0_4
                (tuple (f0M_scalogram_run (PyInt 1)))).
  assert (Hrun : outcome (f0M_scalogram_run (PyInt 1))
                 = Ok (tuple (f0M_scalogram_run (PyInt 1)))).
  { apply returned_tuple. vm_compute. reflexivity. }
  specialize (H Hrun). vm_compute in H. discriminate H.
Qed.

(** C5 on the test doubles. *)
Lemma f0M_spectrum_steps_witness :
  exists binned freqs step,
    tuple (f0M_spectrum_run (PyInt 1)) =
    [Vector binned; Vector freqs; Bundle (P_f0M_spec step)].
Proof.
  destruct (f0M_spectrum_steps (C := collab true) sig (PyInt 1) (f 10) (f 10)
              1 1 (f 60) (f 550) F64.lit_0_4 F64.lit_0_4 (f 10) F64.lit_0_4
              (tuple (f0M_spectrum_run (PyInt 1))))
    as (track & ap0 & fs_track & f0 & n & t & sub & f_spectra & edges & freqs
        & power & binned & step & _ & _ & _ & _ & _ & _ & _ & _ & _ & _ & Htup & _).
  { apply (returned_tuple (f0M_spectrum_run (PyInt 1))). vm_compute. reflexivity. }
  exists binned, f_spectra, step. exact Htup.
Defined.

(** C6 on the test doubles. *)
Lemma AMa_spectrum_columns_witness :
  exists AMspec fc freqs step,
    tuple (AMa_spectrum_run (PyInt 1)) =
    [Matrix AMspec; Vector fc; Vector freqs; Bundle (P_AMa_spec step)] /\
    shape0 AMspec = length freqs /\ shape1 AMspec = length fc.
Proof.
  destruct (AMa_spectrum_columns (C := collab true) sig (PyInt 1) (f 10) (f 10)
              1 (f 1) (f 1) (tuple (AMa_spectrum_run (PyInt 1))))
    as (gamma & fc & E & f_spectra & edges & AMspec & step
        & _ & _ & _ & Htup & H0 & H1 & _).
  { apply (returned_tuple (AMa_spectrum_run (PyInt 1))). vm_compute. reflexivity. }
  exists AMspec, fc, f_spectra, step. split_and!; assumption.
Defined.

(** C10 on a two-sample signal and a track whose second sample is
    missing. *)
Lemma drop_missing_pairs_witness :
  exists f0_wo_nan t_wo_nan,
    drop_missing sig (PyInt 1) 1 [f 5; F64.nan]
    = Ok (f0_wo_nan, t_wo_nan) /\
    length f0_wo_nan = length t_wo_nan.
Proof.
  destruct (drop_missing_pairs sig (PyInt 1) 1 [f 5; F64.nan]
              2 (map (fun v => F64.div v (f 1)) (arange1 2)))
    as (sub & f0w & tw & _ & _ & _ & Hd & Hlen & _).
  - reflexivity.
  - reflexivity.
  - lia.
  - vm_compute. lia.
  - exists f0w, tw. split; assumption.
Defined.

(** C9 on the test doubles: the store at row 4 of a grid of 6 rows. *)
Lemma stores_below_dim_witness :
  4 < 6 /\ normalize_index (Z.to_nat 6) 4 = Some (Z.to_nat 4).
Proof.
  destruct (proj1 (stores_below_dim (C := collab true))
              E (PyInt 1) (f 7) 1 [f 10] 2%nat [5; 6; 5; 6] 6
              0%nat 4 0%nat (f 8)) as [Hlt Hin].
  - vm_compute. reflexivity.
  - reflexivity.
  - apply (list_elem_of_lookup_2 _ 2%nat). vm_compute. reflexivity.
  - split; [exact Hlt|]. apply Hin.
    + reflexivity.
    + repeat constructor.
Defined.

(** C7 on the test doubles: the first window of the first channel, and
    of the track. *)
Lemma estimates_stored_half_window_ahead_witness :
  (exists r p,
     Store 0 (0 + r) 0 (F64.mul F64.two p) ∈ events (AMa_scalogram_run (f 1))) /\
  (exists r p,
     Store 0 (0 + r) 0 (F64.mul F64.two p) ∈ events (f0M_scalogram_run (PyInt 1))).
Proof.
  split.
  - destruct (proj1 (estimates_stored_half_window_ahead (C := collab true))
                sig (PyInt 1) (f 7) (f 10) (f 10) 1 (f 1) (f 1)
                (tuple (AMa_scalogram_run (f 1))))
      as (A & fc & freqs & step & Htup & Hplaced).
    { apply (returned_tuple (AMa_scalogram_run (f 1))). vm_compute. reflexivity. }
    assert (Hfc : fc = [f 1; f 1]).
    { transitivity (vector_at 1 (tuple (AMa_scalogram_run (f 1)))).
      - rewrite Htup. reflexivity.
      - vm_compute. reflexivity. }
    assert (Hfreqs : freqs = [f 10]).
    { transitivity (vector_at 2 (tuple (AMa_scalogram_run (f 1)))).
      - rewrite Htup. reflexivity.
      - vm_compute. reflexivity. }
    assert (HE : AMa_scal_E step = envelope_of (tuple (AMa_scalogram_run (f 1)))).
    { rewrite Htup. reflexivity. }
    subst fc freqs.
    destruct (Hplaced 0%nat 0%nat) with (iwin := 0%nat) (f := f 10)
      (windows := mkArray2
                    (length (row (envelope_of (tuple (AMa_scalogram_run (f 1)))) 0))
                    1
                    (fun i (_ : nat) =>
                       nth i (row (envelope_of (tuple (AMa_scalogram_run (f 1)))) 0)
                         F64.nan))
      as (P & p & r & _ & _ & _ & Hin).
    + simpl. lia.
    + simpl. lia.
    + reflexivity.
    + rewrite HE. reflexivity.
    + cbn [shape0]. vm_compute. lia.
    + exists r, p. exact Hin.
  - destruct (proj2 (estimates_stored_half_window_ahead (C := collab true))
                sig (PyInt 1) (f 7) (f 10) (f 10) 1 1 (f 60) (f 550)
                F64.lit_0_4 F64.lit_0_4 (f 10) F64.lit_0_4
                (tuple (f0M_scalogram_run (PyInt 1))))
      as (track & ap0 & f0 & fs_yin & A & freqs & Hyin & Htrack & Hdiv & Htup
          & Hplaced).
    { apply (returned_tuple (f0M_scalogram_run (PyInt 1))). vm_compute. reflexivity. }
    assert (Hfreqs : freqs = [f 10]).
    { transitivity (vector_at 1 (tuple (f0M_scalogram_run (PyInt 1)))).
      - rewrite Htup. reflexivity.
      - vm_compute. reflexivity. }
    subst freqs.
    vm_compute in Hyin. injection Hyin as <- <-.
    vm_compute in Htrack. injection Htrack as <-.
    vm_compute in Hdiv. injection Hdiv as <-.
    destruct (Hplaced 0%nat) with (iwin := 0%nat) (f := f 10)
      (windows := mkArray2 2 1 (fun i (_ : nat) => nth i [f 1760; f 3520] F64.nan))
      (t_windows := mkArray2 2 1 (fun i (_ : nat) => nth i [f 1; f 2] F64.nan))
      as (fr & P & p & r & _ & _ & _ & Hin).
    + simpl. lia.
    + reflexivity.
    + vm_compute. reflexivity.
    + vm_compute. reflexivity.
    + simpl. lia.
    + exists r, p. exact Hin.
Defined.

(** C7 fails as stated: with [window_NT = 7] and [f = 10] the offset
    [round((7 / 10) / 2 / 0.1)] is 3, whereas the code computes
    [round(7 * (1 / 10) / 2 / 0.1) = 4]; the estimate of window 0 is
    stored at row 4 and row 3 stays missing, in both scalograms. *)
Lemma estimate_not_at_claimed_row :
  half_window_as_claimed (f 7) (f 10) = Ok 3 /\
  half_window (window_length_of (f 7) (f 10)) = Ok 4 /\
  events (f0M_scalogram_run (PyInt 1)) =
    [Invoke c_mock_yin; Invoke c_remove_artifacts;
     Invoke c_define_modulation_axis; Invoke c_segment_into_windows;
     Invoke c_segment_into_windows; Invoke c_segment_into_windows;
     Invoke c_lombscargle; Store 0 4 0 (f 6195200);
     Invoke c_lombscargle; Store 0 5 0 (f 24780800)] /\
  rows (matrix (f0M_scalogram_run (PyInt 1))) =
    [[F64.nan]; [F64.nan]; [F64.nan]; [F64.nan]; [f 6195200]; [f 24780800]] /\
  events (AMa_scalogram_run (f 1)) =
    [Invoke c_auditory_filterbank; Invoke c_hilbert;
     Invoke c_define_modulation_axis; Invoke c_segment_into_windows;
     Invoke c_segment_into_windows; Invoke c_segment_into_windows;
     Invoke c_periodogram; Store 0 4 0 (f 8);
     Invoke c_periodogram; Store 0 5 0 (f 18);
     Invoke c_segment_into_windows;
     Invoke c_periodogram; Store 1 4 0 (f 8);
     Invoke c_periodogram; Store 1 5 0 (f 18);
     Invoke c_aud_filt_bw] /\
  rows (matrix (AMa_scalogram_run (f 1))) =
    [[F64.nan]; [F64.nan]; [F64.nan]; [F64.nan]; [f 16]; [f 36]].
Proof. vm_compute. repeat split. Qed.

(** C1 on the test doubles: an untouched cell, a cell two channels
    wrote, and a cell two silent channels wrote. *)
Lemma AMa_scalogram_cells_witness :
  item (matrix (AMa_scalogram_run (f 1))) 0 0 = F64.nan /\
  item (matrix (AMa_scalogram_run (f 1))) 4 0 = channel_sum [f 8; f 8] /\
  item (matrix AMa_scalogram_silent_run) 4 0 = F64.nan.
Proof.
  assert (Hrun : item (matrix (AMa_scalogram_run (f 1))) 0 0 = F64.nan /\
                 item (matrix (AMa_scalogram_run (f 1))) 4 0
                 = channel_sum [f 8; f 8]).
  { destruct (AMa_scalogram_cells (C := collab true) sig (PyInt 1) (f 7) (f 10)
                (f 10) 1 (f 1) (f 1) (tuple (AMa_scalogram_run (f 1))))
      as (A & fc & freqs & step & Htup & Hcells).
    { apply (returned_tuple (AMa_scalogram_run (f 1))). vm_compute. reflexivity. }
    assert (HA : A = matrix (AMa_scalogram_run (f 1))).
    { unfold matrix. rewrite Htup. reflexivity. }
    assert (Hfc : fc = [f 1; f 1]).
    { transitivity (vector_at 1 (tuple (AMa_scalogram_run (f 1)))).
      - rewrite Htup. reflexivity.
      - vm_compute. reflexivity. }
    cbv zeta in Hcells. subst A fc. split.
    - destruct (Hcells 0%nat 0%nat) as (Hnan & _ & _);
        [vm_compute; lia | vm_compute; lia |].
      apply Hnan.
      intros g r v Hin. apply list_elem_of_In in Hin. vm_compute in Hin.
      repeat (destruct Hin as [Hin|Hin];
              [try discriminate Hin; injection Hin as _ <- _; vm_compute; discriminate|]).
      contradiction.
    - destruct (Hcells 4%nat 0%nat) as (_ & Hsum & _);
        [vm_compute; lia | vm_compute; lia |].
      rewrite Hsum; [vm_compute; reflexivity|].
      intros k Hk. cbn [length] in Hk.
      assert (Hk' : k = 1%nat \/ k = 2%nat) by lia.
      destruct Hk' as [->| ->]; vm_compute; reflexivity. }
  destruct Hrun as [Hnan Hsum]. split_and!; [exact Hnan | exact Hsum |].
  destruct (AMa_scalogram_cells (C := collab true) sig (PyInt 1) (f 7) (f 10)
              (f 10) 1 (f 0) (f 0) (tuple AMa_scalogram_silent_run))
    as (A & fc & freqs & step & Htup & Hcells).
  { apply (returned_tuple AMa_scalogram_silent_run). vm_compute. reflexivity. }
  assert (HA : A = matrix AMa_scalogram_silent_run).
  { unfold matrix. rewrite Htup. reflexivity. }
  assert (Hfc : fc = [f 0; f 0]).
  { transitivity (vector_at 1 (tuple AMa_scalogram_silent_run)).
    - rewrite Htup. reflexivity.
    - vm_compute. reflexivity. }
  cbv zeta in Hcells. subst A fc.
  destruct (Hcells 4%nat 0%nat) as (_ & _ & Hzero);
    [vm_compute; lia | vm_compute; lia |].
  apply Hzero. vm_compute. reflexivity.
Defined.

(** C1 fails as stated: with two silent channels, cell (4, 0) is
    written by both channels, the sum of their estimates is 0.0, and
    the cell reads NaN, as it would if the zeros were replaced once
    after the sum: a written cell does not always hold the sum of the
    channels. *)
Lemma AMa_scalogram_written_zero_reads_nan :
  events AMa_scalogram_silent_run =
    [Invoke c_auditory_filterbank; Invoke c_hilbert;
     Invoke c_define_modulation_axis; Invoke c_segment_into_windows;
     Invoke c_segment_into_windows; Invoke c_segment_into_windows;
     Invoke c_periodogram; Store 0 4 0 F64.zero;
     Invoke c_periodogram; Store 0 5 0 F64.zero;
     Invoke c_segment_into_windows;
     Invoke c_periodogram; Store 1 4 0 F64.zero;
     Invoke c_periodogram; Store 1 5 0 F64.zero;
     Invoke c_aud_filt_bw] /\
  shape0 (matrix AMa_scalogram_silent_run) = 6%nat /\
  channel_sum
    (map (fun g => stored 6 g 4 0 (events AMa_scalogram_silent_run))
       (range 2)) = F64.zero /\
  zero_to_nan
    (channel_sum
       (map (fun g => stored 6 g 4 0 (events AMa_scalogram_silent_run))
          (range 2))) = F64.nan /\
  item (matrix AMa_scalogram_silent_run) 4 0 = F64.nan /\
  item (matrix AMa_scalogram_silent_run) 4 0 <>
    channel_sum
      (map (fun g => stored 6 g 4 0 (events AMa_scalogram_silent_run))
         (range 2)).
Proof. vm_compute. repeat split. discriminate. Qed.

(** The replacement of zeros inside the channel loop (line 98): with a
    silent first channel, cell (4, 0) is written by both channels, the
    sum of their estimates is 8.0, and the cell reads NaN. *)
Lemma AMa_scalogram_sum_lost :
  events (AMa_scalogram_run (f 0)) =
    [Invoke c_auditory_filterbank; Invoke c_hilbert;
     Invoke c_define_modulation_axis; Invoke c_segment_into_windows;
     Invoke c_segment_into_windows; Invoke c_segment_into_windows;
     Invoke c_periodogram; Store 0 4 0 F64.zero;
     Invoke c_periodogram; Store 0 5 0 F64.zero;
     Invoke c_segment_into_windows;
     Invoke c_periodogram; Store 1 4 0 (f 8);
     Invoke c_periodogram; Store 1 5 0 (f 18);
     Invoke c_aud_filt_bw] /\
  shape0 (matrix (AMa_scalogram_run (f 0))) = 6%nat /\
  channel_sum
    (map (fun g => stored 6 g 4 0 (events (AMa_scalogram_run (f 0))))
       (range 2)) = f 8 /\
  item (matrix (AMa_scalogram_run (f 0))) 4 0 = F64.nan /\
  item (matrix (AMa_scalogram_run (f 0))) 4 0 <>
    channel_sum
      (map (fun g => stored 6 g 4 0 (events (AMa_scalogram_run (f 0))))
         (range 2)).
Proof. vm_compute. repeat split. discriminate. Qed.

(** C3 on the test doubles, with a modulation-major filterbank. *)
Lemma AMi_spectrum_entries_witness :
  shape0 (matrix (AMi_spectrum_run true 3)) = 2%nat /\
  shape1 (matrix (AMi_spectrum_run true 3)) = 3%nat /\
  item (matrix (AMi_spectrum_run true 3)) 1 0 =
    F64.div (rms_sqrt2 (C := collab true) (band (AMfilt true 3) 0 1))
      (F64.mul (mean (row E 1)) F64.one).
Proof.
  destruct (AMi_spectrum_entries (C := collab true) sig (PyInt 1) (f 10) (f 10)
              3 (f 1) (f 1) (f 2) (tuple (AMi_spectrum_run true 3)))
    as (gamma & fc & E' & AMfilt' & mf & A & step & Hfb & Henv & Hking & Htup
        & _ & _ & Hentries).
  { apply (returned_tuple (AMi_spectrum_run true 3)). vm_compute. reflexivity. }
  assert (HA : A = matrix (AMi_spectrum_run true 3)).
  { unfold matrix. rewrite Htup. reflexivity. }
  subst A.
  injection Hfb as <- <-. injection Henv as <-. injection Hking as <- <-.
  destruct Hentries as (H0 & H1 & Hitem); [reflexivity | reflexivity |].
  split_and!; [exact H0 | exact H1 |].
  rewrite (Hitem 1%nat 0%nat) by (simpl; lia).
  vm_compute. reflexivity.
Defined.

(** C3 fails as stated.  With the filterbank output indexed [channel,
    modulation frequency, time], two channels and three frequencies
    cannot be divided at all, and with two channels and two frequencies
    the entry at (frequency 0, channel 1) is divided by the mean of
    channel 0; with the output indexed [modulation frequency, channel,
    time] the matrix of two channels and three frequencies is 2-by-3,
    Nchan-by-Nmod. *)
Lemma AMi_spectrum_not_Nmod_by_Nchan :
  outcome (AMi_spectrum_run false 3) =
    Raise (ValueError "operands could not be broadcast together") /\
  (shape0 (matrix (AMi_spectrum_run false 2)) = 2%nat /\
   shape1 (matrix (AMi_spectrum_run false 2)) = 2%nat /\
   item (matrix (AMi_spectrum_run false 2)) 0 1 =
     F64.div (rms_sqrt2 (C := collab false) (band (AMfilt false 2) 1 0))
       (mean (row E 0)) /\
   item (matrix (AMi_spectrum_run false 2)) 0 1 <>
     F64.div (rms_sqrt2 (C := collab false) (band (AMfilt false 2) 1 0))
       (mean (row E 1))) /\
  (shape0 (matrix (AMi_spectrum_run true 3)) = 2%nat /\
   shape1 (matrix (AMi_spectrum_run true 3)) = 3%nat).
Proof. vm_compute. repeat split. discriminate. Qed.

(** ** Further evaluation on the test doubles *)

(** X1 on the test doubles: a string and a zero sample rate. *)
Lemma AM_entry_points_reject_exactly_witness :
  AMa_scalogram (C := collab true) sig (PyStr "44100") (f 7) (f 10) (f 10) 1
    (f 1) (f 1) = mkM (Raise (ValueError "Invalid input types.")) [] /\
  AMi_spectrum (C := collab true) sig (PyInt 0) (f 10) (f 10) 1 (f 1) (f 1)
    (f 1) = mkM (Raise (ValueError "fs must be a positive scalar.")) [].
Proof.
  split.
  - destruct (AM_entry_points_reject_exactly (C := collab true) sig
                (PyStr "44100") (f 7) (f 10) (f 10) 1 (f 1) (f 1) (f 1))
      as (_ & _ & _ & Hty & _).
    apply Hty. right. reflexivity.
  - destruct (AM_entry_points_reject_exactly (C := collab true) sig
                (PyInt 0) (f 7) (f 10) (f 10) 1 (f 1) (f 1) (f 1))
      as (_ & _ & _ & _ & Hle).
    apply Hle; reflexivity.
Defined.

(** X2 on the test doubles: a string sample rate, and [fmin = 0]. *)
Lemma f0M_ceiling_division_raises_witness :
  (exists msg,
     f0M_spectrum_run (PyStr "44100") = mkM (Raise (TypeError msg)) [] /\
     f0M_scalogram_run (PyStr "44100") = mkM (Raise (TypeError msg)) []) /\
  f0M_scalogram (C := collab true) sig (PyInt 1) (f 7) (f 10) (f 10) 1 1 (f 0)
    (f 550) F64.lit_0_4 F64.lit_0_4 (f 10) F64.lit_0_4 =
    mkM (Raise ZeroDivisionError) [].
Proof.
  split.
  - apply (proj1 (f0M_ceiling_division_raises (C := collab true) sig
                    (PyStr "44100") (f 7) (f 10) (f 10) 1 1 (f 60) (f 550)
                    F64.lit_0_4 F64.lit_0_4 (f 10) F64.lit_0_4)).
    reflexivity.
  - apply (proj2 (f0M_ceiling_division_raises (C := collab true) sig
                    (PyInt 1) (f 7) (f 10) (f 10) 1 1 (f 0) (f 550)
                    F64.lit_0_4 F64.lit_0_4 (f 10) F64.lit_0_4));
      reflexivity.
Defined.

(** X3 on the test doubles: an aperiodicity of one sample for a track
    of two, and [undersample = 0]. *)
Lemma f0M_gate_and_rate_errors_witness :
  (exists msg,
     f0M_spectrum (C := collab_short_ap0) sig (PyInt 1) (f 10) (f 10) 1 1
       (f 60) (f 550) F64.lit_0_4 F64.lit_0_4 (f 10) F64.lit_0_4 =
       mkM (Raise (IndexError msg)) [Invoke c_mock_yin] /\
     f0M_scalogram (C := collab_short_ap0) sig (PyInt 1) (f 7) (f 10) (f 10) 1
       1 (f 60) (f 550) F64.lit_0_4 F64.lit_0_4 (f 10) F64.lit_0_4 =
       mkM (Raise (IndexError msg)) [Invoke c_mock_yin]) /\
  f0M_scalogram (C := collab true) sig (PyInt 1) (f 7) (f 10) (f 10) 1 0 (f 60)
    (f 550) F64.lit_0_4 F64.lit_0_4 (f 10) F64.lit_0_4 =
    mkM (Raise ZeroDivisionError) [Invoke c_mock_yin].
Proof.
  split.
  - apply (proj1 (f0M_gate_and_rate_errors (C := collab_short_ap0) sig
                    (PyInt 1) (f 7) (f 10) (f 10) 1 1 (f 60) (f 550)
                    F64.lit_0_4 F64.lit_0_4 (f 10) F64.lit_0_4
                    [f 2; f 3] [F64.zero] (f 1)
                    eq_refl eq_refl eq_refl eq_refl)).
    cbn [length]. lia.
  - apply (proj2 (f0M_gate_and_rate_errors (C := collab true) sig
                    (PyInt 1) (f 7) (f 10) (f 10) 1 0 (f 60) (f 550)
                    F64.lit_0_4 F64.lit_0_4 (f 10) F64.lit_0_4
                    [f 2; f 3] [F64.zero; F64.zero] (f 1)
                    eq_refl eq_refl eq_refl eq_refl));
      reflexivity.
Defined.

(** X4 on a two-sample signal and a track of three samples. *)
Lemma drop_missing_track_too_long_witness :
  exists msg,
    drop_missing sig (PyInt 1) 1 [f 5; F64.nan; f 6] = Raise (IndexError msg).
Proof.
  apply (drop_missing_track_too_long sig (PyInt 1) 1 [f 5; F64.nan; f 6]
           2 (map (fun v => F64.div v (f 1)) (arange1 2))).
  - reflexivity.
  - reflexivity.
  - lia.
  - vm_compute. lia.
Defined.

(** X5 on the test doubles: a channel-major modulation filterbank, two
    channels and three modulation frequencies. *)
Lemma AMi_spectrum_shape_mismatch_witness :
  exists msg,
    AMi_spectrum_run false 3 =
    mkM (Raise (ValueError msg))
      [Invoke c_auditory_filterbank; Invoke c_hilbert;
       Invoke c_king2019_modfilterbank_updated].
Proof.
  unfold AMi_spectrum_run.
  eapply (AMi_spectrum_shape_mismatch (C := collab false)).
  - reflexivity.
  - reflexivity.
  - reflexivity.
  - reflexivity.
  - reflexivity.
  - reflexivity.
  - reflexivity.
  - reflexivity.
  - left. reflexivity.
Defined.

(** X6 on the test doubles. *)
Lemma spectrum_call_sequences_witness :
  exists fc,
    tuple (AMa_spectrum_run (PyInt 1)) !! 1%nat = Some (Vector fc) /\
    events (AMa_spectrum_run (PyInt 1)) =
    [Invoke c_auditory_filterbank; Invoke c_hilbert;
     Invoke c_define_modulation_axis]
    ++ replicate (length fc) (Invoke c_periodogram)
    ++ [Invoke c_aud_filt_bw].
Proof.
  apply (proj1 (spectrum_call_sequences (C := collab true))
           sig (PyInt 1) (f 10) (f 10) 1 (f 1) (f 1)).
  apply (returned_tuple (AMa_spectrum_run (PyInt 1))). vm_compute. reflexivity.
Defined.

(** X7 on the test doubles: the fourth event of a run of
    [AMa_spectrum]. *)
Lemma entry_points_invoke_only_witness :
  c_periodogram ∈
    [c_auditory_filterbank; c_hilbert; c_define_modulation_axis;
     c_periodogram; c_aud_filt_bw].
Proof.
  apply (proj1 (entry_points_invoke_only (C := collab true) c_periodogram)
           sig (PyInt 1) (f 10) (f 10) 1 (f 1) (f 1)).
  apply (list_elem_of_lookup_2 _ 3%nat). vm_compute. reflexivity.
Defined.

(** X8 on the test doubles, with [modbank_Nmod = 0]. *)
Lemma scalogram_without_window_raises_witness :
  (exists msg,
     AMa_scalogram (C := collab true) sig (PyInt 1) (f 7) (f 10) (f 10) 0
       (f 1) (f 1) =
     mkM (Raise (ValueError msg))
       [Invoke c_auditory_filterbank; Invoke c_hilbert;
        Invoke c_define_modulation_axis]) /\
  exists msg,
    f0M_scalogram (C := collab true) sig (PyInt 1) (f 7) (f 10) (f 10) 0 1
      (f 60) (f 550) F64.lit_0_4 F64.lit_0_4 (f 10) F64.lit_0_4 =
    mkM (Raise (ValueError msg))
      [Invoke c_mock_yin; Invoke c_remove_artifacts;
       Invoke c_define_modulation_axis].
Proof.
  split.
  - eapply (proj1 (scalogram_without_window_raises (C := collab true))).
    + reflexivity.
    + reflexivity.
    + reflexivity.
    + reflexivity.
    + reflexivity.
    + reflexivity.
    + reflexivity.
    + reflexivity.
    + right. lia.
  - eapply (proj2 (scalogram_without_window_raises (C := collab true))).
    + reflexivity.
    + reflexivity.
    + reflexivity.
    + reflexivity.
    + reflexivity.
    + lia.
Defined.

(** X9 on the test doubles: the first store of a run of
    [AMa_scalogram]. *)
Lemma scalogram_stores_are_window_estimates_witness :
  exists E0 freqs (fc : list float),
    AMa_store (C := collab true) E0 (PyInt 1) (f 7) freqs (length fc)
      (Z.to_nat 1) 0 4 0 (f 8).
Proof.
  destruct (proj1 (scalogram_stores_are_window_estimates (C := collab true)
                     0%nat 4 0%nat (f 8))
              sig (PyInt 1) (f 7) (f 10) (f 10) 1 (f 1) (f 1))
    as (gamma & fc & E0 & freqs & edges & _ & _ & _ & Hstore).
  - apply (list_elem_of_lookup_2 _ 7%nat). vm_compute. reflexivity.
  - exists E0, freqs, fc. exact Hstore.
Defined.

(** X10 on the test doubles: a cell no store touched. *)
Lemma f0M_scalogram_cells_witness :
  item (matrix (f0M_scalogram_run (PyInt 1))) 0 0 = F64.nan.
Proof.
  destruct (f0M_scalogram_cells (C := collab true) sig (PyInt 1) (f 7) (f 10)
              (f 10) 1 1 (f 60) (f 550) F64.lit_0_4 F64.lit_0_4 (f 10)
              F64.lit_0_4 (tuple (f0M_scalogram_run (PyInt 1))))
    as (G & freqs & Htup & _ & Hcells).
  { apply (returned_tuple (f0M_scalogram_run (PyInt 1))). vm_compute. reflexivity. }
  assert (HG : G = matrix (f0M_scalogram_run (PyInt 1))).
  { unfold matrix. rewrite Htup. reflexivity. }
  cbv zeta in Hcells. subst G.
  apply (Hcells 0%nat 0%nat).
  intros g r v Hin. apply list_elem_of_In in Hin. vm_compute in Hin.
  repeat (destruct Hin as [Hin|Hin];
          [try discriminate Hin; injection Hin as _ <- _; vm_compute; discriminate|]).
  contradiction.
Defined.

(** X11 on the test doubles: the last row of the grid was stored at. *)
Lemma scalogram_rows_fit_stores_witness :
  exists g c v,
    Store g (Z.of_nat (shape0 (matrix (AMa_scalogram_run (f 1)))) - 1) c v ∈
      events (AMa_scalogram_run (f 1)).
Proof.
  destruct (proj1 (scalogram_rows_fit_stores (C := collab true))
              sig (PyInt 1) (f 7) (f 10) (f 10) 1 (f 1) (f 1)
              (tuple (AMa_scalogram_run (f 1))))
    as (A & fc & freqs & step & Htup & _ & Hrows).
  { apply (returned_tuple (AMa_scalogram_run (f 1))). vm_compute. reflexivity. }
  assert (HA : A = matrix (AMa_scalogram_run (f 1))).
  { unfold matrix. rewrite Htup. reflexivity. }
  cbv zeta in Hrows. subst A. exact (proj2 Hrows).
Defined.

(** X12 on the test doubles: with a silent first channel, cell (4, 0)
    reads NaN although the second channel stored 8.0 there. *)
Lemma AMa_scalogram_zero_total_reads_nan_witness :
  item (matrix (AMa_scalogram_run (f 0))) 4 0 = F64.nan.
Proof.
  destruct (AMa_scalogram_zero_total_reads_nan (C := collab true) sig (PyInt 1)
              (f 7) (f 10) (f 10) 1 (f 0) (f 1)
              (tuple (AMa_scalogram_run (f 0))))
    as (A & fc & freqs & step & Htup & Hz).
  { apply (returned_tuple (AMa_scalogram_run (f 0))). vm_compute. reflexivity. }
  assert (HA : A = matrix (AMa_scalogram_run (f 0))).
  { unfold matrix. rewrite Htup. reflexivity. }
  assert (Hfc : fc = [f 0; f 1]).
  { transitivity (vector_at 1 (tuple (AMa_scalogram_run (f 0)))).
    - rewrite Htup. reflexivity.
    - vm_compute. reflexivity. }
  cbv zeta in Hz. subst A fc.
  apply (Hz 4%nat 0%nat 1%nat).
  - cbn [length]. lia.
  - vm_compute. reflexivity.
Defined.

(** X14 on the test doubles. *)
Lemma scalogram_call_counts_witness :
  count (is_call c_segment_into_windows) (events (f0M_scalogram_run (PyInt 1)))
    = (3 * Z.to_nat 1)%nat /\
  count (is_call c_lombscargle) (events (f0M_scalogram_run (PyInt 1))) =
    count is_store (events (f0M_scalogram_run (PyInt 1))).
Proof.
  apply (proj2 (scalogram_call_counts (C := collab true))
           sig (PyInt 1) (f 7) (f 10) (f 10) 1 1 (f 60) (f 550)
           F64.lit_0_4 F64.lit_0_4 (f 10) F64.lit_0_4
           (tuple (f0M_scalogram_run (PyInt 1)))).
  apply (returned_tuple (f0M_scalogram_run (PyInt 1))). vm_compute. reflexivity.
Defined.

(** X13 on the test doubles: the time axis has two entries, the grid
    six rows. *)
Lemma AMa_scalogram_time_axis_witness :
  exists step,
    tuple (AMa_scalogram_run (f 1)) !! 3%nat =
      Some (Bundle (P_AMa_scalogram step)) /\
    length (AMa_scal_t step) = 2%nat /\
    shape0 (matrix (AMa_scalogram_run (f 1))) = 6%nat.
Proof.
  destruct (AMa_scalogram_time_axis (C := collab true) sig (PyInt 1) (f 7)
              (f 10) (f 10) 1 (f 1) (f 1) (tuple (AMa_scalogram_run (f 1))))
    as (A & fc & freqs & step & f0 & w & Htup & _ & _ & _ & Hw & _ & Hlen).
  { apply (returned_tuple (AMa_scalogram_run (f 1))). vm_compute. reflexivity. }
  exists step. split; [rewrite Htup; reflexivity|].
  split; [|vm_compute; reflexivity].
  assert (Hfc : fc = [f 1; f 1]).
  { transitivity (vector_at 1 (tuple (AMa_scalogram_run (f 1)))).
    - rewrite Htup. reflexivity.
    - vm_compute. reflexivity. }
  assert (HE : AMa_scal_E step = envelope_of (tuple (AMa_scalogram_run (f 1)))).
  { rewrite Htup. reflexivity. }
  rewrite HE in Hw. subst fc.
  match type of Hw with
  | ?segmented = Ok _ =>
      assert (Hs : match segmented with
                   | Ok a => shape0 a
                   | Raise _ => 0%nat
                   end = 2%nat) by (vm_compute; reflexivity)
  end.
  rewrite Hw in Hs. rewrite Hlen. exact Hs.
Defined.

(** X15 on the test doubles: a periodogram of a single power, two
    modulation frequencies; both rows of column 0 hold twice the
    energy [2 * (2 * 2 + 3 * 3) = 26] of the first envelope. *)
Lemma AMa_spectrum_periodogram_lengths_witness :
  item (matrix (AMa_spectrum (C := collab_single_power) sig (PyInt 1) (f 10)
                  (f 10) 2 (f 1) (f 1))) 1 0 = f 26.
Proof.
  destruct (AMa_spectrum_periodogram_lengths (C := collab_single_power) sig
              (PyInt 1) (f 10) (f 10) 2 (f 1) (f 1)
              (tuple (AMa_spectrum (C := collab_single_power) sig (PyInt 1)
                        (f 10) (f 10) 2 (f 1) (f 1))))
    as (gamma & fc & E0 & freqs & edges & A & step & Hfb & Hh & Hax & Htup
        & Hcols).
  { apply (returned_tuple (AMa_spectrum (C := collab_single_power) sig (PyInt 1)
                             (f 10) (f 10) 2 (f 1) (f 1))).
    vm_compute. reflexivity. }
  assert (HA : A = matrix (AMa_spectrum (C := collab_single_power) sig (PyInt 1)
                             (f 10) (f 10) 2 (f 1) (f 1))).
  { unfold matrix. rewrite Htup. reflexivity. }
  injection Hfb as <- <-. injection Hh as <-. injection Hax as <- <-.
  destruct (Hcols 0%nat) as (Pxx & HP & _ & Hone); [cbn [length]; lia|].
  injection HP as <-. subst A.
  rewrite (Hone eq_refl 1%nat) by (vm_compute; lia).
  vm_compute. reflexivity.
Defined.

(** C9 fails as stated: with [window_NT = -4] and [f = 10] the offset
    [round(-4 * (1 / 10) / 2 / 0.1)] is -2; the sizing pass records
    -1 and 0, the grid has no row, and the fill pass attempts its first
    store at row -2, which is out of bounds: both scalograms raise an
    [IndexError] although every collaborator succeeded. *)
Lemma negative_window_NT_store_out_of_bounds :
  half_window (window_length_of (f (-4)) (f 10)) = Ok (-2) /\
  outcome (AMa_sizing_pass (C := collab true) E (PyInt 1) (f (-4)) 1 [f 10] 2)
    = Ok [-1; 0; -1; 0] /\
  py_max [-1; 0; -1; 0] = Ok 0 /\
  events (AMa_fill_pass (C := collab true) E (PyInt 1) (f (-4)) 1 [f 10] 2 0)
    = [Invoke c_segment_into_windows; Invoke c_periodogram;
       Store 0 (-2) 0 (f 8)] /\
  normalize_index (Z.to_nat 0) (-2) = None /\
  AMa_scalogram_negative_run =
    mkM (Raise (IndexError "index out of bounds for axis 0"))
      [Invoke c_auditory_filterbank; Invoke c_hilbert;
       Invoke c_define_modulation_axis; Invoke c_segment_into_windows;
       Invoke c_segment_into_windows; Invoke c_segment_into_windows;
       Invoke c_periodogram; Store 0 (-2) 0 (f 8)] /\
  f0M_scalogram_negative_run =
    mkM (Raise (IndexError "index out of bounds for axis 0"))
      [Invoke c_mock_yin; Invoke c_remove_artifacts;
       Invoke c_define_modulation_axis; Invoke c_segment_into_windows;
       Invoke c_segment_into_windows; Invoke c_segment_into_windows;
       Invoke c_lombscargle; Store 0 (-2) 0 (f 6195200)].
Proof. vm_compute. repeat split. Qed.
